(** * adsnap-studio: the voice-to-image services and their callers

    A shallow embedding of
    - [src/services/voice_to_image.py]   (class [VoiceToImageService]),
    - [src/services/speech_to_text.py]   (class [SpeechToTextService]),
    - [src/services/background_service.py] ([remove_background]),
    - [src/components/voice_to_image.py] (the transcribe and generate handlers),
    followed by the properties the specification states about them.

    Python text is modelled as [string]; the case operations below are the
    ASCII part of [str.lower], [str.upper] and [str.capitalize] (a character
    outside [A-Za-z] is left as it is). *)

From Stdlib Require Import Bool Arith ZArith List String Ascii Lia.
From Stdlib Require Import DecimalString.
Import ListNotations.

Set Warnings "-register-all".

Open Scope list_scope.
Open Scope string_scope.

(** ** Python built-ins used by the services *)
Module Py.

Definition is_upper (c : ascii) : bool :=
  let n := nat_of_ascii c in Nat.leb 65 n && Nat.leb n 90.

Definition is_lower (c : ascii) : bool :=
  let n := nat_of_ascii c in Nat.leb 97 n && Nat.leb n 122.

Definition lower_char (c : ascii) : ascii :=
  if is_upper c then ascii_of_nat (nat_of_ascii c + 32) else c.

Definition upper_char (c : ascii) : ascii :=
  if is_lower c then ascii_of_nat (nat_of_ascii c - 32) else c.

Fixpoint map_chars (f : ascii -> ascii) (s : string) : string :=
  match s with
  | EmptyString => EmptyString
  | String c s' => String (f c) (map_chars f s')
  end.

(** [s.isascii()]: every character is below 128. *)
Fixpoint isascii (s : string) : bool :=
  match s with
  | EmptyString => true
  | String c s' => Nat.ltb (nat_of_ascii c) 128 && isascii s'
  end.

(** [s.lower()] for a text with [isascii]; the letters outside ASCII, which
    Python changes too, are left as they are. *)
Definition lower (s : string) : string := map_chars lower_char s.

(** [s.capitalize()] for a text with [isascii]: first character
    upper-cased, all the others lower-cased. *)
Definition capitalize (s : string) : string :=
  match s with
  | EmptyString => EmptyString
  | String c s' => String (upper_char c) (lower s')
  end.

(** [s.startswith(p)] *)
Fixpoint startswith (s p : string) {struct p} : bool :=
  match p, s with
  | EmptyString, _ => true
  | String _ _, EmptyString => false
  | String a p', String b s' => Ascii.eqb a b && startswith s' p'
  end.

(** [sub in s] on strings: [sub] starts at some position of [s]. *)
Fixpoint str_in (sub s : string) : bool :=
  startswith s sub ||
  match s with
  | EmptyString => false
  | String _ s' => str_in sub s'
  end.

(** [s.endswith(suf)]: [suf] is one of the tails of [s]. *)
Fixpoint endswith (s suf : string) : bool :=
  String.eqb s suf ||
  match s with
  | EmptyString => false
  | String _ s' => endswith s' suf
  end.

(** [s.endswith((a, b, ...))] with a tuple of suffixes. *)
Definition endswith_any (s : string) (sufs : list string) : bool :=
  existsb (endswith s) sufs.

(** [x in l] on a list of strings. *)
Definition str_in_list (x : string) (l : list string) : bool :=
  existsb (String.eqb x) l.

(** Truth value of a string: [not s] holds exactly for the empty one. *)
Definition str_truthy (s : string) : bool :=
  match s with EmptyString => false | _ => true end.

(** [str.isspace] on one ASCII character: 9..13, 28..31 and 32. *)
Definition is_space (c : ascii) : bool :=
  let n := nat_of_ascii c in
  (Nat.leb 9 n && Nat.leb n 13) || (Nat.leb 28 n && Nat.leb n 32).

Fixpoint lstrip (s : string) : string :=
  match s with
  | EmptyString => EmptyString
  | String c s' => if is_space c then lstrip s' else s
  end.

Fixpoint rstrip (s : string) : string :=
  match s with
  | EmptyString => EmptyString
  | String c s' =>
      match rstrip s' with
      | EmptyString => if is_space c then EmptyString else String c EmptyString
      | r => String c r
      end
  end.

(** [s.strip()] *)
Definition strip (s : string) : string := rstrip (lstrip s).

(** [s.rfind(c)] for a single character: the last index, or -1. *)
Fixpoint rfind_from (c : ascii) (s : string) (i : Z) (found : Z) : Z :=
  match s with
  | EmptyString => found
  | String a s' => rfind_from c s' (i + 1) (if Ascii.eqb a c then i else found)
  end.

Definition rfind (c : ascii) (s : string) : Z := rfind_from c s 0 (-1).

(** [p[i:]] and [p[:i]] for [0 <= i]. *)
Fixpoint drop (n : nat) (s : string) : string :=
  match n, s with
  | O, _ => s
  | S _, EmptyString => EmptyString
  | S n', String _ s' => drop n' s'
  end.

Fixpoint take (n : nat) (s : string) : string :=
  match n, s with
  | O, _ => EmptyString
  | S _, EmptyString => EmptyString
  | S n', String c s' => String c (take n' s')
  end.

(** The loop of [genericpath._splitext] that skips the leading dots of the
    file name: is there a character other than the dot in
    [p[filenameIndex:dotIndex]]? [n] counts the positions still to visit. *)
Fixpoint has_non_dot (p : string) (n : nat) : bool :=
  match n, p with
  | O, _ => false
  | S _, EmptyString => false
  | S n', String c p' => if Ascii.eqb c "." then has_non_dot p' n' else true
  end.

(** [os.path.splitext(p)] (posixpath: separator [/], extension separator [.]). *)
Definition splitext (p : string) : string * string :=
  let sepIndex := rfind "/" p in
  let dotIndex := rfind "." p in
  if (sepIndex <? dotIndex)%Z then
    let filenameIndex := (sepIndex + 1)%Z in
    if has_non_dot (drop (Z.to_nat filenameIndex) p)
                   (Z.to_nat (dotIndex - filenameIndex))
    then (take (Z.to_nat dotIndex) p, drop (Z.to_nat dotIndex) p)
    else (p, EmptyString)
  else (p, EmptyString).

(** [str(n)] for an integer. *)
Definition str_of_Z (z : Z) : string := NilZero.string_of_int (Z.to_int z).

End Py.

(** ** Prompt enhancement ([VoiceToImageService.enhance_voice_prompt]) *)
Module Prompt.
Import Py.

Definition photography_keywords : list string :=
  [ "professional"; "high quality"; "studio lighting"; "clean background";
    "product photography"; "commercial"; "advertising" ].

Definition qualifier_suffix : string :=
  ", professional product photography, studio lighting, clean background".

Definition sentence_ends : list string := [ "."; "!"; "?" ].

(** [any(keyword in enhanced_prompt.lower() for keyword in photography_keywords)] *)
Definition has_photography_keywords (enhanced_prompt : string) : bool :=
  existsb (fun keyword => str_in keyword (lower enhanced_prompt))
          photography_keywords.

Definition enhance_voice_prompt (transcribed_text : string) : string :=
  if negb (str_truthy transcribed_text) then ""
  else
    let enhanced_prompt := transcribed_text in
    let enhanced_prompt :=
      if negb (has_photography_keywords enhanced_prompt)
      then enhanced_prompt ++ qualifier_suffix
      else enhanced_prompt in
    let enhanced_prompt := capitalize enhanced_prompt in
    if negb (endswith_any enhanced_prompt sentence_ends)
    then enhanced_prompt ++ "."
    else enhanced_prompt.

End Prompt.

(** ** Python values, exceptions and effects *)
Module Eff.

(** A value as [json.loads] or a dictionary literal builds it. A dictionary
    is kept as its list of items. *)
Inductive pyval : Type :=
| VNone
| VBool (b : bool)
| VInt (z : Z)
| VStr (s : string)
| VList (l : list pyval)
| VDict (d : list (string * pyval)).

Definition dict : Type := list (string * pyval).

(** [bool(v)] *)
Definition truthy (v : pyval) : bool :=
  match v with
  | VNone => false
  | VBool b => b
  | VInt z => negb (z =? 0)%Z
  | VStr s => Py.str_truthy s
  | VList l => match l with [] => false | _ => true end
  | VDict d => match d with [] => false | _ => true end
  end.

(** [d.get(k)] *)
Fixpoint get (k : string) (d : dict) : option pyval :=
  match d with
  | [] => None
  | (k', v) :: d' => if String.eqb k k' then Some v else get k d'
  end.

(** [k in d] *)
Definition has_key (k : string) (d : dict) : bool :=
  match get k d with Some _ => true | None => false end.

(** [d.get(k, default)] *)
Definition get_default (k : string) (default : pyval) (d : dict) : pyval :=
  match get k d with Some v => v | None => default end.

(** A raised exception: its class and [str(e)].
    - [Exception cls msg] is an instance of a class that derives from
      [Exception];
    - [HTTPError], one of them ([requests.exceptions.HTTPError]), also
      carries the status code and the body text of its response;
    - [BaseException cls msg] is an instance of a class that derives from
      [BaseException] and not from [Exception]: [KeyboardInterrupt],
      [SystemExit], [GeneratorExit], and the exceptions by which Streamlit
      stops or reruns a script. *)
Inductive exn : Type :=
| Exception (cls : string) (msg : string)
| HTTPError (status_code : Z) (msg : string) (text : string)
| BaseException (cls : string) (msg : string).

Definition exn_str (e : exn) : string :=
  match e with
  | Exception _ msg => msg
  | HTTPError _ msg _ => msg
  | BaseException _ msg => msg
  end.

(** [isinstance(e, Exception)] *)
Definition is_Exception (e : exn) : bool :=
  match e with
  | BaseException _ _ => false
  | _ => true
  end.
Arguments is_Exception !e.

Inductive outcome (A : Type) : Type :=
| Ok (a : A)
| Raise (e : exn).
Arguments Ok {A} a.
Arguments Raise {A} e.

(** A computation over a world [W]: it ends with a value or a raised
    exception, and with the world it leaves behind. *)
Definition M (W A : Type) : Type := W -> outcome A * W.

Definition ret {W A} (a : A) : M W A := fun w => (Ok a, w).

Definition raise {W A} (e : exn) : M W A := fun w => (Raise e, w).

Definition bind {W A B} (m : M W A) (k : A -> M W B) : M W B :=
  fun w =>
    match m w with
    | (Ok a, w') => k a w'
    | (Raise e, w') => (Raise e, w')
    end.

(** The answer of an external call becomes the outcome of the computation. *)
Definition lift {W A} (o : outcome A) : M W A := fun w => (o, w).

Definition gets {W A} (f : W -> A) : M W A := fun w => (Ok (f w), w).

Definition modify {W} (f : W -> W) : M W unit := fun w => (Ok tt, f w).

(** [try: m  except Exception as e: h e]: an exception that is not an
    [Exception] goes on. *)
Definition try_except {W A} (m : M W A) (h : exn -> M W A) : M W A :=
  fun w =>
    match m w with
    | (Ok a, w') => (Ok a, w')
    | (Raise e, w') => if is_Exception e then h e w' else (Raise e, w')
    end.

(** [try: m  except: h]: the bare clause catches every exception. *)
Definition try_except_all {W A} (m : M W A) (h : M W A) : M W A :=
  fun w =>
    match m w with
    | (Ok a, w') => (Ok a, w')
    | (Raise _, w') => h w'
    end.

(** [try: m  except C as e: h e] for the exception classes [C] that [catches]
    recognises; any other exception goes on. *)
Definition try_except_if {W A} (catches : exn -> bool) (m : M W A)
    (h : exn -> M W A) : M W A :=
  fun w =>
    match m w with
    | (Ok a, w') => (Ok a, w')
    | (Raise e, w') => if catches e then h e w' else (Raise e, w')
    end.

(** [OSError] and the subclasses of it that file operations raise. *)
Definition is_OSError (e : exn) : bool :=
  match e with
  | Exception cls _ =>
      Py.str_in_list cls
        [ "OSError"; "FileNotFoundError"; "PermissionError";
          "IsADirectoryError"; "FileExistsError" ]
  | HTTPError _ _ _ => false
  | BaseException _ _ => false
  end.

(** [try: m  finally: f]: [f] runs on every way out of [m]; an exception of
    [f] replaces the outcome of [m]. *)
Definition try_finally {W A} (m : M W A) (f : M W unit) : M W A :=
  fun w =>
    match m w with
    | (o, w') =>
        match f w' with
        | (Ok _, w'') => (o, w'')
        | (Raise e, w'') => (Raise e, w'')
        end
    end.

(** How a block of statements ends: it falls through to the next statement
    or it executes a [return]. *)
Inductive completion (R : Type) : Type :=
| Normal
| Return (r : R).
Arguments Normal {R}.
Arguments Return {R} r.

(** [s1; s2] for statements of a function that returns an [R]. *)
Definition seq {W R} (s1 s2 : M W (completion R)) : M W (completion R) :=
  bind s1 (fun c => match c with
                    | Normal => s2
                    | Return r => ret (Return r)
                    end).

End Eff.

Declare Scope eff_scope.
Delimit Scope eff_scope with eff.
Notation "x <- m ;; k" := (Eff.bind m (fun x => k))
  (at level 100, m at next level, right associativity) : eff_scope.
Notation "' p <- m ;; k" := (Eff.bind m (fun x => let p := x in k))
  (at level 100, p pattern, m at next level, right associativity) : eff_scope.
Notation "m ;; k" := (Eff.bind m (fun _ => k))
  (at level 100, right associativity) : eff_scope.

(** ** [VoiceToImageService] ([src/services/voice_to_image.py]) *)
Module VoiceToImageService.
Import Py Eff.
Local Open Scope eff_scope.

(** An uploaded audio file (Streamlit's [UploadedFile]). Its buffer is kept
    by its length, the only thing the code looks at; the bytes themselves
    reach the external decoders alone. *)
Record upload : Type := {
  name : string;
  type : string;
  size : Z
}.

(** A named temporary file. *)
Record path : Type := {
  tmp_id : nat;
  tmp_suffix : string
}.

Definition path_eqb (p q : path) : bool :=
  Nat.eqb (tmp_id p) (tmp_id q) && String.eqb (tmp_suffix p) (tmp_suffix q).

Definition path_str (p : path) : string :=
  "/tmp/tmp" ++ str_of_Z (Z.of_nat (tmp_id p)) ++ tmp_suffix p.

(** A loaded Whisper model: what was fetched and where it lives. *)
Record model_handle : Type := {
  model_name : string;
  model_device : string
}.

(** The fields of the service object. *)
Record service : Type := {
  model : option model_handle;
  processor : option string;
  model_loaded : bool;
  device : string
}.

Inductive level : Type := Spinner | Info | Success | Warning | Error.

(** What the service, and the page that holds it, do to the outside, in the
    order they do it. *)
Inductive event : Type :=
| St (l : level) (text : string)
| GenerateHdImage (prompt : string) (api_key : string)
| ProcessorFromPretrained (model_name : string)
| ModelFromPretrained (model_name : string)
| ModelTo (device : string)
| TmpCreate (p : path)
| TmpWrite (p : path) (nbytes : Z)
| Unlink (p : path)
| SfRead (p : path)
| SfWrite (p : path)
| LibrosaLoad (p : path)
| LibrosaResample (orig_sr target_sr : Z)
| ProcessorCall (sampling_rate : Z)
| Generate (language : option string)
| BatchDecode
| TranscribeFile (p : path) (language : option string) (verbose : bool)
| TranscribeArray (language : option string).

Record world : Type := {
  fs : list path;          (* the temporary files on disk *)
  next_tmp : nat;          (* source of fresh temporary names *)
  trace : list event;      (* oldest first *)
  self : service
}.

Definition set_fs (f : list path -> list path) (w : world) : world :=
  {| fs := f (fs w); next_tmp := next_tmp w; trace := trace w; self := self w |}.
Definition set_next_tmp (n : nat) (w : world) : world :=
  {| fs := fs w; next_tmp := n; trace := trace w; self := self w |}.
Definition set_trace (f : list event -> list event) (w : world) : world :=
  {| fs := fs w; next_tmp := next_tmp w; trace := f (trace w); self := self w |}.
Definition set_self (f : service -> service) (w : world) : world :=
  {| fs := fs w; next_tmp := next_tmp w; trace := trace w; self := f (self w) |}.

Definition set_model (m : option model_handle) (s : service) : service :=
  {| model := m; processor := processor s;
     model_loaded := model_loaded s; device := device s |}.
Definition set_processor (p : option string) (s : service) : service :=
  {| model := model s; processor := p;
     model_loaded := model_loaded s; device := device s |}.
Definition set_model_loaded (b : bool) (s : service) : service :=
  {| model := model s; processor := processor s;
     model_loaded := b; device := device s |}.

Definition log (e : event) : M world unit :=
  modify (set_trace (fun t => (t ++ [e])%list)).

Definition st (l : level) (text : string) : M world unit := log (St l text).

Section WithSamples.

(** The type of one audio sample (a float in the program). *)
Context {sample : Type}.

(** A NumPy array of samples: one-dimensional, or two-dimensional with
    [channels] columns, one row per frame. *)
Inductive ndarray : Type :=
| Arr1 (xs : list sample)
| Arr2 (channels : nat) (rows : list (list sample)).

(** [a.shape] *)
Definition shape (a : ndarray) : list nat :=
  match a with
  | Arr1 xs => [List.length xs]
  | Arr2 channels rows => [List.length rows; channels]
  end.

(** Decoded audio: the samples and the rate at which they are sampled. *)
Record signal : Type := {
  samples : ndarray;
  rate : Z
}.

(** The libraries and the machine the service runs on. Every field is the
    answer of one external call, which may be an exception. *)
Record env : Type := {
  cuda_is_available : bool;
  processor_from_pretrained : string -> outcome unit;
  model_from_pretrained : string -> outcome unit;
  model_to : model_handle -> string -> outcome unit;
  tmp_create : string -> outcome unit;
  tmp_write : path -> upload -> outcome unit;
  os_unlink : path -> outcome unit;
  os_getsize : path -> outcome Z;
  sf_read : path -> upload -> outcome (ndarray * Z);
  np_mean : list sample -> sample;
  resample_1d : list sample -> Z -> Z -> outcome (list sample);
  resample_2d : nat -> list (list sample) -> Z -> Z -> outcome ndarray;
  processor_call : ndarray -> Z -> outcome nat;
  model_generate : model_handle -> nat -> option string -> outcome nat;
  batch_decode : nat -> outcome (list string);
  librosa_load : path -> upload -> Z -> outcome (list sample * Z);
  sf_write : path -> list sample -> Z -> outcome unit;
  model_transcribe_file :
    model_handle -> path -> option string -> bool -> outcome pyval;
  model_transcribe_array :
    model_handle -> list sample -> option string -> outcome pyval
}.

Variable E : env.

(** [VoiceToImageService.__init__] *)
Definition init : service :=
  {| model := None; processor := None; model_loaded := false;
     device := if cuda_is_available E then "cuda:0" else "cpu" |}.

Definition is_none {A} (o : option A) : bool :=
  match o with None => true | Some _ => false end.

(** [load_model(model_size)] *)
Definition load_model (model_size : string) : M world bool :=
  try_except
    (s <- gets self ;;
     if negb (model_loaded s) || is_none (model s) then
       st Spinner ("Loading Whisper " ++ model_size ++
                   " model... This may take a few minutes on first run.") ;;
       let model_name := "openai/whisper-" ++ model_size in
       log (ProcessorFromPretrained model_name) ;;
       lift (processor_from_pretrained E model_name) ;;
       modify (set_self (set_processor (Some model_name))) ;;
       log (ModelFromPretrained model_name) ;;
       lift (model_from_pretrained E model_name) ;;
       let fetched := {| model_name := model_name; model_device := "cpu" |} in
       modify (set_self (set_model (Some fetched))) ;;
       dev <- gets (fun w => device (self w)) ;;
       log (ModelTo dev) ;;
       lift (model_to E fetched dev) ;;
       modify (set_self (set_model
         (Some {| model_name := model_name; model_device := dev |}))) ;;
       modify (set_self (set_model_loaded true)) ;;
       st Success ("Whisper " ++ model_size ++ " model loaded successfully!") ;;
       ret true
     else ret true)
    (fun e =>
       st Error ("Error loading Whisper model: " ++ exn_str e) ;;
       ret false).

(** *** Temporary files *)

(** [tempfile.NamedTemporaryFile(suffix=suffix, delete=False)]: the file is
    on disk as soon as the call returns. *)
Definition named_temporary_file (suffix : string) : M world path :=
  lift (tmp_create E suffix) ;;
  n <- gets next_tmp ;;
  let p := {| tmp_id := n; tmp_suffix := suffix |} in
  modify (set_next_tmp (S n)) ;;
  modify (set_fs (fun l => p :: l)) ;;
  log (TmpCreate p) ;;
  ret p.

(** [os.path.exists(p)] *)
Definition exists_ (p : path) : M world bool :=
  gets (fun w => existsb (path_eqb p) (fs w)).

(** [os.unlink(p)] *)
Definition unlink (p : path) : M world unit :=
  log (Unlink p) ;;
  present <- exists_ p ;;
  if present then
    lift (os_unlink E p) ;;
    modify (set_fs (filter (fun q => negb (path_eqb p q))))
  else raise (Exception "FileNotFoundError" ("No such file: " ++ path_str p)).

(** *** Normalisation of the decoded audio (lines 68-74) *)

(** [np.mean(audio_data, axis=1)] *)
Definition np_mean_axis1 (a : ndarray) : ndarray :=
  match a with
  | Arr1 xs => Arr1 xs
  | Arr2 _ rows => Arr1 (map (np_mean E) rows)
  end.

(** [if len(audio_data.shape) > 1 and audio_data.shape[1] > 1:
       audio_data = np.mean(audio_data, axis=1)] *)
Definition to_mono (audio_data : signal) : signal :=
  if Nat.ltb 1 (List.length (shape (samples audio_data))) &&
     Nat.ltb 1 (nth 1 (shape (samples audio_data)) 0)
  then {| samples := np_mean_axis1 (samples audio_data);
          rate := rate audio_data |}
  else audio_data.

(** [librosa.resample(y, orig_sr=orig_sr, target_sr=target_sr)]: [y] is read
    as sampled at [orig_sr] and the result holds [target_sr / orig_sr] times
    as many samples per second as [y] does. *)
Definition librosa_resample (y : signal) (orig_sr target_sr : Z)
  : M world signal :=
  log (LibrosaResample orig_sr target_sr) ;;
  r <- lift (match samples y with
             | Arr1 xs =>
                 match resample_1d E xs orig_sr target_sr with
                 | Ok ys => Ok (Arr1 ys)
                 | Raise e => Raise e
                 end
             | Arr2 c rows => resample_2d E c rows orig_sr target_sr
             end) ;;
  ret {| samples := r; rate := (rate y * target_sr / orig_sr)%Z |}.

(** [if sample_rate != 16000: audio_data = librosa.resample(...)] *)
Definition resample_to_16k (audio_data : signal) (sample_rate : Z)
  : M world signal :=
  if negb (sample_rate =? 16000)%Z
  then librosa_resample audio_data sample_rate 16000
  else ret audio_data.

Definition normalize (audio_data : signal) (sample_rate : Z) : M world signal :=
  resample_to_16k (to_mono audio_data) sample_rate.

(** *** [transcribe_audio], lines 54-114 *)

Definition result : Type := (string * dict)%type.

(** [language or "auto-detected"] and [if language:]: [None] and the empty
    string count as no language. *)
Definition language_given (language : option string) : bool :=
  match language with
  | Some l => str_truthy l
  | None => false
  end.

Definition language_or (language : option string) (default : string) : string :=
  match language with
  | Some l => if str_truthy l then l else default
  | None => default
  end.

(** Lines 54-56. *)
Definition ensure_model : M world (completion result) :=
  s <- gets self ;;
  if negb (model_loaded s) then
    ok <- load_model "base" ;;
    if negb ok
    then ret (Return ("", [("error", VStr "Failed to load Whisper model")]))
    else ret Normal
  else ret Normal.

(** Lines 60-62: the upload is copied into a temporary file that outlives
    the [with] block. *)
Definition save_upload (audio_file : upload) : M world path :=
  tmp_file <- named_temporary_file (snd (splitext (name audio_file))) ;;
  log (TmpWrite tmp_file (size audio_file)) ;;
  lift (tmp_write E tmp_file audio_file) ;;
  let tmp_path := tmp_file in
  ret tmp_path.

(** Lines 76-104: the normalised samples go through the processor and the
    model, and the tokens are decoded. *)
Definition feed_model (audio_data : signal) (language : option string)
  : M world result :=
  s <- gets self ;;
  input_features <-
    match processor s with
    | Some _ =>
        log (ProcessorCall 16000) ;;
        lift (processor_call E (samples audio_data) 16000)
    | None =>
        raise (Exception "TypeError" "'NoneType' object is not callable")
    end ;;
  let generate_kwargs :=
    if language_given language then language else None in
  predicted_ids <-
    match model s with
    | Some m =>
        log (Generate generate_kwargs) ;;
        lift (model_generate E m input_features generate_kwargs)
    | None =>
        raise (Exception "AttributeError"
                 "'NoneType' object has no attribute 'generate'")
    end ;;
  log BatchDecode ;;
  texts <- lift (batch_decode E predicted_ids) ;;
  transcription <-
    match texts with
    | t :: _ => ret t
    | [] => raise (Exception "IndexError" "list index out of range")
    end ;;
  ret (transcription,
       [ ("language", VStr (language_or language "auto-detected"));
         ("model", VStr "openai/whisper");
         ("device", VStr (device s)) ]).

(** Lines 66-104: decode, normalise, run the model. *)
Definition run_model (audio_file : upload) (tmp_path : path)
    (language : option string) : M world result :=
  log (SfRead tmp_path) ;;
  ' (audio_data, sample_rate) <- lift (sf_read E tmp_path audio_file) ;;
  audio_data <-
    normalize {| samples := audio_data; rate := sample_rate |} sample_rate ;;
  feed_model audio_data language.

(** Lines 106-111: [try: os.unlink(tmp_path)  except: pass]. *)
Definition cleanup (tmp_path : path) : M world unit :=
  try_except_all (unlink tmp_path) (ret tt).

(** Lines 59-111, the body of the first [try] statement. *)
Definition hf_attempt (audio_file : upload) (language : option string)
  : M world (completion result) :=
  tmp_path <- save_upload audio_file ;;
  try_finally
    (r <- run_model audio_file tmp_path language ;; ret (Return r))
    (cleanup tmp_path).

(** Lines 58-114, the first [try] statement of the function. *)
Definition transcribe_hf (audio_file : upload) (language : option string)
  : M world (completion result) :=
  try_except
    (hf_attempt audio_file language)
    (fun e =>
       ret (Return
         ("", [("error", VStr ("Error during transcription: " ++ exn_str e))]))).

(** *** [transcribe_audio], lines 116-231: the multi-method transcription *)

(** The local variables the [finally] clause of line 224 reads back. *)
Record frame : Type := {
  fworld : world;
  original_tmp_path : option path;
  tmp_file_path : option path
}.

Definition in_world {A} (m : M world A) : M frame A :=
  fun f =>
    match m (fworld f) with
    | (o, w') =>
        (o, {| fworld := w'; original_tmp_path := original_tmp_path f;
               tmp_file_path := tmp_file_path f |})
    end.

Definition set_original_tmp_path (p : option path) : M frame unit :=
  modify (fun f => {| fworld := fworld f; original_tmp_path := p;
                      tmp_file_path := tmp_file_path f |}).

Definition set_tmp_file_path (p : option path) : M frame unit :=
  modify (fun f => {| fworld := fworld f;
                      original_tmp_path := original_tmp_path f;
                      tmp_file_path := p |}).

(** Runs a block with its own local variables; [tmp_file_path = None] is
    line 116. *)
Definition with_frame {A} (m : M frame A) : M world A :=
  fun w =>
    match m {| fworld := w; original_tmp_path := None;
               tmp_file_path := None |} with
    | (o, f) => (o, fworld f)
    end.

Definition model_or_raise : M world model_handle :=
  s <- gets self ;;
  match model s with
  | Some m => ret m
  | None => raise (Exception "AttributeError"
                     "'NoneType' object has no attribute 'transcribe'")
  end.

(** [self.model.transcribe(tmp_file_path, ..., fp16=False[, verbose=True])] *)
Definition transcribe_file (p : path) (language : option string)
    (verbose : bool) : M world pyval :=
  m <- model_or_raise ;;
  let lang := if language_given language then language else None in
  log (TranscribeFile p lang verbose) ;;
  lift (model_transcribe_file E m p lang verbose).

(** [self.model.transcribe(audio_array, ..., fp16=False)] *)
Definition transcribe_array (audio_array : list sample)
    (language : option string) : M world pyval :=
  m <- model_or_raise ;;
  let lang := if language_given language then language else None in
  log (TranscribeArray lang) ;;
  lift (model_transcribe_array E m audio_array lang).

Definition is_VNone (v : pyval) : bool :=
  match v with VNone => true | _ => false end.

(** Lines 183-192, method 2. [result] is [None] when the step is entered. *)
Definition attempt_array (audio_array : option (list sample))
    (language : option string) : M world pyval :=
  match audio_array with
  | Some a =>
      try_except
        (st Info "Attempting transcription with audio array..." ;;
         result <- transcribe_array a language ;;
         st Success "Array-based transcription successful!" ;;
         ret result)
        (fun array_error =>
           st Warning ("Array-based transcription failed: " ++
                       exn_str array_error) ;;
           ret VNone)
  | None => ret VNone
  end.

(** Lines 195-210, method 3. *)
Definition attempt_cpu (tmp_file_path : path) (language : option string)
  : M world pyval :=
  try_except
    (st Info "Attempting transcription with CPU-only mode..." ;;
     (if cuda_is_available E then
        let device := "cpu" in
        m <- model_or_raise ;;
        log (ModelTo device) ;;
        lift (model_to E m device) ;;
        modify (set_self (set_model
          (Some {| model_name := model_name m; model_device := device |})))
      else ret tt) ;;
     result <- transcribe_file tmp_file_path language true ;;
     st Success "Verbose mode transcription successful!" ;;
     ret result)
    (fun final_error =>
       st Error ("All transcription methods failed. Final error: " ++
                 exn_str final_error) ;;
       raise final_error).

(** Lines 169-210: the value of [result] when the statement is left. *)
Definition multi_method (tmp_file_path : path)
    (audio_array : option (list sample)) (language : option string)
  : M world pyval :=
  try_except
    (st Info "Attempting transcription with preprocessed file..." ;;
     result <- transcribe_file tmp_file_path language false ;;
     st Success "File-based transcription successful!" ;;
     ret result)
    (fun file_error =>
       st Warning ("File-based transcription failed: " ++
                   exn_str file_error) ;;
       result <- attempt_array audio_array language ;;
       if is_VNone result
       then attempt_cpu tmp_file_path language
       else ret result).

(** Lines 146-167: the audio array of the preprocessed file, or [None]. *)
Definition preprocess (audio_file : upload) (original : path)
  : M frame (option (list sample)) :=
  try_except
    (in_world (st Info "Preprocessing audio with librosa...") ;;
     ' (audio_array, sample_rate) <-
       in_world (log (LibrosaLoad original) ;;
                 lift (librosa_load E original audio_file 16000)) ;;
     processed_tmp_file <- in_world (named_temporary_file ".wav") ;;
     set_tmp_file_path (Some processed_tmp_file) ;;
     in_world (log (SfWrite processed_tmp_file) ;;
               lift (sf_write E processed_tmp_file audio_array sample_rate)) ;;
     in_world (st Info ("Preprocessed temp file path: " ++
                        path_str processed_tmp_file)) ;;
     sz <- in_world (lift (os_getsize E processed_tmp_file)) ;;
     in_world (st Info ("Preprocessed temp file size: " ++ str_of_Z sz ++
                        " bytes")) ;;
     in_world (st Info ("Audio array shape: (" ++
                        str_of_Z (Z.of_nat (List.length audio_array)) ++
                        ",), Sample rate: " ++ str_of_Z sample_rate)) ;;
     ret (Some audio_array))
    (fun preprocess_error =>
       in_world (st Warning ("Audio preprocessing failed: " ++
                             exn_str preprocess_error)) ;;
       set_tmp_file_path (Some original) ;;
       ret None).

(** [result["text"].strip()] *)
Definition text_of (result : pyval) : outcome string :=
  match result with
  | VDict d =>
      match get "text" d with
      | Some (VStr s) => Ok (strip s)
      | Some _ => Raise (Exception "AttributeError"
                           "object has no attribute 'strip'")
      | None => Raise (Exception "KeyError" "'text'")
      end
  | VStr _ => Raise (Exception "TypeError"
                       "string indices must be integers")
  | VList _ => Raise (Exception "TypeError"
                        "list indices must be integers or slices, not str")
  | _ => Raise (Exception "TypeError" "object is not subscriptable")
  end.

(** Lines 213-217; reached only with a dictionary in [result]. *)
Definition info_of (result : pyval) : outcome dict :=
  match result with
  | VDict d =>
      Ok [ ("language", get_default "language" (VStr "unknown") d);
           ("confidence", get_default "avg_logprob" (VInt 0) d);
           ("duration", get_default "duration" (VInt 0) d) ]
  | _ => Raise (Exception "AttributeError" "object has no attribute 'get'")
  end.

(** Lines 118-219, the body of the second [try]. *)
Definition multi_method_body (audio_file : upload) (language : option string)
  : M frame (completion result) :=
  in_world (st Spinner "Transcribing audio...") ;;
  in_world (st Info ("Audio file name: " ++ name audio_file)) ;;
  in_world (st Info ("Audio file type: " ++ type audio_file)) ;;
  tmp_file <- in_world (named_temporary_file ".wav") ;;
  in_world (st Info ("Audio data size: " ++ str_of_Z (size audio_file) ++
                     " bytes")) ;;
  in_world (log (TmpWrite tmp_file (size audio_file)) ;;
            lift (tmp_write E tmp_file audio_file)) ;;
  set_original_tmp_path (Some tmp_file) ;;
  let original := tmp_file in
  in_world (st Info ("Original temp file path: " ++ path_str original)) ;;
  present <- in_world (exists_ original) ;;
  (if negb present
   then raise (Exception "FileNotFoundError"
                 ("Temporary file was not created: " ++ path_str original))
   else ret tt) ;;
  file_size <- in_world (lift (os_getsize E original)) ;;
  in_world (st Info ("Original temp file size: " ++ str_of_Z file_size ++
                     " bytes")) ;;
  (if (file_size =? 0)%Z
   then raise (Exception "ValueError" "Temporary file is empty")
   else ret tt) ;;
  audio_array <- preprocess audio_file original ;;
  tmp <- gets tmp_file_path ;;
  res <-
    match tmp with
    | Some p => in_world (multi_method p audio_array language)
    | None => raise (Exception "TypeError" "expected a path, not NoneType")
    end ;;
  transcribed_text <- lift (text_of res) ;;
  transcription_info <- lift (info_of res) ;;
  ret (Return (transcribed_text, transcription_info)).

(** Lines 226-231, one round of the loop of the [finally] clause. *)
Definition remove_if_present (temp_path : option path) : M world unit :=
  match temp_path with
  | Some p =>
      present <- exists_ p ;;
      if present
      then try_except_if is_OSError (unlink p) (fun _ => ret tt)
      else ret tt
  | None => ret tt
  end.

Definition cleanup_locals : M frame unit :=
  o <- gets original_tmp_path ;;
  t <- gets tmp_file_path ;;
  in_world (remove_if_present o) ;;
  in_world (remove_if_present t).

(** Lines 117-223: the second [try] with its [except] clause. *)
Definition guarded_body (audio_file : upload) (language : option string)
  : M frame (completion result) :=
  try_except
    (multi_method_body audio_file language)
    (fun e =>
       in_world (st Error ("Error transcribing audio: " ++ exn_str e)) ;;
       ret (Return ("", []))).

(** Lines 116-231. *)
Definition transcribe_multi_method (audio_file : upload)
    (language : option string) : M world (completion result) :=
  with_frame (try_finally (guarded_body audio_file language) cleanup_locals).

(** [transcribe_audio(audio_file, language)]: the three statements of the
    body in sequence. [Normal] stands for falling off the end of the
    function, which would return [None]. *)
Definition transcribe_audio_then (rest : M world (completion result))
    (audio_file : upload) (language : option string)
  : M world (completion result) :=
  seq ensure_model (seq (transcribe_hf audio_file language) rest).

Definition transcribe_audio (audio_file : upload) (language : option string)
  : M world (completion result) :=
  transcribe_audio_then (transcribe_multi_method audio_file language)
    audio_file language.

(** *** [validate_audio_file] *)

Definition allowed_extensions : list string :=
  [ ".wav"; ".mp3"; ".m4a"; ".flac"; ".ogg" ].

Definition max_size : Z := 25 * 1024 * 1024.

(** [os.path.splitext(audio_file.name)[1].lower()] *)
Definition file_extension (audio_file : upload) : string :=
  lower (snd (splitext (name audio_file))).

Definition validate_audio_file (audio_file : option upload) : M world bool :=
  match audio_file with
  | None => ret false
  | Some f =>
      let file_size := size f in
      if (max_size <? file_size)%Z then
        st Error
          "Audio file too large. Please upload a file smaller than 25MB." ;;
        ret false
      else if negb (str_in_list (file_extension f) allowed_extensions) then
        st Error ("Unsupported audio format. Please upload: " ++
                  String.concat ", " allowed_extensions) ;;
        ret false
      else ret true
  end.

End WithSamples.

Arguments ndarray : clear implicits.
Arguments signal : clear implicits.
Arguments env : clear implicits.

End VoiceToImageService.

(** ** [SpeechToTextService] ([src/services/speech_to_text.py]) *)
Module SpeechToTextService.
Import Py Eff.
Local Open Scope eff_scope.

Inductive event : Type :=
| Print (text : string)
| OpenRead (audio_path : string)
| Transcribe (audio_path : string)
| Remove (audio_path : string).

Record world : Type := {
  fs : list string;        (* the files on disk, by path *)
  trace : list event       (* oldest first *)
}.

Record env : Type := {
  os_getsize : string -> Z;
  open_read : string -> outcome unit;
  model_transcribe : string -> outcome pyval;
  os_remove : string -> outcome unit
}.

Definition log (e : event) : M world unit :=
  modify (fun w => {| fs := fs w; trace := (trace w ++ [e])%list |}).

Definition print (text : string) : M world unit := log (Print text).

Definition exists_ (audio_path : string) : M world bool :=
  gets (fun w => str_in_list audio_path (fs w)).

Definition remove (E : env) (audio_path : string) : M world unit :=
  log (Remove audio_path) ;;
  lift (os_remove E audio_path) ;;
  modify (fun w =>
    {| fs := filter (fun q => negb (String.eqb audio_path q)) (fs w);
       trace := trace w |}).

(** [len(text) if text else 0] *)
Definition len_or_0 (text : pyval) : outcome Z :=
  if truthy text then
    match text with
    | VStr s => Ok (Z.of_nat (String.length s))
    | VList l => Ok (Z.of_nat (List.length l))
    | VDict d => Ok (Z.of_nat (List.length d))
    | _ => Raise (Exception "TypeError" "object has no len()")
    end
  else Ok 0%Z.

(** [result.get("text", None)] *)
Definition get_text (result : pyval) : outcome pyval :=
  match result with
  | VDict d => Ok (get_default "text" VNone d)
  | _ => Raise (Exception "AttributeError" "object has no attribute 'get'")
  end.

(** [SpeechToTextService.transcribe(audio_path)] *)
Definition transcribe (E : env) (audio_path : string) : M world pyval :=
  print ("[DEBUG] Checking if audio file exists: " ++ audio_path) ;;
  present <- exists_ audio_path ;;
  if negb present then
    raise (Exception "FileNotFoundError"
             ("Audio file not found at path: " ++ audio_path))
  else
    print ("[DEBUG] Audio file exists. Size: " ++
           str_of_Z (os_getsize E audio_path) ++ " bytes") ;;
    try_finally
      (try_except
         (log (OpenRead audio_path) ;;
          lift (open_read E audio_path) ;;
          print ("Starting transcription of file: " ++ audio_path) ;;
          log (Transcribe audio_path) ;;
          result <- lift (model_transcribe E audio_path) ;;
          text <- lift (get_text result) ;;
          n <- lift (len_or_0 text) ;;
          print ("Transcription completed. Text length: " ++ str_of_Z n) ;;
          ret text)
         (fun e =>
            print ("Error during transcription: " ++ exn_str e) ;;
            raise (Exception "Exception"
                     ("Error transcribing audio: " ++ exn_str e))))
      (try_except
         (present <- exists_ audio_path ;;
          if present then
            remove E audio_path ;;
            print ("Cleaned up temporary file: " ++ audio_path)
          else ret tt)
         (fun e =>
            print ("Warning: Could not clean up temporary file " ++
                   audio_path ++ ": " ++ exn_str e))).

End SpeechToTextService.

(** ** [remove_background] ([src/services/background_service.py]) *)
Module BackgroundService.
Import Py Eff.
Local Open Scope eff_scope.

(** What [requests.post] answers. [json] is [response.json()], taken to be
    a JSON object as the annotation [Dict[str, Any]] of the function says. *)
Record response : Type := {
  status_code : Z;
  reason : string;
  text : string;
  json : outcome dict
}.

Inductive event : Type :=
| Print (text : string) (value : pyval)
| Post (url : string) (headers : dict) (data : dict).

Record env : Type := {
  requests_post : string -> dict -> dict -> outcome response;
  b64encode : string -> string
}.

Definition world : Type := list event.

Definition log (e : event) : M world unit :=
  modify (fun t => (t ++ [e])%list).

Definition post (E : env) (url : string) (headers data : dict)
  : M world response :=
  log (Post url headers data) ;;
  lift (requests_post E url headers data).

(** [response.raise_for_status()] *)
Definition raise_for_status (url : string) (r : response) : M world unit :=
  if ((400 <=? status_code r) && (status_code r <? 500))%Z then
    raise (HTTPError (status_code r)
             (str_of_Z (status_code r) ++ " Client Error: " ++ reason r ++
              " for url: " ++ url)
             (text r))
  else if ((500 <=? status_code r) && (status_code r <? 600))%Z then
    raise (HTTPError (status_code r)
             (str_of_Z (status_code r) ++ " Server Error: " ++ reason r ++
              " for url: " ++ url)
             (text r))
  else ret tt.

(** [bool(e.response)] is [response.ok]: false for the status codes that
    [raise_for_status] raises on. *)
Definition response_ok (status : Z) : bool :=
  negb ((400 <=? status) && (status <? 600))%Z.

Definition opt_truthy (o : option string) : bool :=
  match o with
  | Some s => str_truthy s
  | None => false
  end.

(** Lines 59-67 and 113-120: the answer is brought to the [result_url]
    shape. *)
Definition normalise_result (unexpected : pyval -> M world unit)
    (result : dict) : M world dict :=
  if has_key "result_url" result then ret result
  else
    match get "urls" result with
    | Some (VList (u :: _)) => ret [("result_url", u)]
    | _ =>
        match get "url" result with
        | Some u => ret [("result_url", u)]
        | None => unexpected (VDict result) ;; ret result
        end
    end.

Definition headers_of (api_key : string) : dict :=
  [ ("api_token", VStr api_key);
    ("Accept", VStr "application/json");
    ("Content-Type", VStr "application/json") ].

(** [remove_background_fallback] *)
Definition remove_background_fallback (E : env) (api_key : string)
    (image_data image_url : option string) (content_moderation : bool)
  : M world dict :=
  let url := "https://engine.prod.bria-api.com/v1/erase_background" in
  let headers := headers_of api_key in
  let data := [("content_moderation", VBool content_moderation)] in
  let data :=
    if opt_truthy image_url then
      (data ++ [("image_url",
                 VStr (match image_url with Some u => u | None => "" end))])%list
    else if opt_truthy image_data then
      (data ++ [("file",
                 VStr (b64encode E
                   (match image_data with Some d => d | None => "" end)))])%list
    else data in
  try_except
    (log (Print "Trying fallback endpoint: " (VStr url)) ;;
     response <- post E url headers data ;;
     raise_for_status url response ;;
     result <- lift (json response) ;;
     normalise_result (fun _ => ret tt) result)
    (fun e =>
       raise (Exception "Exception"
                ("Background removal fallback failed: " ++ exn_str e))).

(** Lines 32-43: the request body, or the [ValueError] of the guard. *)
Definition request_data (E : env) (image_data image_url : option string)
    (content_moderation : bool) : M world dict :=
  let data := [("content_moderation", VBool content_moderation)] in
  if opt_truthy image_url then
    ret (data ++ [("image_url",
                   VStr (match image_url with Some u => u | None => "" end))])%list
  else if opt_truthy image_data then
    ret (data ++ [("file",
                   VStr (b64encode E
                     (match image_data with Some d => d | None => "" end)))])%list
  else
    raise (Exception "ValueError"
             "Either image_data or image_url must be provided").

(** Lines 51-67: what is done with the answer of the endpoint. *)
Definition handle_response (url : string) (response : response)
  : M world dict :=
  raise_for_status url response ;;
  log (Print "Response status: " (VInt (status_code response))) ;;
  log (Print "Response body: " (VStr (text response))) ;;
  result <- lift (json response) ;;
  normalise_result
    (fun r => log (Print "Unexpected response format: " r)) result.

(** Lines 69-76: the two [except] clauses; an exception that neither of
    them names goes on. *)
Definition on_error (E : env) (api_key : string)
    (image_data image_url : option string) (content_moderation : bool)
    (e : exn) : M world dict :=
  match e with
  | HTTPError status msg body =>
      if (status =? 404)%Z then
        remove_background_fallback E api_key image_data image_url
          content_moderation
      else
        raise (Exception "Exception"
                 ("Background removal failed: " ++ msg ++ " - " ++
                  (if response_ok status then body else "")))
  | Exception _ msg =>
      raise (Exception "Exception" ("Background removal failed: " ++ msg))
  | BaseException _ _ => raise e
  end.

Definition endpoint : string :=
  "https://engine.prod.bria-api.com/v1/background/remove".

(** [remove_background] *)
Definition remove_background (E : env) (api_key : string)
    (image_data image_url : option string) (content_moderation : bool)
  : M world dict :=
  let url := endpoint in
  let headers := headers_of api_key in
  data <- request_data E image_data image_url content_moderation ;;
  try_except
    (log (Print "Making background removal request to: " (VStr url)) ;;
     log (Print "Headers: " (VDict headers)) ;;
     log (Print "Data keys: " (VList (map (fun kv => VStr (fst kv)) data))) ;;
     response <- post E url headers data ;;
     handle_response url response)
    (on_error E api_key image_data image_url content_moderation).

End BackgroundService.

(** ** The voice-to-image page ([src/components/voice_to_image.py]) *)
Module Component.
Import Py Eff.
Module V := VoiceToImageService.
Local Open Scope eff_scope.

(** The entries of [st.session_state] the page uses. An entry that may be
    missing is an option. *)
Record session : Type := {
  voice_original_prompt : string;
  voice_enhanced_prompt : string;
  voice_transcription_info : dict;
  voice_audio_uploaded : bool;
  original_prompt : option string;
  enhanced_prompt : option string;
  api_key : option string;
  generated_images : option (list pyval)
}.

Record world : Type := {
  app : V.world;           (* the service in [st.session_state.voice_service] *)
  state : session
}.

Definition in_app {A} (m : M V.world A) : M world A :=
  fun w =>
    match m (app w) with
    | (o, a') => (o, {| app := a'; state := state w |})
    end.

Definition set_state (f : session -> session) : M world unit :=
  modify (fun w => {| app := app w; state := f (state w) |}).

Definition st (l : V.level) (text : string) : M world unit :=
  in_app (V.st l text).

(** [str(v)] inside an f-string; the text of a string is not escaped. *)
Fixpoint py_str (quote : bool) (v : pyval) : string :=
  match v with
  | VNone => "None"
  | VBool b => if b then "True" else "False"
  | VInt z => str_of_Z z
  | VStr s => if quote then "'" ++ s ++ "'" else s
  | VList l => "[" ++ String.concat ", " (map (py_str true) l) ++ "]"
  | VDict d =>
      "{" ++ String.concat ", "
               (map (fun kv => "'" ++ fst kv ++ "': " ++ py_str true (snd kv)) d)
          ++ "}"
  end.

(** [st.rerun()] leaves the script by an exception of its own, which is not
    an [Exception]. *)
Definition rerun {A} : M world A :=
  raise (BaseException "RerunException" "").

Section Page.

Variable sample : Type.
Variable E : V.env sample.

(** The image API of [src/services/hd_image_generation.py] (not part of the
    sources at hand), the environment variable [BRIA_API_KEY] and the
    clock. *)
Variable generate_hd_image : string -> string -> outcome pyval.
Variable getenv_BRIA_API_KEY : option string.
Variable time_time : Z.

(** Lines 70-102: the upload column once the widgets have their values.
    [clicked] is what [st.button("Transcribe Audio")] returns. *)
Definition on_transcribe (uploaded_audio : option V.upload) (clicked : bool)
    (model_size : string) (selected_language : option string)
  : M world unit :=
  match uploaded_audio with
  | Some audio =>
      if clicked then
        valid <- in_app (V.validate_audio_file (Some audio)) ;;
        if valid then
          loaded <- in_app (V.load_model E model_size) ;;
          if loaded then
            c <- in_app (V.transcribe_audio E audio selected_language) ;;
            ' (transcribed_text, transcription_info) <-
              match c with
              | Return r => ret r
              | Normal => raise (Exception "TypeError"
                            "cannot unpack non-iterable NoneType object")
              end ;;
            if str_truthy transcribed_text then
              enhanced <- ret (Prompt.enhance_voice_prompt transcribed_text) ;;
              set_state (fun s =>
                {| voice_original_prompt := transcribed_text;
                   voice_enhanced_prompt := enhanced;
                   voice_transcription_info := transcription_info;
                   voice_audio_uploaded := true;
                   original_prompt := Some transcribed_text;
                   enhanced_prompt := Some enhanced;
                   api_key := api_key s;
                   generated_images := generated_images s |}) ;;
              st V.Success "✅ Audio transcribed successfully!" ;;
              st V.Info ("**Language detected:** " ++
                py_str false (get_default "language" (VStr "auto-detected")
                                transcription_info)) ;;
              st V.Info ("**Model:** " ++
                py_str false (get_default "model" (VStr "Whisper")
                                transcription_info)) ;;
              st V.Info ("**Device:** " ++
                py_str false (get_default "device" (VStr "CPU")
                                transcription_info)) ;;
              rerun
            else st V.Error "❌ Failed to transcribe audio. Please try again."
          else st V.Error "❌ Failed to load Whisper model. Please try again."
        else
          st V.Error
            "❌ Invalid audio file. Please check the file format and size."
      else ret tt
  | None => ret tt
  end.

(** [v[0]] for a value that is true. *)
Definition item0 (v : pyval) : outcome pyval :=
  match v with
  | VList (x :: _) => Ok x
  | VList [] => Raise (Exception "IndexError" "list index out of range")
  | VStr (String c _) => Ok (VStr (String c EmptyString))
  | VStr EmptyString => Raise (Exception "IndexError" "string index out of range")
  | VDict _ => Raise (Exception "KeyError" "0")
  | _ => Raise (Exception "TypeError" "object is not subscriptable")
  end.

(** [if 'urls' in d and d['urls']: image_url = d['urls'][0]
     elif 'url' in d: image_url = d['url']] with [image_url = None] before. *)
Definition urls_then_url (d : dict) : outcome pyval :=
  match get "urls" d with
  | Some urls =>
      if truthy urls then item0 urls
      else match get "url" d with Some u => Ok u | None => Ok VNone end
  | None =>
      match get "url" d with Some u => Ok u | None => Ok VNone end
  end.

(** Lines 198-208: the [elif] branches that follow the test of ['result']. *)
Definition other_keys (result : dict) : outcome pyval :=
  if has_key "result_url" result then
    Ok (get_default "result_url" VNone result)
  else if has_key "url" result then
    Ok (get_default "url" VNone result)
  else
    match get "result_urls" result with
    | Some us => if truthy us then item0 us else Ok VNone
    | None => Ok VNone
    end.

(** Lines 177-208: the value of [image_url] after the probing of [result]. *)
Definition extract_image_url (result : pyval) : outcome pyval :=
  if truthy result then
    match result with
    | VDict result =>
        match get "result" result with
        | Some r =>
            if truthy r then
              match r with
              | VList (first_result :: _) =>
                  match first_result with
                  | VDict first_result => urls_then_url first_result
                  | _ => Ok VNone
                  end
              | VDict r => urls_then_url r
              | _ => Ok VNone
              end
            else other_keys result
        | None => other_keys result
        end
    | _ => Ok VNone
    end
  else Ok VNone.

(** [a or b] on strings, the second one possibly missing
    ([st.session_state.get(key, '')]). *)
Definition str_or (a : string) (b : option string) : string :=
  if str_truthy a then a
  else match b with Some s => s | None => "" end.

Definition opt_str_or (a b : option string) : option string :=
  match a with
  | Some s => if str_truthy s then Some s else b
  | None => b
  end.

(** What reading the local variable [name] raises when no assignment to it
    has run. The message is the one of CPython 3.11 and later (earlier
    versions word it "local variable ... referenced before assignment"). *)
Definition unbound_local (name : string) : exn :=
  Exception "UnboundLocalError"
    ("cannot access local variable '" ++ name ++
     "' where it is not associated with a value").

(** Lines 163-227: the generate button. [clicked] is what [st.button]
    returns. With no API key line 171 reports it and line 210 then reads
    [image_url], which only line 177 assigns. The call of line 174 is
    recorded in the trace before it is made. *)
Definition on_generate (clicked : bool) : M world unit :=
  s <- gets state ;;
  let current_enhanced_prompt :=
    str_or (voice_enhanced_prompt s) (enhanced_prompt s) in
  if clicked then
    if str_truthy current_enhanced_prompt then
      st V.Spinner "Generating image from your voice description..." ;;
      try_except
        (image_url <-
           match opt_str_or (api_key s) getenv_BRIA_API_KEY with
           | Some key =>
               if str_truthy key then
                 in_app (V.log (V.GenerateHdImage current_enhanced_prompt key)) ;;
                 result <- lift (generate_hd_image current_enhanced_prompt key) ;;
                 lift (extract_image_url result)
               else
                 st V.Error
                   "❌ API key not found. Please check your .env file or session state." ;;
                 raise (unbound_local "image_url")
           | None =>
               st V.Error
                 "❌ API key not found. Please check your .env file or session state." ;;
               raise (unbound_local "image_url")
           end ;;
         if truthy image_url then
           set_state (fun s =>
             {| voice_original_prompt := voice_original_prompt s;
                voice_enhanced_prompt := voice_enhanced_prompt s;
                voice_transcription_info := voice_transcription_info s;
                voice_audio_uploaded := voice_audio_uploaded s;
                original_prompt := original_prompt s;
                enhanced_prompt := enhanced_prompt s;
                api_key := api_key s;
                generated_images :=
                  Some ((match generated_images s with
                         | Some l => l
                         | None => []
                         end) ++
                        [VDict [ ("url", image_url);
                                 ("prompt", VStr current_enhanced_prompt);
                                 ("source", VStr "voice");
                                 ("timestamp", VInt time_time) ]])%list |}) ;;
           st V.Success "✅ Image generated successfully from your voice!"
         else
           st V.Error "❌ Failed to generate image. Please try again.")
        (fun e => st V.Error ("❌ Error generating image: " ++ exn_str e))
    else ret tt
  else ret tt.

End Page.

(** *** The extraction as the specification words it

    An ordered list of shape matchers, each of which either finds the URL
    of its shape in the payload or does not match; the first match wins. A
    URL is a string: an entry that holds anything else ([null], a number)
    is no match. *)

(** The value [v] where a shape has [...]. *)
Definition as_url (v : pyval) : option pyval :=
  match v with
  | VStr _ => Some v
  | _ => None
  end.

(** The first URL where a shape has [[...]]. *)
Definition first_url (v : pyval) : option pyval :=
  match v with
  | VList (VStr u :: _) => Some (VStr u)
  | _ => None
  end.

(** [{result: [{urls: [...]}]}] *)
Definition shape_result_urls (payload : dict) : option pyval :=
  match get "result" payload with
  | Some (VList (VDict first :: _)) =>
      match get "urls" first with
      | Some us => first_url us
      | None => None
      end
  | _ => None
  end.

(** [{result: [{url: ...}]}] *)
Definition shape_result_url_item (payload : dict) : option pyval :=
  match get "result" payload with
  | Some (VList (VDict first :: _)) =>
      match get "url" first with
      | Some u => as_url u
      | None => None
      end
  | _ => None
  end.

(** [{result_url: ...}] *)
Definition shape_result_url (payload : dict) : option pyval :=
  match get "result_url" payload with
  | Some u => as_url u
  | None => None
  end.

(** [{url: ...}] *)
Definition shape_url (payload : dict) : option pyval :=
  match get "url" payload with
  | Some u => as_url u
  | None => None
  end.

(** [{result_urls: [...]}] *)
Definition shape_result_urls_list (payload : dict) : option pyval :=
  match get "result_urls" payload with
  | Some us => first_url us
  | None => None
  end.

Definition shapes_in_priority_order : list (dict -> option pyval) :=
  [ shape_result_urls; shape_result_url_item; shape_result_url; shape_url;
    shape_result_urls_list ].

Fixpoint first_match (matchers : list (dict -> option pyval)) (payload : dict)
  : option pyval :=
  match matchers with
  | [] => None
  | m :: rest =>
      match m payload with
      | Some u => Some u
      | None => first_match rest payload
      end
  end.

(** The URL the specification's extraction yields, [None] when no shape
    matches. *)
Definition spec_extract (payload : dict) : option pyval :=
  first_match shapes_in_priority_order payload.

End Component.

(** ** Notions the properties are stated with *)
Module Notions.
Import Py Eff VoiceToImageService.

(** A model is resident: the test of line 30, negated. *)
Definition resident (s : service) : bool :=
  model_loaded s && negb (is_none (model s)).

(** The three external calls of a load answer without an exception. *)
Definition fetch_succeeds {sample} (E : env sample) (model_size dev : string)
  : bool :=
  let model_name := "openai/whisper-" ++ model_size in
  match processor_from_pretrained E model_name,
        model_from_pretrained E model_name,
        model_to E {| model_name := model_name; model_device := "cpu" |} dev
  with
  | Ok _, Ok _, Ok _ => true
  | _, _, _ => false
  end.

(** The load is cut short by an exception that is not an [Exception] (a
    [KeyboardInterrupt], say): the first of the three calls that raises
    raises one. *)
Definition fetch_interrupted {sample} (E : env sample)
    (model_size dev : string) : bool :=
  let model_name := "openai/whisper-" ++ model_size in
  match processor_from_pretrained E model_name with
  | Raise e => negb (is_Exception e)
  | Ok _ =>
      match model_from_pretrained E model_name with
      | Raise e => negb (is_Exception e)
      | Ok _ =>
          match model_to E {| model_name := model_name;
                              model_device := "cpu" |} dev with
          | Raise e => negb (is_Exception e)
          | Ok _ => false
          end
      end
  end.

(** The service once [openai/whisper-<model_size>] has been loaded. *)
Definition loaded (s : service) (model_size : string) : service :=
  {| model := Some {| model_name := "openai/whisper-" ++ model_size;
                      model_device := device s |};
     processor := Some ("openai/whisper-" ++ model_size);
     model_loaded := true;
     device := device s |}.

Definition load_events (model_size dev : string) : list event :=
  [ St Spinner ("Loading Whisper " ++ model_size ++
                " model... This may take a few minutes on first run.");
    ProcessorFromPretrained ("openai/whisper-" ++ model_size);
    ModelFromPretrained ("openai/whisper-" ++ model_size);
    ModelTo dev;
    St Success ("Whisper " ++ model_size ++ " model loaded successfully!") ].

(** A character map that neither produces nor destroys the character [p]. *)
Definition keeps (p : ascii) (f : ascii -> ascii) : Prop :=
  forall c, Ascii.eqb (f c) p = Ascii.eqb c p.

(** An upload the specification wants rejected: none at all, more than
    25 MiB, or an extension outside the allowed ones. *)
Definition to_be_rejected (audio_file : option upload) : Prop :=
  match audio_file with
  | None => True
  | Some f =>
      (max_size < size f)%Z \/ ~ In (file_extension f) allowed_extensions
  end.

(** The world after some more events. *)
Definition with_events (w : world) (evs : list event) : world :=
  set_trace (fun t => (t ++ evs)%list) w.

(** A computation of the background service only adds to the trace. *)
Definition appends {A} (m : Eff.M BackgroundService.world A) : Prop :=
  forall w, exists more, snd (m w) = (w ++ more)%list.

Definition is_str (v : pyval) : bool :=
  match v with
  | VStr _ => true
  | _ => false
  end.

(** A value that is false, or a list that starts with a string. *)
Definition strings_if_true (v : pyval) : bool :=
  match v with
  | VList (VStr _ :: _) => true
  | _ => negb (truthy v)
  end.

(** The payload holds URLs where the shapes have them: the ['url'] and
    ['result_url'] entries are strings, the ['urls'] and ['result_urls']
    entries are lists that start with a string unless they are false. *)
Definition well_typed (payload : dict) : bool :=
  match get "result" payload with
  | Some (VList (VDict first :: _)) =>
      match get "urls" first with
      | Some us => strings_if_true us
      | None => true
      end &&
      match get "url" first with
      | Some u => is_str u
      | None => true
      end
  | _ => true
  end &&
  match get "result_url" payload with
  | Some u => is_str u
  | None => true
  end &&
  match get "url" payload with
  | Some u => is_str u
  | None => true
  end &&
  match get "result_urls" payload with
  | Some us => strings_if_true us
  | None => true
  end.

Definition is_some {A} (o : option A) : bool :=
  match o with Some _ => true | None => false end.

(** A ['result'] entry that is true matches one of the two result shapes. *)
Definition result_recognised (payload : dict) : bool :=
  match get "result" payload with
  | Some r =>
      negb (truthy r) ||
      is_some (Component.shape_result_urls payload) ||
      is_some (Component.shape_result_url_item payload)
  | None => true
  end.

(** [image_url] for the URL a matcher found, [None] when none matched. *)
Definition url_or_none (o : option pyval) : pyval :=
  match o with Some u => u | None => VNone end.

(** The session once an image made from [prompt] has been recorded. *)
Definition with_image (s : Component.session) (image_url : pyval)
    (prompt : string) (timestamp : Z) : Component.session :=
  {| Component.voice_original_prompt := Component.voice_original_prompt s;
     Component.voice_enhanced_prompt := Component.voice_enhanced_prompt s;
     Component.voice_transcription_info := Component.voice_transcription_info s;
     Component.voice_audio_uploaded := Component.voice_audio_uploaded s;
     Component.original_prompt := Component.original_prompt s;
     Component.enhanced_prompt := Component.enhanced_prompt s;
     Component.api_key := Component.api_key s;
     Component.generated_images :=
       Some ((match Component.generated_images s with
              | Some l => l
              | None => []
              end) ++
             [VDict [ ("url", image_url);
                      ("prompt", VStr prompt);
                      ("source", VStr "voice");
                      ("timestamp", VInt timestamp) ]])%list |}.

(** The three attempts of the multi-method transcription, as events. *)
Definition is_file_attempt (e : event) : bool :=
  match e with
  | TranscribeFile _ _ false => true
  | _ => false
  end.

Definition is_array_attempt (e : event) : bool :=
  match e with
  | TranscribeArray _ => true
  | _ => false
  end.

Definition is_cpu_attempt (e : event) : bool :=
  match e with
  | TranscribeFile _ _ true => true
  | _ => false
  end.

(** The language handed to [model.transcribe]: none unless one is given. *)
Definition language_kwarg (language : option string) : option string :=
  if language_given language then language else None.

(** A computation that leaves the world as it was but for the events it
    adds, all of which satisfy [P]. *)
Definition logs_only {A} (P : event -> bool) (m : M world A) : Prop :=
  forall w, exists evs,
    forallb P evs = true /\ snd (m w) = with_events w evs.

(** Creation, writing and removal of temporary files. *)
Definition touches_files (e : event) : bool :=
  match e with
  | TmpCreate _ | TmpWrite _ _ | Unlink _ => true
  | _ => false
  end.

Definition leaves_files (e : event) : bool := negb (touches_files e).

(** The file [p] is on disk. *)
Definition on_disk (p : path) (w : world) : bool :=
  existsb (path_eqb p) (fs w).

(** The world once [p] has been unlinked. *)
Definition without (p : path) (w : world) : world :=
  set_fs (filter (fun q => negb (path_eqb p q))) w.


(** What the second method comes to: no result without an array or when the
    transcription of the array raises an [Exception]; an exception that is
    not one goes on. *)
Definition array_attempt_outcome {sample} (E : env sample) (m : model_handle)
    (audio_array : option (list sample)) (language : option string)
  : outcome pyval :=
  match audio_array with
  | Some a =>
      match model_transcribe_array E m a (language_kwarg language) with
      | Ok r => Ok r
      | Raise e => if is_Exception e then Ok VNone else Raise e
      end
  | None => Ok VNone
  end.

(** The events up to the array attempt when the file attempt raised [e]. *)
Definition until_array (p : path) (language : option string) (e : exn)
  : list event :=
  [ St Info "Attempting transcription with preprocessed file...";
    TranscribeFile p (language_kwarg language) false;
    St Warning ("File-based transcription failed: " ++ exn_str e);
    St Info "Attempting transcription with audio array..." ].

(** The list [l] ends with the event [x]. *)
Definition ends_with (l : list event) (x : event) : Prop :=
  exists earlier, l = (earlier ++ [x])%list.

(** A computation of the speech-to-text service that leaves the files on
    disk as they are. *)
Definition keeps_fs {A} (m : Eff.M SpeechToTextService.world A) : Prop :=
  forall w, SpeechToTextService.fs (snd (m w)) = SpeechToTextService.fs w.

(** A service that is marked as loaded holds a model and a processor. *)
Definition consistent (s : service) : Prop :=
  model_loaded s = true -> model s <> None /\ processor s <> None.

(** An answer that is not an exception from outside [Exception]. *)
Definition quiet {A} (o : outcome A) : Prop :=
  forall e, o = Raise e -> is_Exception e = true.


(** A message on the page, as opposed to a call of a library. *)
Definition is_message (e : event) : bool :=
  match e with
  | St _ _ => true
  | _ => false
  end.

(** What [soundfile.read] hands back: a one-dimensional array for a mono
    file, one column per channel for two channels or more. *)
Definition decoded_shape {sample} (a : ndarray sample) : Prop :=
  match a with
  | Arr1 _ => True
  | Arr2 channels _ => 2 <= channels
  end.

(** The samples of the mono signal: the frames averaged over the channels. *)
Definition averaged {sample} (E : env sample) (a : ndarray sample)
  : list sample :=
  match a with
  | Arr1 xs => xs
  | Arr2 _ rows => map (np_mean E) rows
  end.

(** What the processor, the model [m] and the decoder make of the
    one-dimensional array [xs] handed over as sampled at 16 kHz, for a
    service on the device [dev]: the answer, and the calls that were made. *)
Definition model_answer {sample} (E : env sample) (m : model_handle)
    (dev : string) (xs : list sample) (language : option string)
  : outcome result * list event :=
  let kw := language_kwarg language in
  match processor_call E (Arr1 xs) 16000 with
  | Raise e => (Raise e, [ProcessorCall 16000])
  | Ok input_features =>
      match model_generate E m input_features kw with
      | Raise e => (Raise e, [ProcessorCall 16000; Generate kw])
      | Ok predicted_ids =>
          (match batch_decode E predicted_ids with
           | Raise e => Raise e
           | Ok [] => Raise (Exception "IndexError" "list index out of range")
           | Ok (t :: _) =>
               Ok (t, [ ("language", VStr (language_or language "auto-detected"));
                        ("model", VStr "openai/whisper");
                        ("device", VStr dev) ])
           end,
           [ProcessorCall 16000; Generate kw; BatchDecode])
      end
  end.

End Notions.

(** ** Concrete environments and inputs *)
Module Demo.
Import Py Eff VoiceToImageService.

(** A machine without CUDA on which every external call succeeds; samples
    are integers and the mean of a frame is the integer mean. *)
Definition E_ok : env Z :=
  {| cuda_is_available := false;
     processor_from_pretrained := fun _ => Ok tt;
     model_from_pretrained := fun _ => Ok tt;
     model_to := fun _ _ => Ok tt;
     tmp_create := fun _ => Ok tt;
     tmp_write := fun _ _ => Ok tt;
     os_unlink := fun _ => Ok tt;
     os_getsize := fun _ => Ok 1024%Z;
     sf_read := fun _ _ => Ok (Arr2 2 [[2; 4]; [6; 8]]%Z, 44100%Z);
     np_mean := fun l => (fold_right Z.add 0 l / Z.of_nat (List.length l))%Z;
     resample_1d := fun xs _ _ => Ok xs;
     resample_2d := fun c rows _ _ => Ok (Arr2 c rows);
     processor_call := fun _ _ => Ok 0;
     model_generate := fun _ _ _ => Ok 0;
     batch_decode := fun _ => Ok ["a red sneaker on a table"];
     librosa_load := fun _ _ _ => Ok ([3; 7]%Z, 16000%Z);
     sf_write := fun _ _ _ => Ok tt;
     model_transcribe_file :=
       fun _ _ _ _ => Ok (VDict [("text", VStr " a red sneaker ")]);
     model_transcribe_array :=
       fun _ _ _ => Ok (VDict [("text", VStr " a red sneaker ")]) |}.

(** The environment [E] with one of its answers replaced. *)
Definition with_os_unlink (f : path -> outcome unit)
    (E : env Z) : env Z :=
  {| cuda_is_available := cuda_is_available E;
     processor_from_pretrained := processor_from_pretrained E;
     model_from_pretrained := model_from_pretrained E;
     model_to := model_to E;
     tmp_create := tmp_create E;
     tmp_write := tmp_write E;
     os_unlink := f;
     os_getsize := os_getsize E;
     sf_read := sf_read E;
     np_mean := np_mean E;
     resample_1d := resample_1d E;
     resample_2d := resample_2d E;
     processor_call := processor_call E;
     model_generate := model_generate E;
     batch_decode := batch_decode E;
     librosa_load := librosa_load E;
     sf_write := sf_write E;
     model_transcribe_file := model_transcribe_file E;
     model_transcribe_array := model_transcribe_array E |}.

Definition with_tmp_write (f : path -> upload -> outcome unit)
    (E : env Z) : env Z :=
  {| cuda_is_available := cuda_is_available E;
     processor_from_pretrained := processor_from_pretrained E;
     model_from_pretrained := model_from_pretrained E;
     model_to := model_to E;
     tmp_create := tmp_create E;
     tmp_write := f;
     os_unlink := os_unlink E;
     os_getsize := os_getsize E;
     sf_read := sf_read E;
     np_mean := np_mean E;
     resample_1d := resample_1d E;
     resample_2d := resample_2d E;
     processor_call := processor_call E;
     model_generate := model_generate E;
     batch_decode := batch_decode E;
     librosa_load := librosa_load E;
     sf_write := sf_write E;
     model_transcribe_file := model_transcribe_file E;
     model_transcribe_array := model_transcribe_array E |}.

Definition with_model_generate (f : model_handle -> nat -> option string -> outcome nat)
    (E : env Z) : env Z :=
  {| cuda_is_available := cuda_is_available E;
     processor_from_pretrained := processor_from_pretrained E;
     model_from_pretrained := model_from_pretrained E;
     model_to := model_to E;
     tmp_create := tmp_create E;
     tmp_write := tmp_write E;
     os_unlink := os_unlink E;
     os_getsize := os_getsize E;
     sf_read := sf_read E;
     np_mean := np_mean E;
     resample_1d := resample_1d E;
     resample_2d := resample_2d E;
     processor_call := processor_call E;
     model_generate := f;
     batch_decode := batch_decode E;
     librosa_load := librosa_load E;
     sf_write := sf_write E;
     model_transcribe_file := model_transcribe_file E;
     model_transcribe_array := model_transcribe_array E |}.

Definition with_transcribe_file (f : model_handle -> path -> option string -> bool -> outcome pyval)
    (E : env Z) : env Z :=
  {| cuda_is_available := cuda_is_available E;
     processor_from_pretrained := processor_from_pretrained E;
     model_from_pretrained := model_from_pretrained E;
     model_to := model_to E;
     tmp_create := tmp_create E;
     tmp_write := tmp_write E;
     os_unlink := os_unlink E;
     os_getsize := os_getsize E;
     sf_read := sf_read E;
     np_mean := np_mean E;
     resample_1d := resample_1d E;
     resample_2d := resample_2d E;
     processor_call := processor_call E;
     model_generate := model_generate E;
     batch_decode := batch_decode E;
     librosa_load := librosa_load E;
     sf_write := sf_write E;
     model_transcribe_file := f;
     model_transcribe_array := model_transcribe_array E |}.

(** [os.unlink] is refused. *)
Definition E_unlink_refused : env Z :=
  with_os_unlink
    (fun _ => Raise (Exception "PermissionError" "Permission denied")) E_ok.

(** The disk is full. *)
Definition E_disk_full : env Z :=
  with_tmp_write
    (fun _ _ => Raise (Exception "OSError" "No space left on device")) E_ok.

(** The model runs out of memory. *)
Definition E_generate_fails : env Z :=
  with_model_generate
    (fun _ _ _ => Raise (Exception "RuntimeError" "out of memory")) E_ok.

(** The transcription of a file fails unless it is the verbose one. *)
Definition E_file_fails : env Z :=
  with_transcribe_file
    (fun _ _ _ verbose =>
       if verbose then Ok (VDict [("text", VStr " a red sneaker ")])
       else Raise (Exception "RuntimeError" "cannot read the file"))
    E_ok.


Definition tmp0 : path := {| tmp_id := 0; tmp_suffix := ".wav" |}.

Definition base_model : model_handle :=
  {| model_name := "openai/whisper-base"; model_device := "cpu" |}.

Definition whisper_base : service :=
  {| model := Some {| model_name := "openai/whisper-base";
                      model_device := "cpu" |};
     processor := Some "openai/whisper-base";
     model_loaded := true;
     device := "cpu" |}.

Definition w_fresh : world :=
  {| fs := []; next_tmp := 0; trace := []; self := init E_ok |}.

Definition w_base : world :=
  {| fs := []; next_tmp := 0; trace := []; self := whisper_base |}.

Definition clip : upload :=
  {| name := "clip.WAV"; type := "audio/wav"; size := 2048 |}.

(** One byte over 25 MiB. *)
Definition huge : upload :=
  {| name := "talk.mp3"; type := "audio/mpeg"; size := 26214401 |}.

Definition notes : upload :=
  {| name := "notes.txt"; type := "text/plain"; size := 12 |}.

Definition empty_session : Component.session :=
  {| Component.voice_original_prompt := "";
     Component.voice_enhanced_prompt := "";
     Component.voice_transcription_info := [];
     Component.voice_audio_uploaded := false;
     Component.original_prompt := None;
     Component.enhanced_prompt := None;
     Component.api_key := None;
     Component.generated_images := None |}.

Definition page_fresh : Component.world :=
  {| Component.app := w_fresh; Component.state := empty_session |}.

(** An endpoint that answers every request with a result URL. *)
Definition http_ok : BackgroundService.env :=
  {| BackgroundService.requests_post := fun _ _ _ =>
       Ok {| BackgroundService.status_code := 200;
             BackgroundService.reason := "OK";
             BackgroundService.text := "{}";
             BackgroundService.json :=
               Ok [("result_url", VStr "http://cdn/out.png")] |};
     BackgroundService.b64encode := fun bytes => bytes |}.

(** A session with a prompt to draw and an API key. *)
Definition session_ready : Component.session :=
  {| Component.voice_original_prompt := "a red sneaker";
     Component.voice_enhanced_prompt := "A red sneaker.";
     Component.voice_transcription_info := [];
     Component.voice_audio_uploaded := true;
     Component.original_prompt := None;
     Component.enhanced_prompt := None;
     Component.api_key := Some "key";
     Component.generated_images := None |}.

Definition page_ready : Component.world :=
  {| Component.app := w_base; Component.state := session_ready |}.

End Demo.

(** ** More of the page ([src/components/voice_to_image.py]) *)
Module Results.
Import Py Eff Component.
Local Open Scope eff_scope.

(** Lines 106-109: there is a transcription to show. *)
Definition has_transcription (s : session) : bool :=
  str_truthy (str_or (voice_original_prompt s) (original_prompt s)).

(** Lines 236-250: the clear button. [clicked] is what [st.button]
    returns. *)
Definition on_clear (clicked : bool) : M world unit :=
  if clicked then
    set_state (fun s =>
      {| voice_original_prompt := "";
         voice_enhanced_prompt := "";
         voice_transcription_info := [];
         voice_audio_uploaded := false;
         original_prompt :=
           match original_prompt s with Some _ => Some "" | None => None end;
         enhanced_prompt :=
           match enhanced_prompt s with Some _ => Some "" | None => None end;
         api_key := api_key s;
         generated_images := generated_images s |}) ;;
    st V.Success "✅ Transcription cleared!" ;;
    rerun
  else ret tt.

(** [img.get('source') == 'voice'] *)
Definition from_voice (img : pyval) : outcome bool :=
  match img with
  | VDict d =>
      match get "source" d with
      | Some (VStr s) => Ok (String.eqb s "voice")
      | _ => Ok false
      end
  | _ => Raise (Exception "AttributeError" "object has no attribute 'get'")
  end.

(** Line 258: [[img for img in generated_images if img.get('source') ==
    'voice']]. *)
Fixpoint voice_generated (generated_images : list pyval)
  : outcome (list pyval) :=
  match generated_images with
  | [] => Ok []
  | img :: rest =>
      match from_voice img with
      | Ok keep =>
          match voice_generated rest with
          | Ok l => Ok (if keep then img :: l else l)
          | Raise e => Raise e
          end
      | Raise e => Raise e
      end
  end.

End Results.

(** ** Notions and sample worlds for the further properties of the service *)
Module ServiceNotions.
Import Py Eff VoiceToImageService Notions.

(** A computation that leaves the service object as it is. *)
Definition keeps_self {A} (m : M world A) : Prop :=
  forall w, self (snd (m w)) = self w.


(** A computation that lets no exception from outside [Exception] out. *)
Definition calm {A} (m : M world A) : Prop :=
  forall w, quiet (fst (m w)).

(** No call of a library is cut short by an exception from outside
    [Exception]: no [KeyboardInterrupt], no [SystemExit]. *)
Record uninterrupted {sample : Type} (E : env sample) : Prop := {
  quiet_processor_from_pretrained :
    forall n, quiet (processor_from_pretrained E n);
  quiet_model_from_pretrained :
    forall n, quiet (model_from_pretrained E n);
  quiet_model_to : forall m d, quiet (model_to E m d);
  quiet_tmp_create : forall s, quiet (tmp_create E s);
  quiet_tmp_write : forall p f, quiet (tmp_write E p f);
  quiet_os_unlink : forall p, quiet (os_unlink E p);
  quiet_os_getsize : forall p, quiet (os_getsize E p);
  quiet_sf_read : forall p f, quiet (sf_read E p f);
  quiet_resample_1d : forall xs a b, quiet (resample_1d E xs a b);
  quiet_resample_2d : forall c rows a b, quiet (resample_2d E c rows a b);
  quiet_processor_call : forall a r, quiet (processor_call E a r);
  quiet_model_generate : forall m f l, quiet (model_generate E m f l);
  quiet_batch_decode : forall i, quiet (batch_decode E i);
  quiet_librosa_load : forall p f r, quiet (librosa_load E p f r);
  quiet_sf_write : forall p xs r, quiet (sf_write E p xs r);
  quiet_model_transcribe_file :
    forall m p l v, quiet (model_transcribe_file E m p l v);
  quiet_model_transcribe_array :
    forall m a l, quiet (model_transcribe_array E m a l)
}.

Definition with_model_to (f : model_handle -> string -> outcome unit)
    (E : env Z) : env Z :=
  {| cuda_is_available := cuda_is_available E;
     processor_from_pretrained := processor_from_pretrained E;
     model_from_pretrained := model_from_pretrained E;
     model_to := f;
     tmp_create := tmp_create E;
     tmp_write := tmp_write E;
     os_unlink := os_unlink E;
     os_getsize := os_getsize E;
     sf_read := sf_read E;
     np_mean := np_mean E;
     resample_1d := resample_1d E;
     resample_2d := resample_2d E;
     processor_call := processor_call E;
     model_generate := model_generate E;
     batch_decode := batch_decode E;
     librosa_load := librosa_load E;
     sf_write := sf_write E;
     model_transcribe_file := model_transcribe_file E;
     model_transcribe_array := model_transcribe_array E |}.

Definition with_cuda (f : bool)
    (E : env Z) : env Z :=
  {| cuda_is_available := f;
     processor_from_pretrained := processor_from_pretrained E;
     model_from_pretrained := model_from_pretrained E;
     model_to := model_to E;
     tmp_create := tmp_create E;
     tmp_write := tmp_write E;
     os_unlink := os_unlink E;
     os_getsize := os_getsize E;
     sf_read := sf_read E;
     np_mean := np_mean E;
     resample_1d := resample_1d E;
     resample_2d := resample_2d E;
     processor_call := processor_call E;
     model_generate := model_generate E;
     batch_decode := batch_decode E;
     librosa_load := librosa_load E;
     sf_write := sf_write E;
     model_transcribe_file := model_transcribe_file E;
     model_transcribe_array := model_transcribe_array E |}.

Definition with_transcribe_array (f : model_handle -> list Z -> option string -> outcome pyval)
    (E : env Z) : env Z :=
  {| cuda_is_available := cuda_is_available E;
     processor_from_pretrained := processor_from_pretrained E;
     model_from_pretrained := model_from_pretrained E;
     model_to := model_to E;
     tmp_create := tmp_create E;
     tmp_write := tmp_write E;
     os_unlink := os_unlink E;
     os_getsize := os_getsize E;
     sf_read := sf_read E;
     np_mean := np_mean E;
     resample_1d := resample_1d E;
     resample_2d := resample_2d E;
     processor_call := processor_call E;
     model_generate := model_generate E;
     batch_decode := batch_decode E;
     librosa_load := librosa_load E;
     sf_write := sf_write E;
     model_transcribe_file := model_transcribe_file E;
     model_transcribe_array := f |}.

(** The user interrupts the model. *)
Definition E_interrupted : env Z :=
  Demo.with_model_generate
    (fun _ _ _ => Raise (BaseException "KeyboardInterrupt" "")) Demo.E_ok.

(** The model cannot be moved to the device. *)
Definition E_no_memory : env Z :=
  with_model_to (fun _ _ => Raise (Exception "RuntimeError" "no memory"))
    Demo.E_ok.

(** A machine with CUDA on which only the verbose transcription works. *)
Definition E_cuda_file_fails : env Z :=
  with_cuda true
    (with_transcribe_array
       (fun _ _ _ => Raise (Exception "RuntimeError" "bad array"))
       Demo.E_file_fails).


(** A service loaded on the CUDA device. *)
Definition w_cuda : world :=
  {| fs := []; next_tmp := 0; trace := [];
     self := {| model := Some {| model_name := "openai/whisper-base";
                                 model_device := "cuda:0" |};
                processor := Some "openai/whisper-base";
                model_loaded := true;
                device := "cuda:0" |} |}.

End ServiceNotions.

(** ** Notions for [SpeechToTextService.transcribe] *)
Module SpeechToTextNotions.
Import Py Eff SpeechToTextService.
Local Open Scope string_scope.

(** Lines 37-47. *)
Definition body (E : env) (audio_path : string) : M world pyval :=
  bind (log (OpenRead audio_path)) (fun _ =>
  bind (lift (open_read E audio_path)) (fun _ =>
  bind (print ("Starting transcription of file: " ++ audio_path)) (fun _ =>
  bind (log (Transcribe audio_path)) (fun _ =>
  bind (lift (model_transcribe E audio_path)) (fun result =>
  bind (lift (get_text result)) (fun text =>
  bind (lift (len_or_0 text)) (fun n =>
  bind (print ("Transcription completed. Text length: " ++ str_of_Z n)) (fun _ =>
  ret text)))))))).

(** Lines 48-50. *)
Definition wrap (e : exn) : M world pyval :=
  bind (print ("Error during transcription: " ++ exn_str e))
    (fun _ => raise (Exception "Exception"
                       ("Error transcribing audio: " ++ exn_str e))).

(** What the clause of lines 48-50 makes of the exception [e]: it wraps an
    [Exception] and lets anything else through. *)
Definition wrapped (e : exn) : outcome pyval :=
  if is_Exception e
  then Raise (Exception "Exception"
                ("Error transcribing audio: " ++ exn_str e))
  else Raise e.

(** What lines 36-50 come to: the text, or the first failure, wrapped. *)
Definition guarded_outcome (E : env) (audio_path : string) : outcome pyval :=
  match open_read E audio_path with
  | Raise e => wrapped e
  | Ok _ =>
      match model_transcribe E audio_path with
      | Raise e => wrapped e
      | Ok result =>
          match get_text result with
          | Raise e => wrapped e
          | Ok text =>
              match len_or_0 text with
              | Raise e => wrapped e
              | Ok _ => Ok text
              end
          end
      end
  end.

(** The world once lines 32-35 have printed their two messages. *)
Definition started (E : env) (audio_path : string) (w : world) : world :=
  {| fs := fs w;
     trace := ((trace w ++
                [ Print ("[DEBUG] Checking if audio file exists: " ++
                         audio_path) ]) ++
               [ Print ("[DEBUG] Audio file exists. Size: " ++
                        str_of_Z (os_getsize E audio_path) ++ " bytes") ])%list |}.

(** The world once the file has been removed and the removal announced. *)
Definition cleaned_up (audio_path : string) (w : world) : world :=
  {| fs := filter (fun q => negb (String.eqb audio_path q)) (fs w);
     trace := (trace w ++
               [ Remove audio_path;
                 Print ("Cleaned up temporary file: " ++ audio_path) ])%list |}.

(** The world once the removal has failed with [e] and the warning of line
    58 has been printed. *)
Definition warned (audio_path : string) (e : exn) (w : world) : world :=
  {| fs := fs w;
     trace := (trace w ++
               [ Remove audio_path;
                 Print ("Warning: Could not clean up temporary file " ++
                        audio_path ++ ": " ++ exn_str e) ])%list |}.

(** A disk with one recording on it, and a model that hears a sentence. *)
Definition s2t_ok : env :=
  {| os_getsize := fun _ => 2048%Z;
     open_read := fun _ => Ok tt;
     model_transcribe := fun _ => Ok (VDict [("text", VStr " hello world")]);
     os_remove := fun _ => Ok tt |}.

(** The model fails. *)
Definition s2t_fails : env :=
  {| os_getsize := fun _ => 2048%Z;
     open_read := fun _ => Ok tt;
     model_transcribe := fun _ => Raise (Exception "RuntimeError" "bad audio");
     os_remove := fun _ => Ok tt |}.

(** The user interrupts the model. *)
Definition s2t_interrupted : env :=
  {| os_getsize := fun _ => 2048%Z;
     open_read := fun _ => Ok tt;
     model_transcribe :=
       fun _ => Raise (BaseException "KeyboardInterrupt" "");
     os_remove := fun _ => Ok tt |}.

Definition one_file : world := {| fs := ["/tmp/a.wav"]; trace := [] |}.

End SpeechToTextNotions.

(** ** Notions for [remove_background] and its fallback *)
Module BackgroundNotions.
Import Py Eff BackgroundService.

Definition is_post (e : event) : bool :=
  match e with
  | Post _ _ _ => true
  | Print _ _ => false
  end.

(** The number of requests in a trace. *)
Definition posts (t : world) : nat := List.length (filter is_post t).

(** A computation that only adds to the trace, and at most [n] requests. *)
Definition sends {A} (n : nat) (m : M world A) : Prop :=
  forall w, exists more,
    snd (m w) = (w ++ more)%list /\ posts more <= n.

Definition fallback_endpoint : string :=
  "https://engine.prod.bria-api.com/v1/erase_background".

(** A computation that leaves the trace as it is. *)
Definition silent {A} (m : M world A) : Prop := forall w, snd (m w) = w.

(** The request body the alternate endpoint is sent (lines 96-103). *)
Definition fallback_data (E : env) (image_data image_url : option string)
    (content_moderation : bool) : dict :=
  if opt_truthy image_url then
    [("content_moderation", VBool content_moderation);
     ("image_url", VStr (match image_url with Some u => u | None => "" end))]
  else if opt_truthy image_data then
    [("content_moderation", VBool content_moderation);
     ("file", VStr (b64encode E
                      (match image_data with Some d => d | None => "" end)))]
  else [("content_moderation", VBool content_moderation)].

(** What a call prints and sends before the endpoint answers. *)
Definition announced (api_key : string) (data : dict) : list event :=
  [ Print "Making background removal request to: " (VStr endpoint);
    Print "Headers: " (VDict (headers_of api_key));
    Print "Data keys: " (VList (map (fun kv => VStr (fst kv)) data));
    Post endpoint (headers_of api_key) data ].

(** The status codes [raise_for_status] raises on. *)
Definition raises_for_status (status : Z) : bool :=
  ((400 <=? status) && (status <? 600))%Z.

(** The [result_url] shape of a response body. *)
Definition normalised (body : dict) : dict :=
  if has_key "result_url" body then body
  else match get "urls" body with
       | Some (VList (u :: _)) => [("result_url", u)]
       | _ => match get "url" body with
              | Some u => [("result_url", u)]
              | None => body
              end
       end.

(** The body names a result in one of the three ways the code knows. *)
Definition names_result (body : dict) : bool :=
  has_key "result_url" body ||
  match get "urls" body with
  | Some (VList (_ :: _)) => true
  | _ => false
  end ||
  has_key "url" body.

(** The removal endpoint is gone and the alternate one answers. *)
Definition http_moved : env :=
  {| requests_post := fun url _ _ =>
       if String.eqb url endpoint then
         Ok {| status_code := 404; reason := "Not Found";
               text := "no such route"; json := Ok [] |}
       else
         Ok {| status_code := 200; reason := "OK"; text := "{}";
               json := Ok [("urls", VList [VStr "http://cdn/a.png";
                                           VStr "http://cdn/b.png"])] |};
     b64encode := fun bytes => bytes |}.

(** The removal endpoint fails. *)
Definition http_broken : env :=
  {| requests_post := fun _ _ _ =>
       Ok {| status_code := 500; reason := "Internal Server Error";
             text := "stack trace"; json := Ok [] |};
     b64encode := fun bytes => bytes |}.

End BackgroundNotions.

(** ** Notions and sample sessions for the page *)
Module PageNotions.
Import Py Eff Component Results Notions.

(** The session once the text [t] has been transcribed. *)
Definition after_transcription (s : session) (t : string) (info : dict)
  : session :=
  {| voice_original_prompt := t;
     voice_enhanced_prompt := Prompt.enhance_voice_prompt t;
     voice_transcription_info := info;
     voice_audio_uploaded := true;
     original_prompt := Some t;
     enhanced_prompt := Some (Prompt.enhance_voice_prompt t);
     api_key := api_key s;
     generated_images := generated_images s |}.

(** The upload passes the validation, the model is there and the
    transcription returns the text [t], which is not empty, with [info],
    leaving the service in [w3]. *)
Definition transcribed {sample : Type} (E : V.env sample) (audio : V.upload)
    (model_size : string) (selected_language : option string) (cw : world)
    (t : string) (info : dict) (w3 : V.world) : Prop :=
  exists w1 w2,
    V.validate_audio_file (Some audio) (app cw) = (Ok true, w1) /\
    V.load_model E model_size w1 = (Ok true, w2) /\
    V.transcribe_audio E audio selected_language w2
      = (Ok (Return (t, info)), w3) /\
    str_truthy t = true.

(** What lines 91-94 show of a transcription. *)
Definition transcription_report (info : dict) : list V.event :=
  [ V.St V.Success "✅ Audio transcribed successfully!";
    V.St V.Info ("**Language detected:** " ++
      py_str false (get_default "language" (VStr "auto-detected") info));
    V.St V.Info ("**Model:** " ++
      py_str false (get_default "model" (VStr "Whisper") info));
    V.St V.Info ("**Device:** " ++
      py_str false (get_default "device" (VStr "CPU") info)) ].

(** The prompt the generate button works on (line 163). *)
Definition current_enhanced_prompt (s : session) : string :=
  str_or (voice_enhanced_prompt s) (enhanced_prompt s).

(** The record of an image made from [prompt]. *)
Definition image_record (image_url : pyval) (prompt : string) (timestamp : Z)
  : pyval :=
  VDict [ ("url", image_url);
          ("prompt", VStr prompt);
          ("source", VStr "voice");
          ("timestamp", VInt timestamp) ].

(** A session with images of other pages and no API key. *)
Definition session_no_key : session :=
  {| voice_original_prompt := "a red sneaker";
     voice_enhanced_prompt := "A red sneaker.";
     voice_transcription_info := [];
     voice_audio_uploaded := true;
     original_prompt := Some "a red sneaker";
     enhanced_prompt := None;
     api_key := None;
     generated_images :=
       Some [VDict [("url", VStr "http://old"); ("source", VStr "text")]] |}.

Definition page_no_key : world :=
  {| app := Demo.w_base; state := session_no_key |}.

End PageNotions.

(** * Properties *)

(** ** Worlds and traces *)
Module WorldFacts.
Import Py Eff VoiceToImageService Notions.

Lemma with_events_nil (w : world) : with_events w [] = w.
Proof.
  destruct w. unfold with_events, set_trace. cbn. rewrite app_nil_r. reflexivity.
Qed.

Lemma with_events_app (w : world) (a b : list event) :
  with_events (with_events w a) b = with_events w (a ++ b).
Proof.
  unfold with_events, set_trace. cbn. rewrite app_assoc. reflexivity.
Qed.

Lemma forallb_app_true {A} (f : A -> bool) (a b : list A) :
  forallb f a = true -> forallb f b = true -> forallb f (a ++ b) = true.
Proof. intros Ha Hb. rewrite forallb_app, Ha, Hb. reflexivity. Qed.

Lemma logs_only_ret {A} P (a : A) : logs_only P (ret a).
Proof. intros w. exists []. split; [reflexivity|]. cbn. now rewrite with_events_nil. Qed.

Lemma logs_only_raise {A} P (e : exn) : logs_only P (@raise world A e).
Proof. intros w. exists []. split; [reflexivity|]. cbn. now rewrite with_events_nil. Qed.

Lemma logs_only_lift {A} P (o : outcome A) : logs_only P (lift o).
Proof. intros w. exists []. split; [reflexivity|]. cbn. now rewrite with_events_nil. Qed.

Lemma logs_only_gets {A} P (f : world -> A) : logs_only P (gets f).
Proof. intros w. exists []. split; [reflexivity|]. cbn. now rewrite with_events_nil. Qed.

Lemma logs_only_log P (e : event) : P e = true -> logs_only P (log e).
Proof. intros H w. exists [e]. split; [cbn; now rewrite H|reflexivity]. Qed.

Lemma logs_only_bind {A B} P (m : M world A) (k : A -> M world B) :
  logs_only P m -> (forall a, logs_only P (k a)) -> logs_only P (bind m k).
Proof.
  intros Hm Hk w. unfold bind. destruct (Hm w) as (e1 & P1 & H1).
  destruct (m w) as [[a|e] w1]; cbn in H1; subst w1.
  - destruct (Hk a (with_events w e1)) as (e2 & P2 & H2). rewrite H2.
    exists (e1 ++ e2)%list. split; [now apply forallb_app_true|].
    apply with_events_app.
  - exists e1. split; [exact P1|reflexivity].
Qed.

Lemma logs_only_try_except {A} P (m : M world A) (h : exn -> M world A) :
  logs_only P m -> (forall e, logs_only P (h e)) -> logs_only P (try_except m h).
Proof.
  intros Hm Hh w. unfold try_except. destruct (Hm w) as (e1 & P1 & H1).
  destruct (m w) as [[a|e] w1]; cbn in H1; subst w1.
  - exists e1. split; [exact P1|reflexivity].
  - destruct (is_Exception e).
    + destruct (Hh e (with_events w e1)) as (e2 & P2 & H2). rewrite H2.
      exists (e1 ++ e2)%list. split; [now apply forallb_app_true|].
      apply with_events_app.
    + exists e1. split; [exact P1|reflexivity].
Qed.

Lemma logs_only_try_except_all {A} P (m h : M world A) :
  logs_only P m -> logs_only P h -> logs_only P (try_except_all m h).
Proof.
  intros Hm Hh w. unfold try_except_all. destruct (Hm w) as (e1 & P1 & H1).
  destruct (m w) as [[a|e] w1]; cbn in H1; subst w1.
  - exists e1. split; [exact P1|reflexivity].
  - destruct (Hh (with_events w e1)) as (e2 & P2 & H2). rewrite H2.
    exists (e1 ++ e2)%list. split; [now apply forallb_app_true|].
    apply with_events_app.
Qed.

Ltac logs_only_step :=
  lazymatch goal with
  | |- logs_only _ (bind _ _) => apply logs_only_bind; [|intro]
  | |- logs_only _ (try_except _ _) => apply logs_only_try_except; [|intro]
  | |- logs_only _ (ret _) => apply logs_only_ret
  | |- logs_only _ (raise _) => apply logs_only_raise
  | |- logs_only _ (lift _) => apply logs_only_lift
  | |- logs_only _ (gets _) => apply logs_only_gets
  | |- logs_only _ (log _) => apply logs_only_log; reflexivity
  | |- logs_only _ (st _ _) => apply logs_only_log; reflexivity
  | |- logs_only _ (if ?b then _ else _) => destruct b
  | |- logs_only _ (match ?x with _ => _ end) => destruct x
  | |- logs_only _ (let _ := _ in _) => cbv zeta
  end.

Section Facts.
Context {sample : Type} (E : env sample).

Lemma logs_only_normalize (audio_data : signal sample) (sample_rate : Z) :
  logs_only leaves_files (normalize E audio_data sample_rate).
Proof.
  unfold normalize, resample_to_16k, librosa_resample.
  repeat logs_only_step.
Qed.

Lemma logs_only_feed_model (audio_data : signal sample)
    (language : option string) :
  logs_only leaves_files (feed_model E audio_data language).
Proof. unfold feed_model. repeat logs_only_step. Qed.

Lemma logs_only_run_model (audio_file : upload) (tmp_path : path)
    (language : option string) :
  logs_only leaves_files (run_model E audio_file tmp_path language).
Proof.
  unfold run_model.
  repeat first [ apply logs_only_normalize | apply logs_only_feed_model
               | logs_only_step ].
Qed.

End Facts.
End WorldFacts.

(** ** Model loading *)
Module LoadModelFacts.
Import Py Eff VoiceToImageService Notions.

Section Facts.
Context {sample : Type} (E : env sample).

Lemma load_model_resident (model_size : string) (w : world) :
  resident (self w) = true -> load_model E model_size w = (Ok true, w).
Proof.
  unfold resident, load_model, try_except, bind, gets.
  intros H. rewrite andb_true_iff, negb_true_iff in H. destruct H as [H1 H2].
  rewrite H1, H2. reflexivity.
Qed.

Lemma resident_false (s : service) :
  resident s = false -> negb (model_loaded s) || is_none (model s) = true.
Proof.
  unfold resident. destruct (model_loaded s), (model s); simpl; congruence.
Qed.

Lemma load_model_fetches (model_size : string) (w : world) :
  resident (self w) = false ->
  fetch_succeeds E model_size (device (self w)) = true ->
  load_model E model_size w =
    (Ok true,
     {| fs := fs w; next_tmp := next_tmp w;
        trace := (trace w ++ load_events model_size (device (self w)))%list;
        self := loaded (self w) model_size |}).
Proof.
  intros Hr Hf. apply resident_false in Hr.
  unfold fetch_succeeds in Hf.
  unfold load_model, try_except, bind, gets, st, log, modify, lift, ret.
  rewrite Hr. cbn.
  destruct (processor_from_pretrained E _); [|discriminate].
  destruct (model_from_pretrained E _); [|discriminate].
  cbn.
  destruct (model_to E _ _); [|discriminate].
  cbn. unfold loaded, load_events, set_trace, set_self. cbn.
  repeat rewrite <- app_assoc. reflexivity.
Qed.

Ltac run_load :=
  unfold load_model, try_except, bind, gets, st, log, modify, lift, ret.

Lemma load_model_fails (model_size : string) (w : world) :
  resident (self w) = false ->
  fetch_succeeds E model_size (device (self w)) = false ->
  fetch_interrupted E model_size (device (self w)) = false ->
  fst (load_model E model_size w) = Ok false /\
  model_loaded (self (snd (load_model E model_size w))) = model_loaded (self w) /\
  fs (snd (load_model E model_size w)) = fs w.
Proof.
  intros Hr Hf Hi. apply resident_false in Hr.
  unfold fetch_succeeds in Hf. unfold fetch_interrupted in Hi.
  run_load. rewrite Hr. cbn.
  destruct (processor_from_pretrained E _) as [|e]; cbn;
    [|apply negb_false_iff in Hi; rewrite Hi; cbn; auto].
  destruct (model_from_pretrained E _) as [|e]; cbn;
    [|apply negb_false_iff in Hi; rewrite Hi; cbn; auto].
  destruct (model_to E _ _) as [|e]; cbn;
    [discriminate|apply negb_false_iff in Hi; rewrite Hi; cbn; auto].
Qed.

(** An exception that is not an [Exception] is not caught by line 39: it
    leaves [load_model], and [model_loaded] is as it was. *)
Lemma load_model_interrupted (model_size : string) (w : world) :
  resident (self w) = false ->
  fetch_interrupted E model_size (device (self w)) = true ->
  (exists cls msg,
     fst (load_model E model_size w) = Raise (BaseException cls msg)) /\
  model_loaded (self (snd (load_model E model_size w))) = model_loaded (self w) /\
  fs (snd (load_model E model_size w)) = fs w.
Proof.
  intros Hr Hi. apply resident_false in Hr. unfold fetch_interrupted in Hi.
  run_load. rewrite Hr. cbn.
  destruct (processor_from_pretrained E _) as [|e]; cbn.
  - destruct (model_from_pretrained E _) as [|e]; cbn.
    + destruct (model_to E _ _) as [|e]; cbn; [discriminate|].
      destruct e as [c m|c m b|c m]; try discriminate Hi. cbn. eauto.
    + destruct e as [c m|c m b|c m]; try discriminate Hi. cbn. eauto.
  - destruct e as [c m|c m b|c m]; try discriminate Hi. cbn. eauto.
Qed.

(** What a call of [load_model] comes to: an answer, or an exception that
    is not an [Exception]. *)
Lemma load_model_outcome (model_size : string) (w : world) :
  (exists b, fst (load_model E model_size w) = Ok b) \/
  (exists cls msg,
     fst (load_model E model_size w) = Raise (BaseException cls msg)).
Proof.
  run_load.
  destruct (negb (model_loaded (self w)) || is_none (model (self w)));
    cbn; [|left; eauto].
  destruct (processor_from_pretrained E _) as [|e]; cbn.
  - destruct (model_from_pretrained E _) as [|e]; cbn.
    + destruct (model_to E _ _) as [|e]; cbn; [left; eauto|].
      destruct e; cbn; eauto.
    + destruct e; cbn; eauto.
  - destruct e; cbn; eauto.
Qed.

Lemma loaded_resident (s : service) (model_size : string) :
  resident (loaded s model_size) = true.
Proof. reflexivity. Qed.

(** Line 36 sets [model_loaded] only after the model is in place, so a
    service marked as loaded always holds a model. *)
Lemma load_model_consistent (model_size : string) (w : world) :
  consistent (self w) -> consistent (self (snd (load_model E model_size w))).
Proof.
  intros Hc. run_load.
  destruct (negb (model_loaded (self w)) || is_none (model (self w))) eqn:Hr;
    [|cbn; exact Hc].
  assert (Hl : model_loaded (self w) = false).
  { destruct (model_loaded (self w)) eqn:Hl; [|reflexivity].
    destruct (Hc Hl) as [Hm _]. destruct (model (self w)); [|congruence].
    discriminate Hr. }
  assert (Hoff : forall s, model_loaded s = false -> consistent s).
  { intros s Hs H. congruence. }
  cbn. destruct (processor_from_pretrained E _) as [|e]; cbn.
  - destruct (model_from_pretrained E _) as [|e]; cbn.
    + destruct (model_to E _ _) as [|e]; cbn.
      * intros _. split; discriminate.
      * destruct (is_Exception e); cbn; apply Hoff; exact Hl.
    + destruct (is_Exception e); cbn; apply Hoff; exact Hl.
  - destruct (is_Exception e); cbn; apply Hoff; exact Hl.
Qed.

Lemma init_consistent : consistent (init E).
Proof. intros H. discriminate H. Qed.

Lemma ensure_model_gives_model (w w0 : world) :
  consistent (self w) ->
  ensure_model E w = (Ok Normal, w0) ->
  exists m, model (self w0) = Some m.
Proof.
  intros Hc. unfold ensure_model, bind, gets.
  destruct (model_loaded (self w)) eqn:Hl; cbn [negb].
  - intros H. inversion H; subst.
    destruct (model (self w0)) as [m|] eqn:Hm; [exists m; reflexivity|].
    exfalso. apply (proj1 (Hc Hl)). exact Hm.
  - run_load. rewrite Hl. cbn.
    destruct (processor_from_pretrained E _) as [|e]; cbn;
      [|destruct (is_Exception e); discriminate].
    destruct (model_from_pretrained E _) as [|e]; cbn;
      [|destruct (is_Exception e); discriminate].
    destruct (model_to E _ _) as [|e]; cbn;
      [|destruct (is_Exception e); discriminate].
    intros H. inversion H; subst. cbn. eexists. reflexivity.
Qed.

(** C6, as amended. [load_model] is keyed on residency, not on the size:
    (1) with any model resident it is a no-op that returns [True], whatever
    size is asked for; (2) with none resident it fetches the processor and
    the model [openai/whisper-<size>], moves the model to the device and,
    when these calls succeed, leaves the service loaded and returns [True];
    (3) when one of them raises an [Exception] it returns [False] with
    [model_loaded] as it was, and when one of them raises something that is
    not an [Exception] (a [KeyboardInterrupt], say) that goes through, again
    with [model_loaded] as it was; (4) so after a call that returned [True]
    every further call, for any size, changes nothing. *)
Theorem load_model_keyed_on_residency (model_size : string) (w : world) :
  (resident (self w) = true ->
   load_model E model_size w = (Ok true, w)) /\
  (resident (self w) = false ->
   fetch_succeeds E model_size (device (self w)) = true ->
   load_model E model_size w =
     (Ok true,
      {| fs := fs w; next_tmp := next_tmp w;
         trace := (trace w ++ load_events model_size (device (self w)))%list;
         self := loaded (self w) model_size |})) /\
  (resident (self w) = false ->
   fetch_succeeds E model_size (device (self w)) = false ->
   fetch_interrupted E model_size (device (self w)) = false ->
   fst (load_model E model_size w) = Ok false /\
   model_loaded (self (snd (load_model E model_size w))) =
     model_loaded (self w)) /\
  (resident (self w) = false ->
   fetch_interrupted E model_size (device (self w)) = true ->
   (exists cls msg,
      fst (load_model E model_size w) = Raise (BaseException cls msg)) /\
   model_loaded (self (snd (load_model E model_size w))) =
     model_loaded (self w)) /\
  (forall other_size,
   fst (load_model E model_size w) = Ok true ->
   load_model E other_size (snd (load_model E model_size w)) =
     (Ok true, snd (load_model E model_size w))).
Proof.
  split; [apply load_model_resident|].
  split; [apply load_model_fetches|].
  split.
  { intros Hr Hf Hi.
    destruct (load_model_fails model_size w Hr Hf Hi) as (H1 & H2 & _).
    split; assumption. }
  split.
  { intros Hr Hi.
    destruct (load_model_interrupted model_size w Hr Hi) as (H1 & H2 & _).
    split; assumption. }
  intros other_size Hok.
  destruct (resident (self w)) eqn:Hr.
  - rewrite (load_model_resident model_size w Hr). cbn.
    apply load_model_resident. exact Hr.
  - destruct (fetch_succeeds E model_size (device (self w))) eqn:Hf.
    + rewrite (load_model_fetches model_size w Hr Hf).
      apply load_model_resident. apply loaded_resident.
    + destruct (fetch_interrupted E model_size (device (self w))) eqn:Hi.
      * destruct (load_model_interrupted model_size w Hr Hi)
          as ((cls & msg & H1) & _).
        rewrite H1 in Hok. discriminate.
      * destruct (load_model_fails model_size w Hr Hf Hi) as (H1 & _).
        rewrite H1 in Hok. discriminate.
Qed.

End Facts.

(** C6 as the specification words it fails: with the base model resident, a
    request for the large one fetches nothing and leaves the base model in
    place. *)
Lemma load_model_other_size_is_noop :
  model (self Demo.w_base) =
    Some {| model_name := "openai/whisper-base"; model_device := "cpu" |} /\
  load_model Demo.E_ok "large" Demo.w_base = (Ok true, Demo.w_base) /\
  option_map model_name
    (model (self (snd (load_model Demo.E_ok "large" Demo.w_base))))
    <> Some "openai/whisper-large".
Proof.
  split; [reflexivity|]. split; [reflexivity|].
  cbn. discriminate.
Qed.

Lemma load_model_keyed_on_residency_witness :
  load_model Demo.E_ok "large" Demo.w_base = (Ok true, Demo.w_base) /\
  load_model Demo.E_ok "tiny" Demo.w_fresh =
    (Ok true,
     {| fs := []; next_tmp := 0;
        trace := load_events "tiny" "cpu";
        self := loaded (self Demo.w_fresh) "tiny" |}).
Proof.
  split.
  - apply (proj1 (load_model_keyed_on_residency Demo.E_ok "large" Demo.w_base)).
    reflexivity.
  - apply (proj1 (proj2
             (load_model_keyed_on_residency Demo.E_ok "tiny" Demo.w_fresh)));
      reflexivity.
Defined.

End LoadModelFacts.

(** ** Prompt enhancement *)
Module PromptFacts.
Import Py Prompt Notions.

(** *** Characters *)

Ltac by_cases_on_char c :=
  destruct c as [[] [] [] [] [] [] [] []]; reflexivity.

Lemma lower_char_idem c : lower_char (lower_char c) = lower_char c.
Proof. by_cases_on_char c. Qed.

Lemma upper_char_idem c : upper_char (upper_char c) = upper_char c.
Proof. by_cases_on_char c. Qed.

Lemma lower_upper_char c : lower_char (upper_char c) = lower_char c.
Proof. by_cases_on_char c. Qed.

Lemma lower_keeps_dot : keeps "." lower_char.
Proof. intro c. by_cases_on_char c. Qed.
Lemma lower_keeps_bang : keeps "!" lower_char.
Proof. intro c. by_cases_on_char c. Qed.
Lemma lower_keeps_qmark : keeps "?" lower_char.
Proof. intro c. by_cases_on_char c. Qed.
Lemma upper_keeps_dot : keeps "." upper_char.
Proof. intro c. by_cases_on_char c. Qed.
Lemma upper_keeps_bang : keeps "!" upper_char.
Proof. intro c. by_cases_on_char c. Qed.
Lemma upper_keeps_qmark : keeps "?" upper_char.
Proof. intro c. by_cases_on_char c. Qed.

(** *** Strings *)

Lemma map_chars_empty f s :
  String.eqb (map_chars f s) "" = String.eqb s "".
Proof. destruct s; reflexivity. Qed.

Lemma endswith_char_map p f s :
  keeps p f ->
  endswith (map_chars f s) (String p "") = endswith s (String p "").
Proof.
  intros Hk. induction s as [|a s IH]; [reflexivity|].
  cbn [map_chars endswith String.eqb].
  rewrite Hk, map_chars_empty, IH. reflexivity.
Qed.

Lemma endswith_char_capitalize p s :
  keeps p lower_char -> keeps p upper_char ->
  endswith (capitalize s) (String p "") = endswith s (String p "").
Proof.
  intros Hl Hu. destruct s as [|a s]; [reflexivity|].
  cbn [capitalize endswith String.eqb]. unfold lower.
  rewrite Hu, map_chars_empty, (endswith_char_map p lower_char s Hl).
  reflexivity.
Qed.

Lemma endswith_any_capitalize s :
  endswith_any (capitalize s) sentence_ends = endswith_any s sentence_ends.
Proof.
  unfold endswith_any, sentence_ends. cbn [existsb].
  rewrite (endswith_char_capitalize "." s lower_keeps_dot upper_keeps_dot).
  rewrite (endswith_char_capitalize "!" s lower_keeps_bang upper_keeps_bang).
  rewrite (endswith_char_capitalize "?" s lower_keeps_qmark upper_keeps_qmark).
  reflexivity.
Qed.

Lemma has_keywords_nonempty t :
  has_photography_keywords t = true -> str_truthy t = true.
Proof. destruct t; [discriminate | reflexivity]. Qed.

(** An input that holds a keyword is only capitalised and, if need be,
    closed by a period. *)
Lemma enhance_with_keywords t :
  has_photography_keywords t = true ->
  enhance_voice_prompt t =
    if endswith_any t sentence_ends then capitalize t else capitalize t ++ ".".
Proof.
  intros Hk. unfold enhance_voice_prompt.
  rewrite (has_keywords_nonempty t Hk), Hk. cbn [negb].
  rewrite endswith_any_capitalize.
  destruct (endswith_any t sentence_ends); reflexivity.
Qed.

(** *** Repeated enhancement *)

Lemma lower_idem s : lower (lower s) = lower s.
Proof.
  unfold lower. induction s as [|a s IH]; [reflexivity|].
  cbn. rewrite lower_char_idem, IH. reflexivity.
Qed.

Lemma lower_capitalize s : lower (capitalize s) = lower s.
Proof.
  destruct s as [|a s]; [reflexivity|].
  unfold lower at 1. cbn. rewrite lower_upper_char.
  fold (lower (lower s)). rewrite lower_idem. reflexivity.
Qed.

Lemma capitalize_idem s : capitalize (capitalize s) = capitalize s.
Proof.
  destruct s as [|a s]; [reflexivity|].
  cbn. rewrite upper_char_idem, lower_idem. reflexivity.
Qed.

Lemma lower_app a b : lower (a ++ b) = lower a ++ lower b.
Proof.
  unfold lower. induction a as [|c a IH]; [reflexivity|].
  cbn. rewrite IH. reflexivity.
Qed.

Lemma capitalize_app a b :
  str_truthy a = true -> capitalize (a ++ b) = capitalize a ++ lower b.
Proof.
  destruct a as [|c a]; [discriminate|]. intros _.
  cbn. rewrite lower_app. reflexivity.
Qed.

Lemma startswith_app s t k :
  startswith s k = true -> startswith (s ++ t) k = true.
Proof.
  revert s. induction k as [|c k IH]; intros s H; [reflexivity|].
  destruct s as [|d s]; [discriminate|].
  cbn in *. apply andb_true_iff in H. destruct H as [H1 H2].
  rewrite H1, (IH s H2). reflexivity.
Qed.

Lemma str_in_app_l k s t : str_in k s = true -> str_in k (s ++ t) = true.
Proof.
  induction s as [|d s IH]; intros H.
  - cbn in H. rewrite orb_false_r in H.
    destruct k; [|discriminate]. destruct t; reflexivity.
  - cbn [str_in] in H. apply orb_true_iff in H.
    change (String d s ++ t) with (String d (s ++ t)). cbn [str_in].
    apply orb_true_iff. destruct H as [H|H].
    + left. exact (startswith_app (String d s) t k H).
    + right. exact (IH H).
Qed.

Lemma str_in_app_r k s t : str_in k t = true -> str_in k (s ++ t) = true.
Proof.
  intros H. induction s as [|d s IH]; [exact H|].
  change (String d s ++ t) with (String d (s ++ t)). cbn [str_in].
  rewrite IH. apply orb_true_r.
Qed.

Lemma has_keywords_app_l s t :
  has_photography_keywords s = true -> has_photography_keywords (s ++ t) = true.
Proof.
  unfold has_photography_keywords. rewrite lower_app.
  intros H. apply existsb_exists in H. destruct H as (k & Hin & Hk).
  apply existsb_exists. exists k. split; [exact Hin|].
  apply str_in_app_l. exact Hk.
Qed.

Lemma has_keywords_capitalize s :
  has_photography_keywords (capitalize s) = has_photography_keywords s.
Proof. unfold has_photography_keywords. rewrite lower_capitalize. reflexivity. Qed.

Lemma has_keywords_suffix s :
  has_photography_keywords (s ++ qualifier_suffix) = true.
Proof.
  unfold has_photography_keywords. rewrite lower_app.
  apply existsb_exists. exists "professional". split; [left; reflexivity|].
  apply str_in_app_r. reflexivity.
Qed.

Lemma endswith_app_self s t : endswith (s ++ t) t = true.
Proof.
  induction s as [|d s IH].
  - cbn. destruct t; cbn; [reflexivity|].
    rewrite Ascii.eqb_refl, String.eqb_refl. reflexivity.
  - change (String d s ++ t) with (String d (s ++ t)). cbn [endswith].
    rewrite IH. apply orb_true_r.
Qed.

Lemma ends_with_period s : endswith_any (s ++ ".") sentence_ends = true.
Proof.
  unfold endswith_any, sentence_ends. cbn [existsb].
  rewrite endswith_app_self. reflexivity.
Qed.

Lemma capitalize_nonempty s : str_truthy s = true -> str_truthy (capitalize s) = true.
Proof. destruct s; [discriminate|reflexivity]. Qed.

(** Whatever the input, the output of an enhancement holds a keyword and
    ends a sentence, unless it is empty. *)
Lemma enhance_output t :
  str_truthy t = true ->
  has_photography_keywords (enhance_voice_prompt t) = true /\
  endswith_any (enhance_voice_prompt t) sentence_ends = true.
Proof.
  intros Hne. unfold enhance_voice_prompt. rewrite Hne. cbn [negb].
  set (e := if negb (has_photography_keywords t) then t ++ qualifier_suffix else t).
  assert (He : has_photography_keywords e = true).
  { subst e. destruct (has_photography_keywords t) eqn:Hk; cbn [negb].
    - exact Hk.
    - apply has_keywords_suffix. }
  destruct (endswith_any (capitalize e) sentence_ends) eqn:Hend; cbn [negb].
  - split; [|exact Hend]. rewrite has_keywords_capitalize. exact He.
  - split; [|apply ends_with_period].
    apply has_keywords_app_l. rewrite has_keywords_capitalize. exact He.
Qed.

Lemma capitalize_enhance t :
  capitalize (enhance_voice_prompt t) = enhance_voice_prompt t.
Proof.
  unfold enhance_voice_prompt.
  destruct (str_truthy t) eqn:Hne; cbn [negb]; [|reflexivity].
  set (e := if negb (has_photography_keywords t) then t ++ qualifier_suffix else t).
  assert (He : str_truthy e = true).
  { subst e. destruct (negb (has_photography_keywords t)); [|exact Hne].
    destruct t; [discriminate|reflexivity]. }
  destruct (negb (endswith_any (capitalize e) sentence_ends)).
  - rewrite capitalize_app by (apply capitalize_nonempty; exact He).
    rewrite capitalize_idem. reflexivity.
  - apply capitalize_idem.
Qed.

(** X11. Enhancement is idempotent: enhancing an enhanced prompt changes
    nothing (on ASCII text). *)
Lemma enhance_idempotent t :
  enhance_voice_prompt (enhance_voice_prompt t) = enhance_voice_prompt t.
Proof.
  destruct (str_truthy t) eqn:Hne.
  - destruct (enhance_output t Hne) as [Hk Hend].
    rewrite (enhance_with_keywords _ Hk), Hend. apply capitalize_enhance.
  - destruct t; [reflexivity|discriminate].
Qed.

(** C4. The prompt ["a red sneaker on a table"] holds no photography
    keyword, and its enhancement is the text with its first letter
    capitalised, the qualifier suffix appended and a closing period. *)
Theorem enhance_red_sneaker :
  has_photography_keywords "a red sneaker on a table" = false /\
  enhance_voice_prompt "a red sneaker on a table" =
    "A red sneaker on a table, professional product photography, studio lighting, clean background." /\
  enhance_voice_prompt "a red sneaker on a table" =
    capitalize "a red sneaker on a table" ++ qualifier_suffix ++ ".".
Proof. repeat split; reflexivity. Qed.

(** C5. An input that holds one of the photography keywords, in any case,
    and ends in [.], [!] or [?] gets no qualifier suffix (and no period):
    the enhancement is the input capitalised, nothing appended. *)
Theorem enhance_no_second_suffix (t : string) :
  has_photography_keywords t = true ->
  endswith_any t sentence_ends = true ->
  enhance_voice_prompt t = capitalize t.
Proof.
  intros Hk Hend. rewrite (enhance_with_keywords t Hk), Hend. reflexivity.
Qed.

Lemma enhance_no_second_suffix_witness :
  enhance_voice_prompt
    "A red sneaker on a table, professional product photography, studio lighting, clean background." =
  capitalize
    "A red sneaker on a table, professional product photography, studio lighting, clean background.".
Proof.
  apply (enhance_no_second_suffix
    "A red sneaker on a table, professional product photography, studio lighting, clean background.");
    reflexivity.
Defined.

End PromptFacts.

(** ** Validation of an upload *)
Module ValidationFacts.
Import Py Eff VoiceToImageService Notions WorldFacts.

Lemma str_in_list_In (x : string) (l : list string) :
  str_in_list x l = true <-> In x l.
Proof.
  unfold str_in_list. rewrite existsb_exists. split.
  - intros (y & Hin & Heq). apply String.eqb_eq in Heq. subst. exact Hin.
  - intros Hin. exists x. split; [exact Hin | apply String.eqb_refl].
Qed.

(** The answer of [validate_audio_file] on an upload. *)
Lemma validate_answer (f : upload) (w : world) :
  fst (validate_audio_file (Some f) w) =
    Ok (negb (max_size <? size f)%Z &&
        str_in_list (file_extension f) allowed_extensions).
Proof.
  unfold validate_audio_file.
  destruct (max_size <? size f)%Z; [reflexivity|].
  destruct (str_in_list (file_extension f) allowed_extensions); reflexivity.
Qed.

Lemma validate_rejects (audio_file : option upload) (w : world) :
  to_be_rejected audio_file ->
  exists msgs,
    forallb is_message msgs = true /\
    validate_audio_file audio_file w = (Ok false, with_events w msgs).
Proof.
  destruct audio_file as [f|]; cbn [to_be_rejected].
  - intros H. unfold validate_audio_file.
    destruct (max_size <? size f)%Z eqn:Hs.
    + eexists [_]. split; [|reflexivity]. reflexivity.
    + destruct (str_in_list (file_extension f) allowed_extensions) eqn:He.
      * exfalso. destruct H as [H|H].
        -- apply Z.ltb_ge in Hs. lia.
        -- apply H. apply str_in_list_In. exact He.
      * eexists [_]. split; [|reflexivity]. reflexivity.
  - intros _. exists []. split; [reflexivity|].
    rewrite with_events_nil. reflexivity.
Qed.

(** C3. An upload that is missing, larger than 25 MiB or of an extension
    outside [.wav .mp3 .m4a .flac .ogg] (compared in lower case) is refused
    by [validate_audio_file], and the transcribe handler of the page then
    only writes messages: the model is not loaded, no file is written, the
    audio is not decoded and the session stays as it was. *)
Theorem invalid_upload_rejected {sample : Type} (E : env sample)
    (audio_file : option upload) (clicked : bool) (model_size : string)
    (selected_language : option string) (w : world) (cw : Component.world) :
  to_be_rejected audio_file ->
  (exists msgs,
     forallb is_message msgs = true /\
     validate_audio_file audio_file w = (Ok false, with_events w msgs)) /\
  (exists msgs,
     forallb is_message msgs = true /\
     Component.on_transcribe sample E audio_file clicked model_size
       selected_language cw =
     (Ok tt, {| Component.app := with_events (Component.app cw) msgs;
                Component.state := Component.state cw |})).
Proof.
  intros H. split; [apply validate_rejects; exact H|].
  destruct cw as [a s]. cbn [Component.app Component.state].
  destruct audio_file as [f|].
  - destruct clicked.
    + destruct (validate_rejects (Some f) a H) as (msgs & Hm & Hv).
      exists (msgs ++ [St Error
        "❌ Invalid audio file. Please check the file format and size."])%list.
      split; [apply forallb_app_true; [exact Hm|reflexivity]|].
      unfold Component.on_transcribe, bind, Component.in_app.
      cbn [Component.app Component.state]. rewrite Hv.
      unfold Component.st, Component.in_app, st, log, modify.
      cbn [Component.app Component.state].
      fold (with_events (with_events a msgs)
        [St Error "❌ Invalid audio file. Please check the file format and size."]).
      rewrite with_events_app. reflexivity.
    + exists []. split; [reflexivity|]. rewrite with_events_nil. reflexivity.
  - exists []. split; [reflexivity|]. rewrite with_events_nil. reflexivity.
Qed.

Lemma invalid_upload_rejected_witness :
  (exists msgs,
     forallb is_message msgs = true /\
     validate_audio_file (Some Demo.huge) Demo.w_fresh =
       (Ok false, with_events Demo.w_fresh msgs)) /\
  (exists msgs,
     forallb is_message msgs = true /\
     Component.on_transcribe Z Demo.E_ok (Some Demo.notes) true "base" None
       Demo.page_fresh =
     (Ok tt, {| Component.app := with_events Demo.w_fresh msgs;
                Component.state := Demo.empty_session |})).
Proof.
  split.
  - refine (proj1 (invalid_upload_rejected Demo.E_ok (Some Demo.huge) true
                     "base" None Demo.w_fresh Demo.page_fresh _)).
    left. reflexivity.
  - refine (proj2 (invalid_upload_rejected Demo.E_ok (Some Demo.notes) true
                     "base" None Demo.w_fresh Demo.page_fresh _)).
    right. cbn. intuition discriminate.
Defined.

End ValidationFacts.

(** ** Normalisation of the decoded audio *)
Module NormalizeFacts.
Import Py Eff VoiceToImageService Notions WorldFacts.

Section Facts.
Context {sample : Type} (E : env sample).

Lemma to_mono_averaged (data : ndarray sample) (sr : Z) :
  decoded_shape data ->
  to_mono E {| samples := data; rate := sr |} =
    {| samples := Arr1 (averaged E data); rate := sr |}.
Proof.
  destruct data as [xs|c rows]; cbn [decoded_shape]; intros H.
  - reflexivity.
  - unfold to_mono. cbn.
    destruct c as [|[|c]]; [lia|lia|reflexivity].
Qed.

Lemma normalize_spec (data : ndarray sample) (sr : Z) (w : world) :
  decoded_shape data ->
  (0 < sr)%Z ->
  (sr = 16000%Z ->
   normalize E {| samples := data; rate := sr |} sr w =
     (Ok {| samples := Arr1 (averaged E data); rate := 16000 |}, w)) /\
  (sr <> 16000%Z ->
   forall ys, resample_1d E (averaged E data) sr 16000 = Ok ys ->
   normalize E {| samples := data; rate := sr |} sr w =
     (Ok {| samples := Arr1 ys; rate := 16000 |},
      with_events w [LibrosaResample sr 16000])) /\
  (sr <> 16000%Z ->
   forall e, resample_1d E (averaged E data) sr 16000 = Raise e ->
   normalize E {| samples := data; rate := sr |} sr w =
     (Raise e, with_events w [LibrosaResample sr 16000])).
Proof.
  intros Hshape Hsr. unfold normalize. rewrite (to_mono_averaged data sr Hshape).
  unfold resample_to_16k. repeat split.
  - intros ->. reflexivity.
  - intros Hne ys Hys. apply Z.eqb_neq in Hne. rewrite Hne. cbn [negb].
    unfold librosa_resample, bind, log, modify, lift, ret. cbn. rewrite Hys.
    rewrite Z.mul_comm, Z.div_mul by lia. reflexivity.
  - intros Hne e He. apply Z.eqb_neq in Hne. rewrite Hne. cbn [negb].
    unfold librosa_resample, bind, log, modify, lift, ret. cbn. rewrite He.
    reflexivity.
Qed.

(** Lines 76-104 hand the samples of the signal they are given to the
    processor, with [sampling_rate=16000], and what comes back to the
    model. *)
Lemma feed_model_answer (xs : list sample) (r : Z) (language : option string)
    (w : world) (pr : string) (m : model_handle) :
  processor (self w) = Some pr ->
  model (self w) = Some m ->
  feed_model E {| samples := Arr1 xs; rate := r |} language w =
    (fst (model_answer E m (device (self w)) xs language),
     with_events w (snd (model_answer E m (device (self w)) xs language))).
Proof.
  intros Hp Hm. destruct w as [fs0 n0 tr0 s0]. cbn in Hp, Hm.
  unfold feed_model, model_answer, language_kwarg, with_events,
    bind, gets, log, modify, lift, ret, raise, set_trace.
  cbn. rewrite Hp. cbn.
  destruct (processor_call E (Arr1 xs) 16000) as [feats|e]; cbn;
    [|reflexivity].
  rewrite Hm. cbn.
  destruct (model_generate E m feats _) as [ids|e]; cbn;
    [|repeat rewrite <- app_assoc; reflexivity].
  destruct (batch_decode E ids) as [[|t0 ts]|e]; cbn;
    repeat rewrite <- app_assoc; reflexivity.
Qed.

(** C7. Decoded audio that is mono (one-dimensional) or has two channels or
    more, at a positive sample rate, leaves the normalisation as a
    one-dimensional array at 16 kHz: the frames are averaged over the
    channels; at 16 kHz nothing else is done; at any other rate the averaged
    samples are resampled from that rate to 16000, and the result of the
    resampling is what goes on. And this is what reaches the model: the
    decoding and transcription of lines 66-104 answer what the processor,
    the model and the decoder make of that one-dimensional array, handed
    over with [sampling_rate=16000]; if the resampler raises, so does the
    step, and nothing reaches the processor. *)
Theorem normalize_mono_16k (data : ndarray sample) (sr : Z) (w : world) :
  decoded_shape data ->
  (0 < sr)%Z ->
  (sr = 16000%Z ->
   normalize E {| samples := data; rate := sr |} sr w =
     (Ok {| samples := Arr1 (averaged E data); rate := 16000 |}, w)) /\
  (sr <> 16000%Z ->
   forall ys, resample_1d E (averaged E data) sr 16000 = Ok ys ->
   normalize E {| samples := data; rate := sr |} sr w =
     (Ok {| samples := Arr1 ys; rate := 16000 |},
      with_events w [LibrosaResample sr 16000])) /\
  (sr <> 16000%Z ->
   forall e, resample_1d E (averaged E data) sr 16000 = Raise e ->
   normalize E {| samples := data; rate := sr |} sr w =
     (Raise e, with_events w [LibrosaResample sr 16000])) /\
  (forall (audio_file : upload) (tmp_path : path) (language : option string)
          (pr : string) (m : model_handle),
     sf_read E tmp_path audio_file = Ok (data, sr) ->
     processor (self w) = Some pr ->
     model (self w) = Some m ->
     (sr = 16000%Z ->
      run_model E audio_file tmp_path language w =
        (fst (model_answer E m (device (self w)) (averaged E data) language),
         with_events w
           (SfRead tmp_path ::
            snd (model_answer E m (device (self w)) (averaged E data)
                   language)))) /\
     (sr <> 16000%Z ->
      forall ys, resample_1d E (averaged E data) sr 16000 = Ok ys ->
      run_model E audio_file tmp_path language w =
        (fst (model_answer E m (device (self w)) ys language),
         with_events w
           (SfRead tmp_path :: LibrosaResample sr 16000 ::
            snd (model_answer E m (device (self w)) ys language)))) /\
     (sr <> 16000%Z ->
      forall e, resample_1d E (averaged E data) sr 16000 = Raise e ->
      run_model E audio_file tmp_path language w =
        (Raise e,
         with_events w [SfRead tmp_path; LibrosaResample sr 16000]))).
Proof.
  intros Hshape Hsr.
  destruct (normalize_spec data sr w Hshape Hsr) as (H1 & H2 & H3).
  split; [exact H1|]. split; [exact H2|]. split; [exact H3|].
  intros audio_file tmp_path language pr m Hread Hp Hm.
  assert (Hrun : run_model E audio_file tmp_path language w =
            bind (normalize E {| samples := data; rate := sr |} sr)
                 (fun audio_data => feed_model E audio_data language)
                 (with_events w [SfRead tmp_path])).
  { unfold run_model. unfold bind at 1, log, modify. cbn.
    unfold bind at 1, lift. rewrite Hread. reflexivity. }
  rewrite Hrun. unfold bind.
  destruct (normalize_spec data sr (with_events w [SfRead tmp_path]) Hshape Hsr)
    as (N1 & N2 & N3).
  split; [|split].
  - intros Heq. rewrite (N1 Heq).
    rewrite (feed_model_answer _ _ _ _ pr m) by (cbn; assumption).
    cbn [self with_events set_trace]. rewrite with_events_app. reflexivity.
  - intros Hne ys Hys. rewrite (N2 Hne ys Hys).
    rewrite (feed_model_answer _ _ _ _ pr m) by (cbn; assumption).
    cbn [self with_events set_trace].
    repeat rewrite with_events_app. reflexivity.
  - intros Hne e He. rewrite (N3 Hne e He).
    rewrite with_events_app. reflexivity.
Qed.

End Facts.

Lemma normalize_mono_16k_witness :
  normalize Demo.E_ok
    {| samples := Arr2 2 [[2; 4]; [6; 8]]%Z; rate := 44100 |} 44100 Demo.w_base =
    (Ok {| samples := Arr1 [3; 7]%Z; rate := 16000 |},
     with_events Demo.w_base [LibrosaResample 44100 16000]) /\
  run_model Demo.E_ok Demo.clip Demo.tmp0 None Demo.w_base =
    (fst (model_answer Demo.E_ok Demo.base_model "cpu" [3; 7]%Z None),
     with_events Demo.w_base
       (SfRead Demo.tmp0 :: LibrosaResample 44100 16000 ::
        snd (model_answer Demo.E_ok Demo.base_model "cpu" [3; 7]%Z None))).
Proof.
  split.
  - apply (proj1 (proj2 (normalize_mono_16k Demo.E_ok
                           (Arr2 2 [[2; 4]; [6; 8]]%Z) 44100 Demo.w_base
                           ltac:(cbn; lia) ltac:(lia))));
      [lia | reflexivity].
  - apply (proj1 (proj2 (proj2 (proj2 (proj2
             (normalize_mono_16k Demo.E_ok (Arr2 2 [[2; 4]; [6; 8]]%Z) 44100
                Demo.w_base ltac:(cbn; lia) ltac:(lia))))
             Demo.clip Demo.tmp0 None "openai/whisper-base" Demo.base_model
             eq_refl eq_refl eq_refl)));
      [lia | reflexivity].
Defined.

End NormalizeFacts.

(** ** Background removal *)
Module BackgroundFacts.
Import Py Eff BackgroundService Notions.

(** *** The trace only grows *)

Lemma appends_ret {A} (a : A) : appends (ret a).
Proof. intros w. exists []. cbn. rewrite app_nil_r. reflexivity. Qed.

Lemma appends_raise {A} (e : exn) : appends (@raise world A e).
Proof. intros w. exists []. cbn. rewrite app_nil_r. reflexivity. Qed.

Lemma appends_lift {A} (o : outcome A) : appends (lift o).
Proof. intros w. exists []. cbn. rewrite app_nil_r. reflexivity. Qed.

Lemma appends_log (e : event) : appends (log e).
Proof. intros w. exists [e]. reflexivity. Qed.

Lemma appends_bind {A B} (m : M world A) (k : A -> M world B) :
  appends m -> (forall a, appends (k a)) -> appends (bind m k).
Proof.
  intros Hm Hk w. unfold bind. destruct (Hm w) as (m1 & H1).
  destruct (m w) as [[a|e] w1]; cbn in H1; subst w1.
  - destruct (Hk a (w ++ m1)%list) as (m2 & H2). rewrite H2.
    exists (m1 ++ m2)%list. rewrite app_assoc. reflexivity.
  - exists m1. reflexivity.
Qed.

Lemma appends_try_except {A} (m : M world A) (h : exn -> M world A) :
  appends m -> (forall e, appends (h e)) -> appends (try_except m h).
Proof.
  intros Hm Hh w. unfold try_except. destruct (Hm w) as (m1 & H1).
  destruct (m w) as [[a|e] w1]; cbn in H1; subst w1.
  - exists m1. reflexivity.
  - destruct (is_Exception e); [|exists m1; reflexivity].
    destruct (Hh e (w ++ m1)%list) as (m2 & H2). rewrite H2.
    exists (m1 ++ m2)%list. rewrite app_assoc. reflexivity.
Qed.

Ltac appends_step :=
  lazymatch goal with
  | |- appends (bind _ _) => apply appends_bind; [|intro]
  | |- appends (try_except _ _) => apply appends_try_except; [|intro]
  | |- appends (ret _) => apply appends_ret
  | |- appends (raise _) => apply appends_raise
  | |- appends (lift _) => apply appends_lift
  | |- appends (log _) => apply appends_log
  | |- appends (if ?b then _ else _) => destruct b
  | |- appends (match ?x with _ => _ end) => destruct x
  end.

Lemma appends_post (E : env) url headers data : appends (post E url headers data).
Proof. unfold post. repeat appends_step. Qed.

Lemma appends_raise_for_status url r : appends (raise_for_status url r).
Proof. unfold raise_for_status. repeat appends_step. Qed.

Lemma appends_normalise_result f result :
  (forall v, appends (f v)) -> appends (normalise_result f result).
Proof.
  intros Hf. unfold normalise_result.
  repeat first [apply Hf | appends_step].
Qed.

Lemma appends_fallback (E : env) api_key image_data image_url cm :
  appends (remove_background_fallback E api_key image_data image_url cm).
Proof.
  unfold remove_background_fallback.
  repeat first [ apply appends_post | apply appends_raise_for_status
               | apply appends_normalise_result; intro | appends_step ].
Qed.

Lemma appends_handle_response url r : appends (handle_response url r).
Proof.
  unfold handle_response.
  repeat first [ apply appends_raise_for_status
               | apply appends_normalise_result; intro | appends_step ].
Qed.

Lemma appends_on_error (E : env) api_key image_data image_url cm e :
  appends (on_error E api_key image_data image_url cm e).
Proof.
  unfold on_error. repeat first [apply appends_fallback | appends_step].
Qed.

(** *** The guard *)

(** Without a usable image input the call stops at the guard. *)
Lemma guard_raises (E : env) (api_key : string)
    (image_data image_url : option string) (content_moderation : bool)
    (w : world) :
  opt_truthy image_url = false ->
  opt_truthy image_data = false ->
  remove_background E api_key image_data image_url content_moderation w =
    (Raise (Exception "ValueError"
              "Either image_data or image_url must be provided"), w).
Proof.
  intros Hu Hd. unfold remove_background, request_data, bind.
  rewrite Hu, Hd. reflexivity.
Qed.

Lemma request_data_ok (E : env) (image_data image_url : option string)
    (content_moderation : bool) (w : world) :
  opt_truthy image_url || opt_truthy image_data = true ->
  exists data,
    request_data E image_data image_url content_moderation w = (Ok data, w).
Proof.
  unfold request_data.
  destruct (opt_truthy image_url); [eexists; reflexivity|].
  destruct (opt_truthy image_data); [eexists; reflexivity|discriminate].
Qed.

(** With an image input the first request goes to the removal endpoint. *)
Lemma request_sent (E : env) (api_key : string)
    (image_data image_url : option string) (content_moderation : bool)
    (w : world) :
  opt_truthy image_url || opt_truthy image_data = true ->
  exists data more,
    request_data E image_data image_url content_moderation w = (Ok data, w) /\
    snd (remove_background E api_key image_data image_url content_moderation w) =
      ((w ++ [ Print "Making background removal request to: " (VStr endpoint);
               Print "Headers: " (VDict (headers_of api_key));
               Print "Data keys: " (VList (map (fun kv => VStr (fst kv)) data));
               Post endpoint (headers_of api_key) data ]) ++ more)%list.
Proof.
  intros H.
  destruct (request_data_ok E image_data image_url content_moderation w H)
    as (data & Hdata).
  exists data.
  set (w1 := (w ++ [ Print "Making background removal request to: " (VStr endpoint);
               Print "Headers: " (VDict (headers_of api_key));
               Print "Data keys: " (VList (map (fun kv => VStr (fst kv)) data));
               Post endpoint (headers_of api_key) data ])%list).
  assert (Ha : appends
    (try_except
       (bind (lift (requests_post E endpoint (headers_of api_key) data))
             (fun response => handle_response endpoint response))
       (on_error E api_key image_data image_url content_moderation))).
  { repeat first [ apply appends_handle_response | apply appends_on_error
                 | appends_step ]. }
  destruct (Ha w1) as (more & Hmore).
  exists more. split; [exact Hdata|].
  rewrite <- Hmore.
  unfold remove_background. unfold bind at 1. rewrite Hdata.
  unfold try_except, bind, post, log, modify, w1.
  cbn. repeat rewrite <- app_assoc. reflexivity.
Qed.

(** C10. With [image_data] and [image_url] both [None],
    [remove_background] raises the [ValueError] of its guard and the world
    is as before: nothing was posted. So a request that appears in the trace
    of a call means that one of the two inputs was given; and an input that
    is given (and not empty) does lead to a request to the removal
    endpoint. *)
Theorem remove_background_requires_image (E : env) (api_key : string)
    (image_data image_url : option string) (content_moderation : bool)
    (w : world) :
  (image_data = None -> image_url = None ->
   remove_background E api_key image_data image_url content_moderation w =
     (Raise (Exception "ValueError"
               "Either image_data or image_url must be provided"), w)) /\
  (forall url headers data,
   In (Post url headers data)
      (snd (remove_background E api_key image_data image_url
              content_moderation w)) ->
   ~ In (Post url headers data) w ->
   image_data <> None \/ image_url <> None) /\
  (opt_truthy image_url || opt_truthy image_data = true ->
   exists data more,
     snd (remove_background E api_key image_data image_url
            content_moderation w) =
       ((w ++ [ Print "Making background removal request to: " (VStr endpoint);
                Print "Headers: " (VDict (headers_of api_key));
                Print "Data keys: "
                  (VList (map (fun kv => VStr (fst kv)) data));
                Post endpoint (headers_of api_key) data ]) ++ more)%list).
Proof.
  split; [|split].
  - intros -> ->. apply guard_raises; reflexivity.
  - intros url headers data Hin Hnot.
    destruct image_data as [d|]; [left; discriminate|].
    destruct image_url as [u|]; [right; discriminate|].
    rewrite guard_raises in Hin by reflexivity. contradiction.
  - intros H.
    destruct (request_sent E api_key image_data image_url content_moderation
                w H) as (data & more & _ & Hs).
    exists data, more. exact Hs.
Qed.

Lemma remove_background_requires_image_witness :
  remove_background Demo.http_ok "key" None None false [] =
    (Raise (Exception "ValueError"
              "Either image_data or image_url must be provided"), []) /\
  exists data more,
    snd (remove_background Demo.http_ok "key" None (Some "http://x/cat.png")
           false []) =
      (([] ++ [ Print "Making background removal request to: " (VStr endpoint);
                Print "Headers: " (VDict (headers_of "key"));
                Print "Data keys: "
                  (VList (map (fun kv => VStr (fst kv)) data));
                Post endpoint (headers_of "key") data ]) ++ more)%list.
Proof.
  split.
  - apply (proj1 (remove_background_requires_image Demo.http_ok "key" None None
                    false [])); reflexivity.
  - apply (proj2 (proj2 (remove_background_requires_image Demo.http_ok "key"
                           None (Some "http://x/cat.png") false []))).
    reflexivity.
Defined.

End BackgroundFacts.

(** ** Extraction of the image URL *)
Module ExtractionFacts.
Import Py Eff Component Notions.

(** C8 as the specification words it fails: a payload whose ['result']
    entry matches neither result shape but which also has a ['result_url']
    gives no URL, where trying the shapes in order would find
    ["http://y"]. *)
Lemma result_key_shadows_result_url :
  extract_image_url
    (VDict [ ("result", VList [VDict [("foo", VStr "bar")]]);
             ("result_url", VStr "http://y") ]) = Ok VNone /\
  spec_extract
    [ ("result", VList [VDict [("foo", VStr "bar")]]);
      ("result_url", VStr "http://y") ] = Some (VStr "http://y").
Proof. split; reflexivity. Qed.

Lemma strings_if_true_item0 (us : pyval) :
  strings_if_true us = true ->
  (truthy us = true /\ exists u, first_url us = Some u /\ item0 us = Ok u) \/
  (truthy us = false /\ first_url us = None).
Proof.
  destruct us as [| [] | z | [|c s] | [|[| | | u | |] l] | [|kv d]];
    cbn; intros H; try discriminate; try (right; split; reflexivity).
  - destruct (z =? 0)%Z; [right; split; reflexivity|discriminate].
  - left. split; [reflexivity|]. eexists. split; reflexivity.
Qed.

Lemma is_str_as_url (u : pyval) : is_str u = true -> as_url u = Some u.
Proof. destruct u; cbn; intros H; try discriminate; reflexivity. Qed.

(** The probing of an element of the ['result'] list, on URLs that are
    strings: the first of ['urls'], else ['url']. *)
Lemma urls_then_url_first_match (d : dict) :
  match get "urls" d with Some us => strings_if_true us | None => true end
    = true ->
  match get "url" d with Some u => is_str u | None => true end = true ->
  urls_then_url d =
    Ok (url_or_none
          (match match get "urls" d with
                 | Some us => first_url us
                 | None => None
                 end with
           | Some u => Some u
           | None => match get "url" d with
                     | Some u => as_url u
                     | None => None
                     end
           end)).
Proof.
  intros Hus Hu. unfold urls_then_url.
  assert (Hurl : match get "url" d with Some u => Ok u | None => Ok VNone end =
                 Ok (url_or_none (match get "url" d with
                                  | Some u => as_url u
                                  | None => None
                                  end))).
  { destruct (get "url" d) as [u|]; [|reflexivity].
    rewrite (is_str_as_url u Hu). reflexivity. }
  destruct (get "urls" d) as [us|]; [|exact Hurl].
  destruct (strings_if_true_item0 us Hus) as [(Ht & u & Hf & Hi)|(Ht & Hf)];
    rewrite Ht, Hf.
  - rewrite Hi. reflexivity.
  - exact Hurl.
Qed.

Lemma other_keys_first_match (payload : dict) :
  match get "result_url" payload with Some u => is_str u | None => true end
    = true ->
  match get "url" payload with Some u => is_str u | None => true end = true ->
  match get "result_urls" payload with
  | Some us => strings_if_true us
  | None => true
  end = true ->
  other_keys payload =
    Ok (url_or_none
          (first_match [shape_result_url; shape_url; shape_result_urls_list]
             payload)).
Proof.
  intros H1 H2 H3.
  unfold other_keys, has_key, get_default. cbn [first_match].
  unfold shape_result_url, shape_url, shape_result_urls_list.
  destruct (get "result_url" payload) as [u|].
  { rewrite (is_str_as_url u H1). reflexivity. }
  destruct (get "url" payload) as [u|].
  { rewrite (is_str_as_url u H2). reflexivity. }
  destruct (get "result_urls" payload) as [us|]; [|reflexivity].
  destruct (strings_if_true_item0 us H3) as [(Ht & u & Hf & Hi)|(Ht & Hf)];
    rewrite Ht, Hf; [rewrite Hi|]; reflexivity.
Qed.

(** A ['result'] entry that is true decides alone: the rest of the payload
    is not looked at. *)
Lemma result_entry_decides (payload payload' : dict) (r : pyval) :
  get "result" payload = Some r ->
  get "result" payload' = Some r ->
  truthy r = true ->
  extract_image_url (VDict payload) = extract_image_url (VDict payload').
Proof.
  intros H H' Hr. unfold extract_image_url.
  destruct payload as [|kv l]; [discriminate H|].
  destruct payload' as [|kv' l']; [discriminate H'|].
  cbn [truthy]. rewrite H, H', Hr. reflexivity.
Qed.

(** A ['result'] entry that is an object is probed as the first element of
    a ['result'] list is. *)
Lemma result_object_probed (payload r : dict) :
  get "result" payload = Some (VDict r) ->
  r <> [] ->
  extract_image_url (VDict payload) = urls_then_url r /\
  extract_image_url (VDict payload) =
    extract_image_url (VDict [("result", VList [VDict r])]).
Proof.
  intros H Hr. unfold extract_image_url.
  destruct payload as [|kv l]; [discriminate H|].
  cbn [truthy]. rewrite H.
  destruct r as [|x r']; [congruence|]. cbn. split; reflexivity.
Qed.

(** On the payloads whose ['result'] entry is recognised and whose URLs are
    strings, the probing of the code is the first-match extraction of the
    specification. *)
Lemma extract_refines_first_match (payload : dict) :
  result_recognised payload = true ->
  well_typed payload = true ->
  extract_image_url (VDict payload) = Ok (url_or_none (spec_extract payload)).
Proof.
  unfold result_recognised, well_typed. intros Hr Hl.
  repeat rewrite andb_true_iff in Hl.
  destruct Hl as (((Hl0 & Hl1) & Hl2) & Hl3).
  assert (Hother : other_keys payload =
    Ok (url_or_none
          (first_match [shape_result_url; shape_url; shape_result_urls_list]
             payload))).
  { apply other_keys_first_match; assumption. }
  destruct payload as [|kv payload']; [reflexivity|].
  set (payload := kv :: payload') in *.
  unfold extract_image_url. cbn [truthy].
  unfold spec_extract, shapes_in_priority_order. cbn [first_match].
  unfold shape_result_urls at 1, shape_result_url_item at 1.
  unfold shape_result_urls, shape_result_url_item in Hr.
  destruct (get "result" payload) as [r|]; [|exact Hother].
  destruct r as [| | | |[|first rs]|rd]; cbn [truthy negb orb] in *;
    try exact Hother; try discriminate.
  - destruct b; [discriminate|exact Hother].
  - destruct (z =? 0)%Z; [exact Hother|discriminate].
  - destruct s; [exact Hother|discriminate].
  - destruct first as [| | | | |d]; try discriminate.
    apply andb_true_iff in Hl0. destruct Hl0 as [Hus Hu].
    rewrite (urls_then_url_first_match d Hus Hu).
    destruct (match get "urls" d with
              | Some us => first_url us
              | None => None
              end) as [u|]; [reflexivity|].
    destruct (match get "url" d with
              | Some u => as_url u
              | None => None
              end) as [u|]; [reflexivity|].
    discriminate Hr.
  - destruct rd; [exact Hother|discriminate].
Qed.

(** A ['result'] list whose first element holds no URL ends the probing
    without one, whatever else the payload holds. *)
Lemma result_without_url_shadows (payload : dict) (first : pyval)
    (rest : list pyval) :
  get "result" payload = Some (VList (first :: rest)) ->
  shape_result_urls payload = None ->
  shape_result_url_item payload = None ->
  well_typed payload = true ->
  extract_image_url (VDict payload) = Ok VNone.
Proof.
  unfold shape_result_urls, shape_result_url_item, well_typed.
  intros Hg H1 H2 Hl.
  repeat rewrite andb_true_iff in Hl. destruct Hl as (((Hl & _) & _) & _).
  destruct payload as [|kv payload']; [reflexivity|].
  set (payload := kv :: payload') in *.
  unfold extract_image_url. cbn [truthy].
  rewrite Hg in *. cbn [truthy].
  destruct first as [| | | | |d]; try reflexivity.
  apply andb_true_iff in Hl. destruct Hl as [Hus Hu].
  rewrite (urls_then_url_first_match d Hus Hu).
  destruct (get "urls" d) as [us|]; rewrite ?H1;
    destruct (get "url" d) as [u|]; rewrite ?H2; reflexivity.
Qed.

(** What the generate button reports once the image API has answered. *)
Lemma generation_report (generate_hd_image : string -> string -> outcome pyval)
    (getenv_BRIA_API_KEY : option string) (time_time : Z) (cw : world)
    (key : string) (result v : pyval) :
  let prompt := str_or (voice_enhanced_prompt (state cw))
                       (enhanced_prompt (state cw)) in
  str_truthy prompt = true ->
  opt_str_or (api_key (state cw)) getenv_BRIA_API_KEY = Some key ->
  str_truthy key = true ->
  generate_hd_image prompt key = Ok result ->
  extract_image_url result = Ok v ->
  on_generate generate_hd_image getenv_BRIA_API_KEY time_time true cw =
    (Ok tt,
     if truthy v then
       {| app := with_events (app cw)
            [ V.St V.Spinner "Generating image from your voice description...";
              V.GenerateHdImage prompt key;
              V.St V.Success "✅ Image generated successfully from your voice!" ];
          state := with_image (state cw) v prompt time_time |}
     else
       {| app := with_events (app cw)
            [ V.St V.Spinner "Generating image from your voice description...";
              V.GenerateHdImage prompt key;
              V.St V.Error "❌ Failed to generate image. Please try again." ];
          state := state cw |}).
Proof.
  intros prompt Hp Hk Hkt Hg He. destruct cw as [a s].
  unfold on_generate, bind at 1, gets. cbn [state app] in *.
  fold prompt. rewrite Hp.
  unfold try_except, bind, st, in_app, V.st, V.log, modify, lift, set_state.
  cbn [state app]. rewrite Hk, Hkt. cbn [state app]. rewrite Hg, He.
  destruct (truthy v); cbn [state app]; unfold with_events, V.set_trace; cbn;
    repeat rewrite <- app_assoc; reflexivity.
Qed.

(** C8, as amended. The probing dispatches on the keys that are present.
    (1) On every payload whose URLs are strings and whose ['result'] entry,
    when true, matches one of the two result shapes, the URL found is the
    one of the first matching shape in the order [{result:[{urls}]}],
    [{result:[{url}]}], [{result_url}], [{url}], [{result_urls}]. (2) A
    ['result'] entry that is true decides alone: the keys after it are not
    looked at. (3) So a ['result'] list whose first element holds no URL
    ends the probing without one. (4) A ['result'] entry that is an object
    is probed as the first element of a list is (['urls'] first, then
    ['url']): [{result:{url:z}}] gives [z]. (5) The three payloads of the
    specification give ["http://x/img.png"], ["http://y"] and no URL. (6) A
    probing that ends without a true URL is reported as a failed
    generation. *)
Theorem extract_dispatches_on_keys :
  (forall payload,
     result_recognised payload = true ->
     well_typed payload = true ->
     extract_image_url (VDict payload) =
       Ok (url_or_none (spec_extract payload))) /\
  (forall payload payload' r,
     get "result" payload = Some r ->
     get "result" payload' = Some r ->
     truthy r = true ->
     extract_image_url (VDict payload) = extract_image_url (VDict payload')) /\
  (forall payload first rest,
     get "result" payload = Some (VList (first :: rest)) ->
     shape_result_urls payload = None ->
     shape_result_url_item payload = None ->
     well_typed payload = true ->
     extract_image_url (VDict payload) = Ok VNone) /\
  (forall payload r,
     get "result" payload = Some (VDict r) ->
     r <> [] ->
     extract_image_url (VDict payload) = urls_then_url r /\
     extract_image_url (VDict payload) =
       extract_image_url (VDict [("result", VList [VDict r])])) /\
  (extract_image_url
     (VDict [("result", VList [VDict [("urls", VList [VStr "http://x/img.png"])]])])
     = Ok (VStr "http://x/img.png") /\
   extract_image_url (VDict [("result_url", VStr "http://y")])
     = Ok (VStr "http://y") /\
   extract_image_url (VDict [("foo", VStr "bar")]) = Ok VNone) /\
  (forall generate_hd_image getenv_BRIA_API_KEY time_time cw key result v,
     let prompt := str_or (voice_enhanced_prompt (state cw))
                          (enhanced_prompt (state cw)) in
     str_truthy prompt = true ->
     opt_str_or (api_key (state cw)) getenv_BRIA_API_KEY = Some key ->
     str_truthy key = true ->
     generate_hd_image prompt key = Ok result ->
     extract_image_url result = Ok v ->
     truthy v = false ->
     on_generate generate_hd_image getenv_BRIA_API_KEY time_time true cw =
       (Ok tt,
        {| app := with_events (app cw)
             [ V.St V.Spinner "Generating image from your voice description...";
               V.GenerateHdImage prompt key;
               V.St V.Error "❌ Failed to generate image. Please try again." ];
           state := state cw |})).
Proof.
  split; [exact extract_refines_first_match|].
  split; [exact result_entry_decides|].
  split; [exact result_without_url_shadows|].
  split; [exact result_object_probed|].
  split; [repeat split; reflexivity|].
  intros gen getenv t cw key result v prompt Hp Hk Hkt Hg He Hv.
  rewrite (generation_report gen getenv t cw key result v Hp Hk Hkt Hg He).
  rewrite Hv. reflexivity.
Qed.

Lemma extract_dispatches_on_keys_witness :
  extract_image_url
    (VDict [ ("result", VList [VDict [("urls", VList []); ("url", VStr "http://u")]]);
             ("url", VStr "http://other") ]) = Ok (VStr "http://u") /\
  extract_image_url
    (VDict [ ("result", VList [VDict [("urls", VList [VStr "http://a"])]]);
             ("result_url", VStr "http://y") ]) =
  extract_image_url
    (VDict [ ("result", VList [VDict [("urls", VList [VStr "http://a"])]]) ]) /\
  extract_image_url
    (VDict [ ("result", VList [VInt 3]); ("url", VStr "http://other") ])
    = Ok VNone /\
  extract_image_url
    (VDict [ ("result", VDict [("url", VStr "http://z")]);
             ("result_url", VStr "http://y") ]) = Ok (VStr "http://z") /\
  on_generate (fun _ _ => Ok (VDict [("foo", VStr "bar")])) None 0 true
    Demo.page_ready =
    (Ok tt,
     {| app := with_events Demo.w_base
          [ V.St V.Spinner "Generating image from your voice description...";
            V.GenerateHdImage "A red sneaker." "key";
            V.St V.Error "❌ Failed to generate image. Please try again." ];
        state := Demo.session_ready |}).
Proof.
  destruct extract_dispatches_on_keys as (H1 & H2 & H3 & H4 & _ & H6).
  split; [|split; [|split; [|split]]].
  - apply (H1 [ ("result", VList [VDict [("urls", VList []); ("url", VStr "http://u")]]);
                ("url", VStr "http://other") ]); reflexivity.
  - apply (H2 _ _ (VList [VDict [("urls", VList [VStr "http://a"])]]));
      reflexivity.
  - apply (H3 [ ("result", VList [VInt 3]); ("url", VStr "http://other") ]
              (VInt 3) []); reflexivity.
  - apply (proj1 (H4 [ ("result", VDict [("url", VStr "http://z")]);
                       ("result_url", VStr "http://y") ]
                     [("url", VStr "http://z")] eq_refl
                     ltac:(discriminate))).
  - apply (H6 (fun _ _ => Ok (VDict [("foo", VStr "bar")])) None 0%Z
              Demo.page_ready "key" (VDict [("foo", VStr "bar")]) VNone);
      reflexivity.
Defined.

End ExtractionFacts.

(** ** The multi-method transcription (lines 169-210) *)
Module MultiMethodFacts.
Import Py Eff VoiceToImageService Notions.

Local Arguments String.append : simpl never.

Ltac run_methods :=
  unfold multi_method, attempt_array, attempt_cpu, transcribe_file,
    transcribe_array, model_or_raise, try_except, bind, ret, raise, lift,
    gets, modify, st, log;
  cbn.

(** One more external call, or one more test of an exception, is looked at
    by cases. *)
Ltac next_case :=
  match goal with
  | |- context [model_transcribe_array ?E ?m ?a ?l] =>
      destruct (model_transcribe_array E m a l) as [?r|?e] eqn:?
  | |- context [if is_Exception ?e then _ else _] =>
      destruct (is_Exception e) eqn:?
  | |- context [if is_VNone ?r then _ else _] =>
      destruct (is_VNone r) eqn:?
  | |- context [if cuda_is_available ?E then _ else _] =>
      destruct (cuda_is_available E) eqn:?
  | |- context [model_to ?E ?m ?d] =>
      destruct (model_to E m d) as [?u|?e] eqn:?
  | |- context [model_transcribe_file ?E ?m ?p ?l true] =>
      destruct (model_transcribe_file E m p l true) as [?r|?e] eqn:?
  end; cbn.

Ltac close_trace :=
  eexists; unfold until_array, language_kwarg;
  split;
  [ repeat rewrite <- app_assoc; cbn [app]; reflexivity
  | split; [reflexivity | split; [reflexivity | split; reflexivity]] ].

Section Facts.
Context {sample : Type} (E : env sample).

(** X30. In the multi-method transcription, when the file attempt raises an
    [Exception] and an audio array is at hand, the trace of the statement
    is: events that hold the file attempt and neither an array attempt nor
    a CPU attempt; then the array attempt; then events without a further
    array attempt. So the array is tried exactly once, and a CPU attempt,
    if there is one, comes after it. *)
Theorem array_attempt_exactly_once (p : path) (a : list sample)
    (language : option string) (w : world) (m : model_handle) (e : exn) :
  model (self w) = Some m ->
  model_transcribe_file E m p (language_kwarg language) false = Raise e ->
  is_Exception e = true ->
  exists after,
    trace (snd (multi_method E p (Some a) language w)) =
      (trace w ++ until_array p language e ++
       [TranscribeArray (language_kwarg language)] ++ after)%list /\
    existsb is_file_attempt (until_array p language e) = true /\
    forallb (fun ev => negb (is_array_attempt ev)) (until_array p language e)
      = true /\
    forallb (fun ev => negb (is_cpu_attempt ev)) (until_array p language e)
      = true /\
    forallb (fun ev => negb (is_array_attempt ev)) after = true.
Proof.
  intros Hm Hfile He.
  destruct w as [fs0 n0 t0 s0]. cbn [self] in Hm.
  destruct s0 as [mo pr ml dv]. cbn [model] in Hm. subst mo.
  unfold language_kwarg in Hfile.
  set (lang := if language_given language then language else None) in *.
  run_methods. fold lang. rewrite Hfile. cbn. rewrite He. cbn.
  repeat next_case; close_trace.
Qed.

(** Without an array the second method is skipped. *)
Lemma no_array_no_attempt (p : path) (language : option string) (w : world) :
  forallb (fun ev => negb (is_array_attempt ev))
    (skipn (List.length (trace w))
       (trace (snd (multi_method E p None language w)))) = true.
Proof.
  destruct w as [fs0 n0 t0 s0]. destruct s0 as [mo pr ml dv].
  set (lang := if language_given language then language else None) in *.
  run_methods. fold lang.
  assert (Hskip : forall l : list event,
            skipn (List.length t0) (t0 ++ l) = l).
  { intros l. rewrite skipn_app, Nat.sub_diag, skipn_all. reflexivity. }
  destruct mo as [m|]; cbn.
  - destruct (model_transcribe_file E m p lang false) as [r|e]; cbn.
    + repeat rewrite <- app_assoc. rewrite Hskip. reflexivity.
    + repeat next_case;
        repeat rewrite <- app_assoc; rewrite Hskip; reflexivity.
  - repeat next_case;
      repeat rewrite <- app_assoc; rewrite Hskip; reflexivity.
Qed.


Lemma ends_with_app_r (a b : list event) (x : event) :
  ends_with b x -> ends_with (a ++ b) x.
Proof.
  intros (earlier & ->). exists (a ++ earlier)%list. apply app_assoc.
Qed.





End Facts.

Lemma array_attempt_exactly_once_witness :
  exists after,
    trace (snd (multi_method Demo.E_file_fails Demo.tmp0 (Some [3; 7]%Z) None
                  Demo.w_base)) =
      (trace Demo.w_base ++
       until_array Demo.tmp0 None
         (Exception "RuntimeError" "cannot read the file") ++
       [TranscribeArray (language_kwarg None)] ++ after)%list /\
    existsb is_file_attempt
      (until_array Demo.tmp0 None
         (Exception "RuntimeError" "cannot read the file")) = true /\
    forallb (fun ev => negb (is_array_attempt ev))
      (until_array Demo.tmp0 None
         (Exception "RuntimeError" "cannot read the file")) = true /\
    forallb (fun ev => negb (is_cpu_attempt ev))
      (until_array Demo.tmp0 None
         (Exception "RuntimeError" "cannot read the file")) = true /\
    forallb (fun ev => negb (is_array_attempt ev)) after = true.
Proof.
  apply (array_attempt_exactly_once Demo.E_file_fails Demo.tmp0 [3; 7]%Z None
           Demo.w_base Demo.base_model
           (Exception "RuntimeError" "cannot read the file"));
    reflexivity.
Defined.

End MultiMethodFacts.

(** ** [SpeechToTextService.transcribe] *)
Module SpeechToTextFacts.
Import Py Eff SpeechToTextService Notions SpeechToTextNotions.

Local Arguments String.append : simpl never.

Lemma keeps_fs_ret {A} (a : A) : keeps_fs (ret a).
Proof. intro w. reflexivity. Qed.

Lemma keeps_fs_raise {A} (e : exn) : keeps_fs (@raise world A e).
Proof. intro w. reflexivity. Qed.

Lemma keeps_fs_lift {A} (o : outcome A) : keeps_fs (lift o).
Proof. intro w. reflexivity. Qed.

Lemma keeps_fs_log (e : event) : keeps_fs (log e).
Proof. intro w. reflexivity. Qed.

Lemma keeps_fs_bind {A B} (m : M world A) (k : A -> M world B) :
  keeps_fs m -> (forall a, keeps_fs (k a)) -> keeps_fs (bind m k).
Proof.
  intros Hm Hk w. unfold bind. specialize (Hm w).
  destruct (m w) as [[a|e] w1]; cbn in Hm.
  - rewrite (Hk a w1). exact Hm.
  - exact Hm.
Qed.

Lemma keeps_fs_try_except {A} (m : M world A) (h : exn -> M world A) :
  keeps_fs m -> (forall e, keeps_fs (h e)) -> keeps_fs (try_except m h).
Proof.
  intros Hm Hh w. unfold try_except. specialize (Hm w).
  destruct (m w) as [[a|e] w1]; cbn in Hm.
  - exact Hm.
  - destruct (is_Exception e); [|exact Hm]. rewrite (Hh e w1). exact Hm.
Qed.

Ltac keeps_fs_step :=
  lazymatch goal with
  | |- keeps_fs (bind _ _) => apply keeps_fs_bind; [|intro]
  | |- keeps_fs (try_except _ _) => apply keeps_fs_try_except; [|intro]
  | |- keeps_fs (ret _) => apply keeps_fs_ret
  | |- keeps_fs (raise _) => apply keeps_fs_raise
  | |- keeps_fs (lift _) => apply keeps_fs_lift
  | |- keeps_fs (log _) => apply keeps_fs_log
  | |- keeps_fs (print _) => apply keeps_fs_log
  end.

Lemma str_in_list_filter (x : string) (l : list string) :
  str_in_list x (filter (fun q => negb (String.eqb x q)) l) = false.
Proof.
  unfold str_in_list. induction l as [|q l IH]; [reflexivity|].
  cbn [filter]. destruct (String.eqb x q) eqn:Hq; cbn [negb existsb].
  - exact IH.
  - rewrite Hq, IH. reflexivity.
Qed.

(** The file handed to [transcribe] is removed on the way out, whether the
    transcription succeeded or raised, provided [os.remove] does not fail;
    when it fails, a warning is printed and the file stays. *)
Lemma transcribe_removes (E : env) (audio_path : string) (w : world) :
  str_in_list audio_path (fs w) = true ->
  fs (snd (transcribe E audio_path w)) =
    match os_remove E audio_path with
    | Ok _ => filter (fun q => negb (String.eqb audio_path q)) (fs w)
    | Raise _ => fs w
    end.
Proof.
  intros Hin. unfold transcribe.
  unfold bind at 1, print at 1, log at 1, modify.
  unfold bind at 1, exists_ at 1, gets. cbn [fs]. rewrite Hin. cbn [negb].
  unfold bind at 1, print at 1, log at 1, modify.
  unfold try_finally.
  match goal with
  | |- context [try_except ?body ?h ?w0] =>
      assert (Hk : keeps_fs (try_except body h));
      [ repeat keeps_fs_step |];
      specialize (Hk w0); destruct (try_except body h w0) as [o w1]
  end.
  cbn in Hk.
  unfold try_except, bind, exists_, gets, remove, log, modify, lift, print.
  rewrite Hk, Hin.
  destruct (os_remove E audio_path) as [[]|e]; cbn;
    [|destruct (is_Exception e); cbn]; rewrite Hk; reflexivity.
Qed.

(** Lines 36-58 on a file that is there: the guarded transcription, then
    the removal; a removal that fails with an [Exception] is announced by a
    warning and changes nothing else, the outcome least of all. *)
Lemma transcribe_on_file (E : env) (audio_path : string) (w : world) :
  str_in_list audio_path (fs w) = true ->
  fs (snd (try_except (body E audio_path) wrap (started E audio_path w))) =
    fs w /\
  transcribe E audio_path w =
    match os_remove E audio_path with
    | Ok _ =>
        (fst (try_except (body E audio_path) wrap (started E audio_path w)),
         cleaned_up audio_path
           (snd (try_except (body E audio_path) wrap
                   (started E audio_path w))))
    | Raise e =>
        if is_Exception e then
          (fst (try_except (body E audio_path) wrap (started E audio_path w)),
           warned audio_path e
             (snd (try_except (body E audio_path) wrap
                     (started E audio_path w))))
        else
          (Raise e,
           {| fs := fs w;
              trace :=
                (trace (snd (try_except (body E audio_path) wrap
                               (started E audio_path w))) ++
                 [Remove audio_path])%list |})
    end.
Proof.
  intros Hin.
  assert (Hk : keeps_fs (try_except (body E audio_path) wrap)).
  { unfold body, wrap. repeat keeps_fs_step. }
  specialize (Hk (started E audio_path w)). cbn [started fs] in Hk.
  split; [exact Hk|].
  unfold transcribe.
  unfold bind at 1, print at 1, log at 1, modify.
  unfold bind at 1, exists_ at 1, gets. cbn [fs]. rewrite Hin. cbn [negb].
  unfold bind at 1, print at 1, log at 1, modify.
  unfold try_finally.
  match goal with
  | |- context [try_except ?b ?h ?w0] =>
      change (try_except b h w0)
        with (try_except (body E audio_path) wrap (started E audio_path w))
  end.
  destruct (try_except (body E audio_path) wrap (started E audio_path w))
    as [o w1].
  cbn [fst snd] in *.
  unfold try_except, bind, exists_, gets, remove, log, modify, lift, print,
    cleaned_up, warned.
  cbn [fs trace]. rewrite Hk, Hin.
  destruct (os_remove E audio_path) as [[]|e]; cbn.
  - rewrite Hk. rewrite <- app_assoc. reflexivity.
  - destruct (is_Exception e); cbn; rewrite ?Hk;
      rewrite <- ?app_assoc; reflexivity.
Qed.

End SpeechToTextFacts.

(** ** [transcribe_audio] *)
Module TranscribeFacts.
Import Py Eff VoiceToImageService Notions ServiceNotions WorldFacts
  MultiMethodFacts.

Local Arguments String.append : simpl never.

Lemma path_eqb_refl (p : path) : path_eqb p p = true.
Proof.
  unfold path_eqb. rewrite Nat.eqb_refl, String.eqb_refl. reflexivity.
Qed.

Lemma without_not_on_disk (p : path) (w : world) : on_disk p (without p w) = false.
Proof.
  unfold on_disk, without, set_fs. cbn [fs].
  induction (fs w) as [|q l IH]; [reflexivity|].
  cbn [filter]. destruct (path_eqb p q) eqn:Hq; cbn [negb existsb].
  - exact IH.
  - rewrite Hq, IH. reflexivity.
Qed.

Lemma on_disk_with_events (p : path) (w : world) (evs : list event) :
  on_disk p (with_events w evs) = on_disk p w.
Proof. reflexivity. Qed.

Section Facts.
Context {sample : Type} (E : env sample).

(** *** The first statement never lets the function go on *)

Lemma ensure_model_loaded (w : world) :
  model_loaded (self w) = true -> ensure_model E w = (Ok Normal, w).
Proof.
  intros H. unfold ensure_model, bind, gets. rewrite H. reflexivity.
Qed.

Lemma hf_attempt_no_fallthrough (audio_file : upload)
    (language : option string) (w : world) :
  fst (hf_attempt E audio_file language w) <> Ok Normal.
Proof.
  unfold hf_attempt. unfold bind at 1.
  destruct (save_upload E audio_file w) as [[p|e] w1]; [|discriminate].
  unfold try_finally, bind.
  destruct (run_model E audio_file p language w1) as [[r|e] w2];
    unfold ret; destruct (cleanup E p w2) as [[u|e'] w3]; discriminate.
Qed.

Lemma transcribe_hf_no_fallthrough (audio_file : upload)
    (language : option string) (w : world) :
  fst (transcribe_hf E audio_file language w) <> Ok Normal.
Proof.
  unfold transcribe_hf, try_except.
  pose proof (hf_attempt_no_fallthrough audio_file language w) as H.
  destruct (hf_attempt E audio_file language w) as [[[|r]|e] w1]; cbn in *.
  - congruence.
  - discriminate.
  - destruct (is_Exception e); discriminate.
Qed.

(** X2. Lines 116-231 of [transcribe_audio] are never reached: whatever
    statement follows the first [try], the function behaves the same. *)
Lemma rest_is_unreachable (rest rest' : M world (completion result))
    (audio_file : upload) (language : option string) (w : world) :
  transcribe_audio_then E rest audio_file language w =
  transcribe_audio_then E rest' audio_file language w.
Proof.
  unfold transcribe_audio_then, seq. unfold bind at 1 3.
  destruct (ensure_model E w) as [[[|r]|e] w0]; try reflexivity.
  unfold bind.
  pose proof (transcribe_hf_no_fallthrough audio_file language w0) as Hr.
  destruct (transcribe_hf E audio_file language w0) as [[[|r]|e] w1];
    cbn in Hr; [congruence|reflexivity|reflexivity].
Qed.

Lemma transcribe_audio_is_hf (audio_file : upload) (language : option string)
    (w w0 : world) :
  ensure_model E w = (Ok Normal, w0) ->
  transcribe_audio E audio_file language w =
  transcribe_hf E audio_file language w0.
Proof.
  intros H0. unfold transcribe_audio, transcribe_audio_then, seq.
  unfold bind at 1. rewrite H0. unfold bind.
  pose proof (transcribe_hf_no_fallthrough audio_file language w0) as Hr.
  destruct (transcribe_hf E audio_file language w0) as [[[|r]|e] w1];
    cbn in Hr; [congruence|reflexivity|reflexivity].
Qed.

(** *** What the attempt shows on the page *)











(** *** Failure of the attempt *)


Lemma successful_attempt_returned (audio_file : upload)
    (language : option string) (w w0 w1 : world) (c : completion result) :
  ensure_model E w = (Ok Normal, w0) ->
  hf_attempt E audio_file language w0 = (Ok c, w1) ->
  transcribe_audio E audio_file language w = (Ok c, w1).
Proof.
  intros H0 H1. rewrite (transcribe_audio_is_hf audio_file language w w0 H0).
  unfold transcribe_hf, try_except. rewrite H1. reflexivity.
Qed.

(** *** The temporary file *)

Lemma save_upload_ok (audio_file : upload) (w0 w1 : world) (p : path) :
  save_upload E audio_file w0 = (Ok p, w1) ->
  p = {| tmp_id := next_tmp w0;
         tmp_suffix := snd (splitext (name audio_file)) |} /\
  w1 = {| fs := p :: fs w0; next_tmp := S (next_tmp w0);
          trace := (trace w0 ++ [TmpCreate p; TmpWrite p (size audio_file)])%list;
          self := self w0 |}.
Proof.
  unfold save_upload, named_temporary_file, bind, lift, gets, modify, log, ret.
  destruct (tmp_create E _); [|discriminate]. cbn.
  destruct (tmp_write E _ audio_file); [|discriminate].
  intros H. inversion H; subst. split; [reflexivity|].
  unfold set_trace, set_fs, set_next_tmp. cbn.
  rewrite <- app_assoc. reflexivity.
Qed.

(** Lines 107-111 never raise: the bare [except] takes everything. *)
Lemma cleanup_never_raises (p : path) (w : world) :
  fst (cleanup E p w) = Ok tt.
Proof.
  unfold cleanup, try_except_all.
  destruct (unlink E p w) as [[[]|e] w1]; reflexivity.
Qed.

Lemma cleanup_spec (p : path) (w : world) :
  on_disk p w = true ->
  cleanup E p w =
    (Ok tt,
     match os_unlink E p with
     | Ok _ => without p (with_events w [Unlink p])
     | Raise _ => with_events w [Unlink p]
     end).
Proof.
  intros H. unfold cleanup, unlink, try_except_all, bind, log, modify, exists_,
    gets, lift, ret.
  cbn. unfold on_disk in H. rewrite H.
  destruct (os_unlink E p) as [[]|e]; reflexivity.
Qed.

Lemma hf_attempt_cleans (audio_file : upload) (language : option string)
    (w0 w1 : world) (p : path) :
  save_upload E audio_file w0 = (Ok p, w1) ->
  exists evs,
    forallb leaves_files evs = true /\
    snd (hf_attempt E audio_file language w0) =
      match os_unlink E p with
      | Ok _ => without p (with_events w1 (evs ++ [Unlink p]))
      | Raise _ => with_events w1 (evs ++ [Unlink p])
      end.
Proof.
  intros Hs. destruct (save_upload_ok audio_file w0 w1 p Hs) as [Hp Hw1].
  unfold hf_attempt. unfold bind at 1. rewrite Hs. unfold try_finally.
  assert (Hl : logs_only leaves_files
            (bind (run_model E audio_file p language)
                  (fun r => ret (Return r)))).
  { apply logs_only_bind; [apply logs_only_run_model|intro; apply logs_only_ret]. }
  destruct (Hl w1) as (evs & Pevs & Hsnd).
  destruct (bind (run_model E audio_file p language)
                 (fun r => ret (Return r)) w1) as [o w2].
  cbn in Hsnd. subst w2. exists evs. split; [exact Pevs|].
  rewrite cleanup_spec.
  - destruct (os_unlink E p); cbn [snd]; rewrite with_events_app; reflexivity.
  - rewrite on_disk_with_events. rewrite Hw1. unfold on_disk. cbn.
    rewrite path_eqb_refl. reflexivity.
Qed.

(** What the attempt comes to is decided by lines 66-104 alone: the unlink
    of the [finally] clause does not show in it. *)
Lemma hf_attempt_result (audio_file : upload) (language : option string)
    (w0 w1 : world) (p : path) :
  save_upload E audio_file w0 = (Ok p, w1) ->
  fst (hf_attempt E audio_file language w0) =
    match fst (run_model E audio_file p language w1) with
    | Ok r => Ok (Return r)
    | Raise e => Raise e
    end.
Proof.
  intros Hs. unfold hf_attempt. unfold bind at 1. rewrite Hs.
  unfold try_finally, bind, ret.
  destruct (run_model E audio_file p language w1) as [[r|e] w2]; cbn [fst];
    pose proof (cleanup_never_raises p w2) as Hc;
    destruct (cleanup E p w2) as [[[]|e'] w3]; cbn in Hc;
    try discriminate Hc; reflexivity.
Qed.


(** Lines 54-56 go on, return the failure of the load, or let through an
    exception that is not an [Exception]. *)
Lemma ensure_model_outcome (w : world) :
  fst (ensure_model E w) = Ok Normal \/
  fst (ensure_model E w) =
    Ok (Return ("", [("error", VStr "Failed to load Whisper model")])) \/
  (exists cls msg,
     fst (ensure_model E w) = Raise (BaseException cls msg)).
Proof.
  unfold ensure_model, bind, gets.
  destruct (model_loaded (self w)); cbn [negb]; [left; reflexivity|].
  destruct (LoadModelFacts.load_model_outcome E "base" w)
    as [(b & Hb)|(cls & msg & Hb)];
    destruct (load_model E "base" w) as [o w1]; cbn in Hb; subst o.
  - destruct b; cbn; [left; reflexivity|right; left; reflexivity].
  - right. right. exists cls, msg. reflexivity.
Qed.

(** A text that is not empty is the result of an attempt that succeeded. *)
Lemma nonempty_text_from_attempt (audio_file : upload)
    (language : option string) (w : world) (r : result) (w' : world) :
  transcribe_audio E audio_file language w = (Ok (Return r), w') ->
  fst r <> "" ->
  exists w0,
    ensure_model E w = (Ok Normal, w0) /\
    hf_attempt E audio_file language w0 = (Ok (Return r), w').
Proof.
  intros H Hne.
  assert (Hseq : forall o w0,
            ensure_model E w = (o, w0) -> o <> Ok Normal ->
            fst (transcribe_audio E audio_file language w) = o).
  { intros o w0 H0 Ho. unfold transcribe_audio, transcribe_audio_then, seq.
    unfold bind at 1. rewrite H0.
    destruct o as [[|r0]|e]; [congruence|reflexivity|reflexivity]. }
  destruct (ensure_model E w) as [o w0] eqn:H0.
  destruct (ensure_model_outcome w) as [Ho|[Ho|(cls & msg & Ho)]];
    rewrite H0 in Ho; cbn in Ho; subst o.
  - exists w0. split; [reflexivity|].
    rewrite (transcribe_audio_is_hf audio_file language w w0 H0) in H.
    unfold transcribe_hf, try_except in H.
    destruct (hf_attempt E audio_file language w0) as [[c|e] w1].
    + inversion H; subst. reflexivity.
    + destruct (is_Exception e); [|discriminate H].
      inversion H; subst. cbn in Hne. congruence.
  - exfalso. rewrite H in Hseq.
    specialize (Hseq _ _ eq_refl ltac:(discriminate)). cbn in Hseq.
    inversion Hseq; subst. cbn in Hne. congruence.
  - exfalso. rewrite H in Hseq.
    specialize (Hseq _ _ eq_refl ltac:(discriminate)). cbn in Hseq.
    discriminate Hseq.
Qed.


(** C9, as amended. Once the upload has been written to its temporary file
    [p]: (1) [transcribe_audio] ends after events that touch no file
    followed by one attempt to unlink [p], on whatever path the processing
    took; (2) what it returns is decided by the processing of lines 66-104
    alone, so that an exception of [os.unlink] does not show in it: it is
    swallowed; (3) when the unlink succeeds [p] is no longer on disk and (4)
    when it raises [p] stays. (5) [SpeechToTextService.transcribe] removes
    the file it is given on the way out, whatever the transcription came
    to, and says so; when [os.remove] raises an [Exception] it prints the
    warning of line 58, the file stays, and the outcome of the
    transcription is kept. *)
Theorem temp_file_unlinked_after_write (audio_file : upload)
    (language : option string) (w w0 w1 : world) (p : path) :
  ensure_model E w = (Ok Normal, w0) ->
  save_upload E audio_file w0 = (Ok p, w1) ->
  (exists evs,
     forallb leaves_files evs = true /\
     snd (transcribe_audio E audio_file language w) =
       match os_unlink E p with
       | Ok _ => without p (with_events w1 (evs ++ [Unlink p]))
       | Raise _ => with_events w1 (evs ++ [Unlink p])
       end) /\
  fst (transcribe_audio E audio_file language w) =
    match fst (run_model E audio_file p language w1) with
    | Ok r => Ok (Return r)
    | Raise e =>
        if is_Exception e then
          Ok (Return ("", [("error",
                VStr ("Error during transcription: " ++ exn_str e))]))
        else Raise e
    end /\
  (forall u, os_unlink E p = Ok u ->
     on_disk p (snd (transcribe_audio E audio_file language w)) = false) /\
  (forall e, os_unlink E p = Raise e ->
     on_disk p (snd (transcribe_audio E audio_file language w)) = true) /\
  (forall (ES : SpeechToTextService.env) (audio_path : string)
          (sw : SpeechToTextService.world),
     str_in_list audio_path (SpeechToTextService.fs sw) = true ->
     let guarded :=
       try_except (SpeechToTextNotions.body ES audio_path)
         SpeechToTextNotions.wrap
         (SpeechToTextNotions.started ES audio_path sw) in
     SpeechToTextService.fs (snd guarded) = SpeechToTextService.fs sw /\
     (forall u,
        SpeechToTextService.os_remove ES audio_path = Ok u ->
        SpeechToTextService.transcribe ES audio_path sw =
          (fst guarded,
           SpeechToTextNotions.cleaned_up audio_path (snd guarded))) /\
     (forall e,
        SpeechToTextService.os_remove ES audio_path = Raise e ->
        is_Exception e = true ->
        SpeechToTextService.transcribe ES audio_path sw =
          (fst guarded,
           SpeechToTextNotions.warned audio_path e (snd guarded)))).
Proof.
  intros H0 Hs.
  destruct (hf_attempt_cleans audio_file language w0 w1 p Hs)
    as (evs & Pevs & Hsnd).
  pose proof (hf_attempt_result audio_file language w0 w1 p Hs) as Hfst.
  assert (Hta : snd (transcribe_audio E audio_file language w) =
       match os_unlink E p with
       | Ok _ => without p (with_events w1 (evs ++ [Unlink p]))
       | Raise _ => with_events w1 (evs ++ [Unlink p])
       end).
  { rewrite (transcribe_audio_is_hf audio_file language w w0 H0).
    unfold transcribe_hf, try_except. rewrite <- Hsnd.
    destruct (hf_attempt E audio_file language w0) as [[c|e] w2];
      [reflexivity|]. destruct (is_Exception e); reflexivity. }
  split; [exists evs; split; [exact Pevs|exact Hta]|].
  split.
  { rewrite (transcribe_audio_is_hf audio_file language w w0 H0).
    unfold transcribe_hf, try_except.
    destruct (hf_attempt E audio_file language w0) as [[c|e] w2];
      cbn [fst] in Hfst;
      destruct (fst (run_model E audio_file p language w1)) as [r|e'];
      try discriminate Hfst.
    - inversion Hfst; subst. reflexivity.
    - inversion Hfst; subst e'. destruct (is_Exception e); reflexivity. }
  split; [|split].
  - intros u Hu. rewrite Hta, Hu. apply without_not_on_disk.
  - intros e He. rewrite Hta, He.
    rewrite on_disk_with_events.
    destruct (save_upload_ok audio_file w0 w1 p Hs) as [_ ->].
    unfold on_disk. cbn. rewrite path_eqb_refl. reflexivity.
  - intros ES audio_path sw Hin guarded.
    destruct (SpeechToTextFacts.transcribe_on_file ES audio_path sw Hin)
      as [Hfs Htr].
    fold guarded in Hfs, Htr.
    split; [exact Hfs|]. split.
    + intros u Hu. rewrite Htr, Hu. reflexivity.
    + intros e He Hex. rewrite Htr, He, Hex. reflexivity.
Qed.

End Facts.


(** The write to the temporary file is outside the [try] whose [finally]
    unlinks it: when the write raises, the file that was created stays. *)
Lemma failed_write_leaves_file :
  transcribe_audio Demo.E_disk_full Demo.clip None Demo.w_base =
    (Ok (Return ("", [("error",
           VStr "Error during transcription: No space left on device")])),
     {| fs := [{| tmp_id := 0; tmp_suffix := ".WAV" |}];
        next_tmp := 1;
        trace := [ TmpCreate {| tmp_id := 0; tmp_suffix := ".WAV" |};
                   TmpWrite {| tmp_id := 0; tmp_suffix := ".WAV" |} 2048 ];
        self := Demo.whisper_base |}).
Proof. reflexivity. Qed.


(** C9 as the specification words it fails: when [os.unlink] is refused the
    exception is swallowed and the temporary file of the request is still
    on disk when [transcribe_audio] returns. *)
Lemma refused_unlink_leaves_file :
  fs Demo.w_base = [] /\
  fst (transcribe_audio Demo.E_unlink_refused Demo.clip None Demo.w_base) =
    Ok (Return ("a red sneaker on a table",
                [ ("language", VStr "auto-detected");
                  ("model", VStr "openai/whisper");
                  ("device", VStr "cpu") ])) /\
  fs (snd (transcribe_audio Demo.E_unlink_refused Demo.clip None Demo.w_base)) =
    [{| tmp_id := 0; tmp_suffix := ".WAV" |}].
Proof. repeat split; reflexivity. Qed.


Lemma temp_file_unlinked_after_write_witness :
  on_disk {| tmp_id := 0; tmp_suffix := ".WAV" |}
    (snd (transcribe_audio Demo.E_generate_fails Demo.clip None Demo.w_base))
    = false.
Proof.
  refine (proj1 (proj2 (proj2
            (temp_file_unlinked_after_write Demo.E_generate_fails
               Demo.clip None Demo.w_base Demo.w_base
               (snd (save_upload Demo.E_generate_fails Demo.clip Demo.w_base))
               {| tmp_id := 0; tmp_suffix := ".WAV" |} _ _))) tt _);
    reflexivity.
Defined.

End TranscribeFacts.

(** ** Further properties: upload validation *)
Module ValidationProps.
Import Py Eff VoiceToImageService Notions WorldFacts ValidationFacts.

(** X7. An upload is accepted exactly when it is at most 25 MiB and its
    extension, in lower case, is one of the allowed ones; an accepted upload
    leaves no message. *)
Theorem validate_accepts_exactly (f : upload) (w : world) :
  validate_audio_file (Some f) w = (Ok true, w) <->
  (size f <= max_size)%Z /\ In (file_extension f) allowed_extensions.
Proof.
  unfold validate_audio_file. split.
  - destruct (max_size <? size f)%Z eqn:Hs; [intros H; discriminate H|].
    destruct (str_in_list (file_extension f) allowed_extensions) eqn:He;
      [|intros H; discriminate H].
    intros _. split; [apply Z.ltb_ge; exact Hs|apply str_in_list_In; exact He].
  - intros [Hs He]. apply Z.ltb_ge in Hs. apply str_in_list_In in He.
    rewrite Hs, He. reflexivity.
Qed.

Lemma no_dot_rfind (s : string) (i found : Z) :
  str_in "." s = false -> rfind_from "." s i found = found.
Proof.
  revert i found. induction s as [|a s IH]; intros i found H; [reflexivity|].
  cbn [str_in startswith] in H. apply orb_false_iff in H. destruct H as [H1 H2].
  rewrite andb_true_r in H1. cbn [rfind_from].
  rewrite Ascii.eqb_sym, H1. apply IH. exact H2.
Qed.

Lemma rfind_from_lower_bound (c : ascii) (s : string) (i found : Z) :
  (-1 <= found)%Z -> (0 <= i)%Z -> (-1 <= rfind_from c s i found)%Z.
Proof.
  revert i found. induction s as [|a s IH]; intros i found Hf Hi; [exact Hf|].
  cbn [rfind_from]. apply IH; [|lia].
  destruct (Ascii.eqb a c); lia.
Qed.

Lemma no_dot_no_extension (p : string) :
  str_in "." p = false -> splitext p = (p, "").
Proof.
  intros H. unfold splitext, rfind. rewrite (no_dot_rfind p 0 (-1) H).
  pose proof (rfind_from_lower_bound "/" p 0 (-1) ltac:(lia) ltac:(lia)) as Hl.
  destruct (rfind_from "/" p 0 (-1) <? -1)%Z eqn:Hc; [|reflexivity].
  apply Z.ltb_lt in Hc. lia.
Qed.

(** X8. A file name without a dot has no extension and is refused, whatever
    its size. *)
Theorem name_without_dot_rejected (f : upload) (w : world) :
  str_in "." (name f) = false ->
  fst (validate_audio_file (Some f) w) = Ok false.
Proof.
  intros H. rewrite validate_answer. unfold file_extension.
  rewrite (no_dot_no_extension (name f) H). cbn.
  rewrite andb_false_r. reflexivity.
Qed.

Lemma name_without_dot_rejected_witness :
  fst (validate_audio_file
         (Some {| name := "recording"; type := "audio/wav"; size := 10 |})
         Demo.w_fresh) = Ok false.
Proof.
  apply (name_without_dot_rejected
           {| name := "recording"; type := "audio/wav"; size := 10 |}
           Demo.w_fresh).
  reflexivity.
Defined.

Lemma validate_accepts_exactly_witness :
  validate_audio_file (Some Demo.clip) Demo.w_base = (Ok true, Demo.w_base).
Proof.
  apply (proj2 (validate_accepts_exactly Demo.clip Demo.w_base)).
  split; [vm_compute; discriminate | cbn; auto].
Defined.

End ValidationProps.

(** ** Further properties: prompt enhancement *)
Module PromptProps.
Import Py Prompt Notions PromptFacts.

Lemma str_app_assoc (a b c : string) : (a ++ b) ++ c = a ++ (b ++ c).
Proof. induction a as [|d a IH]; [reflexivity|]. cbn. rewrite IH. reflexivity. Qed.

Lemma app_not_empty (a b : string) :
  str_truthy b = true -> String.eqb (a ++ b) "" = false.
Proof. destruct a; destruct b; try discriminate; reflexivity. Qed.

Lemma endswith_char_app (a b : string) (c : ascii) :
  str_truthy b = true ->
  endswith (a ++ b) (String c "") = endswith b (String c "").
Proof.
  intros Hb. induction a as [|d a IH]; [reflexivity|].
  change (String d a ++ b) with (String d (a ++ b)).
  cbn [endswith String.eqb]. rewrite (app_not_empty a b Hb).
  destruct (Ascii.eqb d c); exact IH.
Qed.

(** X9. A prompt without any of the keywords always gets the qualifier suffix
    and a closing period, also when the prompt itself already ends in
    punctuation. *)
Theorem enhance_without_keywords (t : string) :
  str_truthy t = true ->
  has_photography_keywords t = false ->
  enhance_voice_prompt t = capitalize t ++ qualifier_suffix ++ ".".
Proof.
  intros Hne Hk. unfold enhance_voice_prompt. rewrite Hne, Hk. cbn [negb].
  rewrite (capitalize_app t qualifier_suffix Hne).
  change (lower qualifier_suffix) with qualifier_suffix.
  assert (Hend : endswith_any (capitalize t ++ qualifier_suffix) sentence_ends
                 = false).
  { unfold endswith_any, sentence_ends. cbn [existsb].
    rewrite !endswith_char_app by reflexivity. reflexivity. }
  rewrite Hend. cbn [negb].
  apply str_app_assoc.
Qed.

Lemma lower_char_ascii c :
  Nat.ltb (nat_of_ascii (lower_char c)) 128 = Nat.ltb (nat_of_ascii c) 128.
Proof. by_cases_on_char c. Qed.

Lemma upper_char_ascii c :
  Nat.ltb (nat_of_ascii (upper_char c)) 128 = Nat.ltb (nat_of_ascii c) 128.
Proof. by_cases_on_char c. Qed.

Lemma isascii_lower s : isascii (lower s) = isascii s.
Proof.
  unfold lower. induction s as [|c s IH]; [reflexivity|].
  cbn [map_chars isascii]. rewrite lower_char_ascii, IH. reflexivity.
Qed.

Lemma isascii_capitalize s : isascii (capitalize s) = isascii s.
Proof.
  destruct s as [|c s]; [reflexivity|].
  cbn [capitalize isascii]. rewrite upper_char_ascii, isascii_lower.
  reflexivity.
Qed.

Lemma isascii_app a b : isascii (a ++ b) = isascii a && isascii b.
Proof.
  induction a as [|c a IH]; [reflexivity|].
  cbn [String.append isascii]. rewrite IH, andb_assoc. reflexivity.
Qed.

Lemma isascii_enhance t :
  isascii t = true -> isascii (enhance_voice_prompt t) = true.
Proof.
  intros H. unfold enhance_voice_prompt.
  destruct (negb (str_truthy t)); [reflexivity|].
  assert (Hc : isascii
            (capitalize (if negb (has_photography_keywords t)
                         then t ++ qualifier_suffix else t)) = true).
  { rewrite isascii_capitalize.
    destruct (negb (has_photography_keywords t)); [|exact H].
    rewrite isascii_app, H. reflexivity. }
  destruct (negb (endswith_any _ sentence_ends)); [|exact Hc].
  rewrite isascii_app, Hc. reflexivity.
Qed.

(** X10. The empty prompt stays empty; any other prompt of ASCII text comes
    out non-empty, holding a photography keyword, ending in [.], [!] or
    [?], with every letter after the first in lower case (it is its own
    capitalisation), and is ASCII text again. *)
Theorem enhanced_prompt_shape (t : string) :
  (str_truthy t = false -> enhance_voice_prompt t = "") /\
  (str_truthy t = true ->
   isascii t = true ->
   str_truthy (enhance_voice_prompt t) = true /\
   has_photography_keywords (enhance_voice_prompt t) = true /\
   endswith_any (enhance_voice_prompt t) sentence_ends = true /\
   capitalize (enhance_voice_prompt t) = enhance_voice_prompt t /\
   isascii (enhance_voice_prompt t) = true).
Proof.
  split.
  - intros H. unfold enhance_voice_prompt. rewrite H. reflexivity.
  - intros H Ha. destruct (enhance_output t H) as [Hk He].
    split; [apply (has_keywords_nonempty _ Hk)|].
    split; [exact Hk|]. split; [exact He|].
    split; [apply capitalize_enhance|apply isascii_enhance; exact Ha].
Qed.

Lemma enhance_without_keywords_witness :
  enhance_voice_prompt "Wow, a SHOE!" =
    capitalize "Wow, a SHOE!" ++ qualifier_suffix ++ ".".
Proof.
  apply (enhance_without_keywords "Wow, a SHOE!"); reflexivity.
Defined.

Lemma enhanced_prompt_shape_witness :
  enhance_voice_prompt "" = "" /\
  capitalize (enhance_voice_prompt "my iPhone") = enhance_voice_prompt "my iPhone".
Proof.
  split.
  - apply (proj1 (enhanced_prompt_shape "")). reflexivity.
  - apply (proj2 (enhanced_prompt_shape "my iPhone")); reflexivity.
Defined.

End PromptProps.

(** ** Further properties: loading and transcribing *)
Module ServiceProps.
Import Py Eff VoiceToImageService Notions ServiceNotions WorldFacts LoadModelFacts
  TranscribeFacts.

Local Arguments String.append : simpl never.

(** *** Exceptions from outside [Exception] *)

Lemma quiet_Ok {A} (a : A) : quiet (Ok a).
Proof. intros e H. discriminate H. Qed.

Lemma quiet_Raise {A B} (e : exn) :
  @quiet A (Raise e) -> @quiet B (Raise e).
Proof. intros H e' H'. inversion H'; subst e'. exact (H e eq_refl). Qed.

Lemma calm_ret {A} (a : A) : calm (@ret world A a).
Proof. intros w. apply quiet_Ok. Qed.

Lemma calm_raise {A} (e : exn) :
  is_Exception e = true -> calm (@raise world A e).
Proof. intros He w e' H. inversion H; subst. exact He. Qed.

Lemma calm_lift {A} (o : outcome A) : quiet o -> calm (@lift world A o).
Proof. intros Ho w. exact Ho. Qed.

Lemma calm_gets {A} (f : world -> A) : calm (gets f).
Proof. intros w. apply quiet_Ok. Qed.

Lemma calm_modify (f : world -> world) : calm (modify f).
Proof. intros w. apply quiet_Ok. Qed.

Lemma calm_log (e : event) : calm (log e).
Proof. intros w. apply quiet_Ok. Qed.

Lemma calm_bind {A B} (m : M world A) (k : A -> M world B) :
  calm m -> (forall a, calm (k a)) -> calm (bind m k).
Proof.
  intros Hm Hk w. unfold bind. specialize (Hm w).
  destruct (m w) as [[a|e] w1]; cbn in Hm.
  - apply Hk.
  - intros e' H. inversion H; subst e'. exact (Hm e eq_refl).
Qed.

Lemma calm_try_except {A} (m : M world A) (h : exn -> M world A) :
  calm m -> (forall e, calm (h e)) -> calm (try_except m h).
Proof.
  intros Hm Hh w. unfold try_except. specialize (Hm w).
  destruct (m w) as [[a|e] w1]; cbn in Hm.
  - apply quiet_Ok.
  - rewrite (Hm e eq_refl). apply Hh.
Qed.

Lemma calm_try_except_all {A} (m h : M world A) :
  calm h -> calm (try_except_all m h).
Proof.
  intros Hh w. unfold try_except_all.
  destruct (m w) as [[a|e] w1]; [apply quiet_Ok|apply Hh].
Qed.

Lemma calm_try_finally {A} (m : M world A) (f : M world unit) :
  calm m -> calm f -> calm (try_finally m f).
Proof.
  intros Hm Hf w. unfold try_finally. specialize (Hm w).
  destruct (m w) as [o w1]. cbn in Hm. specialize (Hf w1).
  destruct (f w1) as [[u|e] w2]; cbn in *; [exact Hm|].
  intros e' H. inversion H; subst e'. exact (Hf e eq_refl).
Qed.

Ltac calm_step :=
  lazymatch goal with
  | |- calm (bind _ _) => apply calm_bind; [|intro]
  | |- calm (try_except _ _) => apply calm_try_except; [|intro]
  | |- calm (try_except_all _ _) => apply calm_try_except_all
  | |- calm (try_finally _ _) => apply calm_try_finally
  | |- calm (ret _) => apply calm_ret
  | |- calm (raise _) => apply calm_raise; reflexivity
  | |- calm (gets _) => apply calm_gets
  | |- calm (modify _) => apply calm_modify
  | |- calm (log _) => apply calm_log
  | |- calm (st _ _) => apply calm_log
  | |- calm (if ?b then _ else _) => destruct b
  | |- calm (match ?x with _ => _ end) => destruct x
  | |- calm (let _ := _ in _) => cbv zeta
  end.

Section Facts.
Context {sample : Type} (E : env sample).

Section Uninterrupted.
Hypothesis HE : uninterrupted E.

Ltac calm_call :=
  apply calm_lift;
  first [ apply (quiet_processor_from_pretrained E HE)
        | apply (quiet_model_from_pretrained E HE)
        | apply (quiet_model_to E HE)
        | apply (quiet_tmp_create E HE)
        | apply (quiet_tmp_write E HE)
        | apply (quiet_os_unlink E HE)
        | apply (quiet_sf_read E HE)
        | apply (quiet_processor_call E HE)
        | apply (quiet_model_generate E HE)
        | apply (quiet_batch_decode E HE) ].

Lemma calm_load_model (model_size : string) : calm (load_model E model_size).
Proof. unfold load_model. repeat first [calm_call | calm_step]. Qed.

Lemma calm_ensure_model : calm (ensure_model E).
Proof.
  unfold ensure_model.
  repeat first [apply calm_load_model | calm_step].
Qed.

Lemma calm_normalize (audio_data : signal sample) (sample_rate : Z) :
  calm (normalize E audio_data sample_rate).
Proof.
  unfold normalize, resample_to_16k, librosa_resample.
  destruct (negb (sample_rate =? 16000)%Z); [|apply calm_ret].
  apply calm_bind; [apply calm_log|intro].
  apply calm_bind; [|intro; apply calm_ret].
  apply calm_lift.
  destruct (samples (to_mono E audio_data)) as [xs|c rows].
  - pose proof (quiet_resample_1d E HE xs sample_rate 16000) as Hq.
    destruct (resample_1d E xs sample_rate 16000);
      [apply quiet_Ok|exact (quiet_Raise _ Hq)].
  - apply (quiet_resample_2d E HE).
Qed.

Lemma calm_hf_attempt (audio_file : upload) (language : option string) :
  calm (hf_attempt E audio_file language).
Proof.
  unfold hf_attempt, save_upload, named_temporary_file, run_model,
    feed_model, cleanup.
  repeat first [apply calm_normalize | calm_call | calm_step].
Qed.

Lemma calm_transcribe_audio (audio_file : upload) (language : option string) :
  calm (transcribe_audio E audio_file language).
Proof.
  intros w e H.
  assert (Hseq : fst (transcribe_audio E audio_file language w) =
                 fst (ensure_model E w) \/
                 exists w0, fst (transcribe_audio E audio_file language w) =
                            fst (transcribe_hf E audio_file language w0)).
  { destruct (ensure_model E w) as [[[|r]|e0] w0] eqn:H0.
    - right. exists w0.
      rewrite (transcribe_audio_is_hf E audio_file language w w0 H0).
      reflexivity.
    - left. unfold transcribe_audio, transcribe_audio_then, seq.
      unfold bind at 1. rewrite H0. reflexivity.
    - left. unfold transcribe_audio, transcribe_audio_then, seq.
      unfold bind at 1. rewrite H0. reflexivity. }
  destruct Hseq as [Heq|(w0 & Heq)]; rewrite Heq in H.
  - exact (calm_ensure_model w e H).
  - assert (Hc : calm (transcribe_hf E audio_file language)).
    { unfold transcribe_hf.
      apply calm_try_except; [apply calm_hf_attempt|intro; apply calm_ret]. }
    exact (Hc w0 e H).
Qed.

End Uninterrupted.

(** X1. [transcribe_audio] raises no [Exception] and does not fall off its
    end: it hands a pair back, or lets through an exception from outside
    [Exception] (a [KeyboardInterrupt], say), which none of its clauses
    catches. When no call of a library is cut short by such an exception, it
    hands a pair back. *)
Theorem transcribe_audio_always_returns (audio_file : upload)
    (language : option string) (w : world) :
  ((exists r, fst (transcribe_audio E audio_file language w) = Ok (Return r)) \/
   (exists cls msg,
      fst (transcribe_audio E audio_file language w) =
        Raise (BaseException cls msg))) /\
  (uninterrupted E ->
   exists r, fst (transcribe_audio E audio_file language w) = Ok (Return r)).
Proof.
  assert (H1 :
    (exists r, fst (transcribe_audio E audio_file language w) = Ok (Return r)) \/
    (exists cls msg,
       fst (transcribe_audio E audio_file language w) =
         Raise (BaseException cls msg))).
  { destruct (ensure_model E w) as [o w0] eqn:H0.
    destruct (ensure_model_outcome E w) as [Ho|[Ho|(cls & msg & Ho)]];
      rewrite H0 in Ho; cbn in Ho; subst o.
    - rewrite (transcribe_audio_is_hf E audio_file language w w0 H0).
      pose proof (hf_attempt_no_fallthrough E audio_file language w0) as Hn.
      unfold transcribe_hf, try_except.
      destruct (hf_attempt E audio_file language w0) as [[[|r]|e] w1];
        cbn in Hn |- *.
      + congruence.
      + left. eauto.
      + destruct e as [c m|c m b|c m]; cbn; eauto.
    - left. unfold transcribe_audio, transcribe_audio_then, seq.
      unfold bind at 1. rewrite H0. cbn. eauto.
    - right. unfold transcribe_audio, transcribe_audio_then, seq.
      unfold bind at 1. rewrite H0. cbn. eauto. }
  split; [exact H1|].
  intros HE. destruct H1 as [H1|(cls & msg & H1)]; [exact H1|].
  pose proof (calm_transcribe_audio HE audio_file language w _ H1) as Hq.
  discriminate Hq.
Qed.

Lemma load_model_keeps_device (model_size : string) (w : world) :
  device (self (snd (load_model E model_size w))) = device (self w).
Proof.
  unfold load_model, try_except, bind, gets, st, log, modify, lift, ret.
  destruct (negb (model_loaded (self w)) || is_none (model (self w)));
    [|reflexivity].
  cbn. destruct (processor_from_pretrained E _) as [|e]; cbn;
    [|destruct (is_Exception e); reflexivity].
  destruct (model_from_pretrained E _) as [|e]; cbn;
    [|destruct (is_Exception e); reflexivity].
  destruct (model_to E _ _) as [|e];
    [|cbn; destruct (is_Exception e)]; reflexivity.
Qed.

Lemma not_loaded_not_resident (s : service) :
  model_loaded s = false -> resident s = false.
Proof. unfold resident. intros ->. reflexivity. Qed.

(** X3. When no model is loaded and the loading of the base model fails,
    [transcribe_audio] returns the empty text with the error
    ["Failed to load Whisper model"]; no temporary file is created. The
    failure is an [Exception] of one of the three calls of the load; when the
    load is instead cut short by an exception from outside [Exception], that
    one leaves [transcribe_audio], and no temporary file is created
    either. *)
Theorem load_failure_reported (audio_file : upload) (language : option string)
    (w : world) :
  model_loaded (self w) = false ->
  fetch_succeeds E "base" (device (self w)) = false ->
  (fetch_interrupted E "base" (device (self w)) = false ->
   transcribe_audio E audio_file language w =
     (Ok (Return ("", [("error", VStr "Failed to load Whisper model")])),
      snd (load_model E "base" w))) /\
  (fetch_interrupted E "base" (device (self w)) = true ->
   exists cls msg,
     transcribe_audio E audio_file language w =
       (Raise (BaseException cls msg), snd (load_model E "base" w))) /\
  fs (snd (transcribe_audio E audio_file language w)) = fs w.
Proof.
  intros Hl Hf.
  pose proof (not_loaded_not_resident _ Hl) as Hr.
  assert (Hrun : forall o,
    fst (load_model E "base" w) = o ->
    transcribe_audio E audio_file language w =
      (match o with
       | Ok true => fst (transcribe_hf E audio_file language
                           (snd (load_model E "base" w)))
       | Ok false =>
           Ok (Return ("", [("error", VStr "Failed to load Whisper model")]))
       | Raise e => Raise e
       end,
       match o with
       | Ok true => snd (transcribe_hf E audio_file language
                           (snd (load_model E "base" w)))
       | _ => snd (load_model E "base" w)
       end)).
  { intros o Ho.
    destruct (ensure_model E w) as [c w0] eqn:H0.
    pose proof H0 as H0'. unfold ensure_model in H0'.
    unfold bind at 1, gets in H0'. rewrite Hl in H0'. cbn [negb] in H0'.
    unfold bind at 1 in H0'.
    destruct (load_model E "base" w) as [o1 w1]. cbn in Ho. subst o1.
    destruct o as [[|]|e]; cbn in H0'; inversion H0'; subst c w0; cbn [snd].
    - rewrite (transcribe_audio_is_hf E audio_file language w w1 H0).
      destruct (transcribe_hf E audio_file language w1); reflexivity.
    - unfold transcribe_audio, transcribe_audio_then, seq.
      unfold bind at 1. rewrite H0. reflexivity.
    - unfold transcribe_audio, transcribe_audio_then, seq.
      unfold bind at 1. rewrite H0. reflexivity. }
  destruct (fetch_interrupted E "base" (device (self w))) eqn:Hi.
  - destruct (load_model_interrupted E "base" w Hr Hi)
      as ((cls & msg & H1) & _ & H3).
    split; [intros H; discriminate H|].
    split; [intros _; exists cls, msg; exact (Hrun _ H1)|].
    rewrite (Hrun _ H1). exact H3.
  - destruct (load_model_fails E "base" w Hr Hf Hi) as (H1 & _ & H3).
    split; [intros _; exact (Hrun _ H1)|].
    split; [intros H; discriminate H|].
    rewrite (Hrun _ H1). exact H3.
Qed.

(** X6. A load that failed leaves the service unloaded, so the next call
    fetches again and, when the fetch then succeeds, loads the size it is
    asked for. The failed load returned [False] when what went wrong was an
    [Exception], and was left by the exception itself when it was not
    one. *)
Theorem failed_load_is_retried (E' : env sample) (size1 size2 : string)
    (w : world) :
  model_loaded (self w) = false ->
  fetch_succeeds E size1 (device (self w)) = false ->
  fetch_succeeds E' size2 (device (self w)) = true ->
  let w1 := snd (load_model E size1 w) in
  (fetch_interrupted E size1 (device (self w)) = false ->
   fst (load_model E size1 w) = Ok false) /\
  (fetch_interrupted E size1 (device (self w)) = true ->
   exists cls msg, fst (load_model E size1 w) = Raise (BaseException cls msg)) /\
  fst (load_model E' size2 w1) = Ok true /\
  self (snd (load_model E' size2 w1)) = loaded (self w1) size2.
Proof.
  intros Hl Hf Hf' w1.
  pose proof (not_loaded_not_resident _ Hl) as Hr0.
  assert (H2 : model_loaded (self w1) = model_loaded (self w)).
  { destruct (fetch_interrupted E size1 (device (self w))) eqn:Hi.
    - destruct (load_model_interrupted E size1 w Hr0 Hi) as (_ & H2 & _).
      exact H2.
    - destruct (load_model_fails E size1 w Hr0 Hf Hi) as (_ & H2 & _).
      exact H2. }
  split.
  { intros Hi. destruct (load_model_fails E size1 w Hr0 Hf Hi) as (H1 & _).
    exact H1. }
  split.
  { intros Hi. destruct (load_model_interrupted E size1 w Hr0 Hi) as (H1 & _).
    exact H1. }
  assert (Hr : resident (self w1) = false).
  { apply not_loaded_not_resident. rewrite H2. exact Hl. }
  assert (Hd : fetch_succeeds E' size2 (device (self w1)) = true).
  { unfold w1. rewrite load_model_keeps_device. exact Hf'. }
  rewrite (load_model_fetches E' size2 w1 Hr Hd). split; reflexivity.
Qed.

(** *** The service object through a transcription *)

Lemma keeps_self_ret {A} (a : A) : keeps_self (@ret world A a).
Proof. intro w. reflexivity. Qed.

Lemma keeps_self_raise {A} (e : exn) : keeps_self (@raise world A e).
Proof. intro w. reflexivity. Qed.

Lemma keeps_self_lift {A} (o : outcome A) : keeps_self (@lift world A o).
Proof. intro w. reflexivity. Qed.

Lemma keeps_self_gets {A} (f : world -> A) : keeps_self (gets f).
Proof. intro w. reflexivity. Qed.

Lemma keeps_self_log (e : event) : keeps_self (log e).
Proof. intro w. reflexivity. Qed.

Lemma keeps_self_bind {A B} (m : M world A) (k : A -> M world B) :
  keeps_self m -> (forall a, keeps_self (k a)) -> keeps_self (bind m k).
Proof.
  intros Hm Hk w. unfold bind. specialize (Hm w).
  destruct (m w) as [[a|e] w1]; cbn in Hm.
  - rewrite (Hk a w1). exact Hm.
  - exact Hm.
Qed.

Lemma keeps_self_try_except {A} (m : M world A) (h : exn -> M world A) :
  keeps_self m -> (forall e, keeps_self (h e)) -> keeps_self (try_except m h).
Proof.
  intros Hm Hh w. unfold try_except. specialize (Hm w).
  destruct (m w) as [[a|e] w1]; cbn in Hm.
  - exact Hm.
  - destruct (is_Exception e); [|exact Hm]. rewrite (Hh e w1). exact Hm.
Qed.

Lemma keeps_self_try_except_all {A} (m h : M world A) :
  keeps_self m -> keeps_self h -> keeps_self (try_except_all m h).
Proof.
  intros Hm Hh w. unfold try_except_all. specialize (Hm w).
  destruct (m w) as [[a|e] w1]; cbn in Hm.
  - exact Hm.
  - rewrite (Hh w1). exact Hm.
Qed.

Lemma keeps_self_try_finally {A} (m : M world A) (f : M world unit) :
  keeps_self m -> keeps_self f -> keeps_self (try_finally m f).
Proof.
  intros Hm Hf w. unfold try_finally. specialize (Hm w).
  destruct (m w) as [o w1]. cbn in Hm. specialize (Hf w1).
  destruct (f w1) as [[u|e] w2]; cbn in *; congruence.
Qed.

Lemma keeps_self_logs_only {A} P (m : M world A) :
  logs_only P m -> keeps_self m.
Proof.
  intros H w. destruct (H w) as (evs & _ & Hs). rewrite Hs. reflexivity.
Qed.

Lemma keeps_self_save_upload (audio_file : upload) :
  keeps_self (save_upload E audio_file).
Proof.
  unfold save_upload, named_temporary_file.
  repeat first
    [ apply keeps_self_bind; [|intro] | apply keeps_self_lift
    | apply keeps_self_gets | apply keeps_self_log | apply keeps_self_ret
    | (intro w; reflexivity) ].
Qed.

Lemma keeps_self_cleanup (p : path) : keeps_self (cleanup E p).
Proof.
  unfold cleanup, unlink, exists_.
  apply keeps_self_try_except_all; [|apply keeps_self_ret].
  apply keeps_self_bind; [apply keeps_self_log|intro].
  apply keeps_self_bind; [apply keeps_self_gets|intros present].
  destruct present; [|apply keeps_self_raise].
  apply keeps_self_bind; [apply keeps_self_lift|intro].
  intro w. reflexivity.
Qed.

Lemma keeps_self_hf_attempt (audio_file : upload) (language : option string) :
  keeps_self (hf_attempt E audio_file language).
Proof.
  unfold hf_attempt.
  apply keeps_self_bind; [apply keeps_self_save_upload|intro p].
  apply keeps_self_try_finally; [|apply keeps_self_cleanup].
  apply keeps_self_bind; [|intro; apply keeps_self_ret].
  apply (keeps_self_logs_only leaves_files). apply logs_only_run_model.
Qed.

Lemma keeps_self_transcribe_hf (audio_file : upload)
    (language : option string) :
  keeps_self (transcribe_hf E audio_file language).
Proof.
  unfold transcribe_hf.
  apply keeps_self_try_except;
    [apply keeps_self_hf_attempt|intro; apply keeps_self_ret].
Qed.

Lemma transcribe_audio_self (audio_file : upload) (language : option string)
    (w : world) :
  self (snd (transcribe_audio E audio_file language w)) =
  self (snd (ensure_model E w)).
Proof.
  destruct (ensure_model E w) as [[[|r0]|e] w0] eqn:H0.
  - rewrite (transcribe_audio_is_hf E audio_file language w w0 H0).
    apply keeps_self_transcribe_hf.
  - unfold transcribe_audio, transcribe_audio_then, seq.
    unfold bind at 1. rewrite H0. reflexivity.
  - unfold transcribe_audio, transcribe_audio_then, seq.
    unfold bind at 1. rewrite H0. reflexivity.
Qed.

Lemma ensure_model_self (w : world) :
  self (snd (ensure_model E w)) = self w \/
  self (snd (ensure_model E w)) = self (snd (load_model E "base" w)).
Proof.
  unfold ensure_model, bind, gets.
  destruct (model_loaded (self w)); cbn [negb]; [left; reflexivity|].
  right. destruct (load_model E "base" w) as [[[|]|e] w1]; reflexivity.
Qed.

(** X5. A service that is marked as loaded holds a model and a processor:
    this is so of a new service, and [load_model] and [transcribe_audio]
    keep it so, also when the loading fails half way. *)
Theorem loaded_service_holds_model (audio_file : upload)
    (language : option string) (model_size : string) (w : world) :
  consistent (init E) /\
  (consistent (self w) ->
   consistent (self (snd (load_model E model_size w))) /\
   consistent (self (snd (transcribe_audio E audio_file language w)))).
Proof.
  split; [apply init_consistent|]. intros Hc.
  split; [apply load_model_consistent; exact Hc|].
  rewrite transcribe_audio_self.
  destruct (ensure_model_self w) as [-> | ->];
    [exact Hc|apply load_model_consistent; exact Hc].
Qed.

(** *** What a successful transcription reports *)

Lemma feed_model_info (audio_data : signal sample) (language : option string)
    (w w' : world) (t : string) (info : dict) :
  feed_model E audio_data language w = (Ok (t, info), w') ->
  info = [ ("language", VStr (language_or language "auto-detected"));
           ("model", VStr "openai/whisper");
           ("device", VStr (device (self w))) ].
Proof.
  unfold feed_model, bind, gets, log, modify, lift, ret, raise.
  destruct (processor (self w)); [|intros H; discriminate H]. cbn.
  destruct (processor_call E _ _); [|intros H; discriminate H]. cbn.
  destruct (model (self w)); [|intros H; discriminate H]. cbn.
  destruct (model_generate E _ _ _); [|intros H; discriminate H]. cbn.
  destruct (batch_decode E _) as [[|t0 l]|e]; cbn;
    intros H; try discriminate H.
  inversion H. reflexivity.
Qed.

Lemma run_model_info (audio_file : upload) (p : path)
    (language : option string) (w w' : world) (t : string) (info : dict) :
  run_model E audio_file p language w = (Ok (t, info), w') ->
  info = [ ("language", VStr (language_or language "auto-detected"));
           ("model", VStr "openai/whisper");
           ("device", VStr (device (self w))) ].
Proof.
  unfold run_model. unfold bind at 1, log at 1, modify.
  unfold bind at 1, lift at 1.
  destruct (sf_read E p audio_file) as [[data sr]|e]; [|intros H; discriminate H].
  unfold bind at 1.
  pose proof (keeps_self_logs_only leaves_files _
                (logs_only_normalize E {| samples := data; rate := sr |} sr)
                (set_trace (fun t0 => (t0 ++ [SfRead p])%list) w)) as Hs.
  destruct (normalize E _ sr _) as [[a|e] w1]; [|intros H; discriminate H].
  cbn in Hs. intros H. rewrite (feed_model_info a language w1 w' t info H).
  rewrite Hs. reflexivity.
Qed.

(** X4. A transcription that returns a text reports, as its language, the one
    that was asked for or ["auto-detected"] (never one the model found out),
    as its model the constant ["openai/whisper"] whatever size is loaded,
    and the device of the service. *)
Theorem success_info (audio_file : upload) (language : option string)
    (w w' : world) (t : string) (info : dict) :
  transcribe_audio E audio_file language w = (Ok (Return (t, info)), w') ->
  t <> "" ->
  info = [ ("language", VStr (language_or language "auto-detected"));
           ("model", VStr "openai/whisper");
           ("device", VStr (device (self w'))) ].
Proof.
  intros H Hne.
  pose proof (transcribe_audio_self audio_file language w) as Hself.
  rewrite H in Hself. cbn [snd] in Hself.
  destruct (nonempty_text_from_attempt E audio_file language w (t, info) w'
              H Hne) as (w0 & H0 & Ha).
  rewrite H0 in Hself. cbn [snd] in Hself.
  unfold hf_attempt in Ha. unfold bind at 1 in Ha.
  pose proof (keeps_self_save_upload audio_file w0) as Hs.
  destruct (save_upload E audio_file w0) as [[p|e] w1]; [|discriminate Ha].
  cbn in Hs. unfold try_finally in Ha. unfold bind at 1 in Ha.
  destruct (run_model E audio_file p language w1) as [[[t1 i1]|e] w2] eqn:Hr.
  - unfold ret in Ha. destruct (cleanup E p w2) as [[u|e] w3];
      [|discriminate Ha].
    inversion Ha; subst t1 i1 w3.
    rewrite (run_model_info audio_file p language w1 w2 t info Hr).
    rewrite Hs, Hself. reflexivity.
  - destruct (cleanup E p w2) as [[u|e'] w3]; discriminate Ha.
Qed.

(** *** The multi-method transcription *)

(** X12. When the file attempt succeeds nothing else is tried: the result is
    the one of the file attempt and the service is as before. *)
Theorem file_success_ends_methods (p : path)
    (audio_array : option (list sample)) (language : option string)
    (w : world) (m : model_handle) (r : pyval) :
  model (self w) = Some m ->
  model_transcribe_file E m p (language_kwarg language) false = Ok r ->
  multi_method E p audio_array language w =
    (Ok r,
     with_events w
       [ St Info "Attempting transcription with preprocessed file...";
         TranscribeFile p (language_kwarg language) false;
         St Success "File-based transcription successful!" ]).
Proof.
  intros Hm Hf.
  destruct w as [fs0 n0 t0 s0]. cbn [self] in Hm.
  destruct s0 as [mo pr ml dv]. cbn [model] in Hm. subst mo.
  unfold language_kwarg in *.
  unfold multi_method, transcribe_file, model_or_raise, try_except, bind, ret,
    raise, lift, gets, modify, st, log. cbn.
  rewrite Hf. cbn. unfold with_events, set_trace. cbn.
  repeat rewrite <- app_assoc. reflexivity.
Qed.

(** X13. When the file attempt raises and the array attempt yields a result,
    that result is returned and no CPU attempt is made. This is so when what
    the file attempt raised is an [Exception]; an exception from outside
    [Exception] is not caught by line 179 and ends the methods at once. *)
Theorem array_success_skips_cpu (p : path) (a : list sample)
    (language : option string) (w : world) (m : model_handle) (e : exn)
    (r : pyval) :
  model (self w) = Some m ->
  model_transcribe_file E m p (language_kwarg language) false = Raise e ->
  model_transcribe_array E m a (language_kwarg language) = Ok r ->
  is_VNone r = false ->
  (is_Exception e = true ->
   multi_method E p (Some a) language w =
     (Ok r,
      with_events w
        (until_array p language e ++
         [ TranscribeArray (language_kwarg language);
           St Success "Array-based transcription successful!" ])%list)) /\
  (is_Exception e = false ->
   multi_method E p (Some a) language w =
     (Raise e,
      with_events w
        [ St Info "Attempting transcription with preprocessed file...";
          TranscribeFile p (language_kwarg language) false ])).
Proof.
  intros Hm Hf Ha Hr.
  destruct w as [fs0 n0 t0 s0]. cbn [self] in Hm.
  destruct s0 as [mo pr ml dv]. cbn [model] in Hm. subst mo.
  unfold until_array, language_kwarg in *.
  split; intros He.
  - unfold multi_method, attempt_array, transcribe_file, transcribe_array,
      model_or_raise, try_except, bind, ret, raise, lift, gets, modify, st, log.
    cbn. rewrite Hf. cbn. rewrite He. cbn. rewrite Ha. cbn. rewrite Hr.
    unfold with_events, set_trace. cbn.
    repeat rewrite <- app_assoc. reflexivity.
  - unfold multi_method, attempt_array, transcribe_file, transcribe_array,
      model_or_raise, try_except, bind, ret, raise, lift, gets, modify, st, log.
    cbn. rewrite Hf. cbn. rewrite He.
    unfold with_events, set_trace. cbn.
    repeat rewrite <- app_assoc. reflexivity.
Qed.

(** X14. The CPU attempt moves the model, not the service: where CUDA is
    available and the first two methods gave nothing (the file attempt
    raised, the array attempt was not made, raised an [Exception] or
    answered [None]), the model ends on ["cpu"] while the [device] field of
    the service keeps its value. This is so when what the file attempt
    raised is an [Exception]; otherwise no CPU attempt is made and the
    service is as it was. *)
Theorem cpu_attempt_moves_model_only (p : path)
    (audio_array : option (list sample)) (language : option string)
    (w : world) (m : model_handle) (e : exn) :
  model (self w) = Some m ->
  model_transcribe_file E m p (language_kwarg language) false = Raise e ->
  array_attempt_outcome E m audio_array language = Ok VNone ->
  cuda_is_available E = true ->
  (exists u, model_to E m "cpu" = Ok u) ->
  (is_Exception e = true ->
   model (self (snd (multi_method E p audio_array language w))) =
     Some {| model_name := model_name m; model_device := "cpu" |} /\
   device (self (snd (multi_method E p audio_array language w))) =
     device (self w)) /\
  (is_Exception e = false ->
   self (snd (multi_method E p audio_array language w)) = self w).
Proof.
  intros Hm Hf Ha Hc (u & Hu).
  destruct w as [fs0 n0 t0 s0]. cbn [self] in Hm.
  destruct s0 as [mo pr ml dv]. cbn [model] in Hm. subst mo.
  unfold array_attempt_outcome, language_kwarg in *.
  set (lang := if language_given language then language else None) in *.
  split; intros He.
  - unfold multi_method, attempt_array, attempt_cpu, transcribe_file,
      transcribe_array, model_or_raise, try_except, bind, ret, raise, lift,
      gets, modify, st, log.
    cbn. fold lang. rewrite Hf. cbn. rewrite He. cbn.
    destruct audio_array as [a|]; cbn.
    + destruct (model_transcribe_array E m a lang) as [r|e2]; cbn.
      * inversion Ha; subst r. cbn. rewrite Hc. cbn. rewrite Hu. cbn.
        destruct (model_transcribe_file E _ p lang true) as [r|e3]; cbn;
          [|destruct (is_Exception e3); cbn]; split; reflexivity.
      * destruct (is_Exception e2); [|discriminate Ha]. cbn.
        rewrite Hc. cbn. rewrite Hu. cbn.
        destruct (model_transcribe_file E _ p lang true) as [r|e3]; cbn;
          [|destruct (is_Exception e3); cbn]; split; reflexivity.
    + rewrite Hc. cbn. rewrite Hu. cbn.
      destruct (model_transcribe_file E _ p lang true) as [r|e3]; cbn;
        [|destruct (is_Exception e3); cbn]; split; reflexivity.
  - unfold multi_method, attempt_array, attempt_cpu, transcribe_file,
      transcribe_array, model_or_raise, try_except, bind, ret, raise, lift,
      gets, modify, st, log.
    cbn. fold lang. rewrite Hf. cbn. rewrite He. reflexivity.
Qed.

End Facts.

Lemma load_failure_reported_witness :
  transcribe_audio E_no_memory Demo.clip None Demo.w_fresh =
    (Ok (Return ("", [("error", VStr "Failed to load Whisper model")])),
     snd (load_model E_no_memory "base" Demo.w_fresh)) /\
  fs (snd (transcribe_audio E_no_memory Demo.clip None Demo.w_fresh)) = [].
Proof.
  split.
  - apply (proj1 (load_failure_reported E_no_memory Demo.clip None
                    Demo.w_fresh eq_refl eq_refl) eq_refl).
  - apply (proj2 (proj2 (load_failure_reported E_no_memory Demo.clip None
                           Demo.w_fresh eq_refl eq_refl))).
Defined.

Lemma failed_load_is_retried_witness :
  fst (load_model E_no_memory "large" Demo.w_fresh) = Ok false /\
  fst (load_model Demo.E_ok "tiny"
         (snd (load_model E_no_memory "large" Demo.w_fresh))) = Ok true /\
  self (snd (load_model Demo.E_ok "tiny"
               (snd (load_model E_no_memory "large" Demo.w_fresh)))) =
    loaded (self (snd (load_model E_no_memory "large" Demo.w_fresh))) "tiny".
Proof.
  split.
  - apply (proj1 (failed_load_is_retried E_no_memory Demo.E_ok "large"
                    "tiny" Demo.w_fresh eq_refl eq_refl eq_refl) eq_refl).
  - apply (proj2 (proj2 (failed_load_is_retried E_no_memory Demo.E_ok "large"
                           "tiny" Demo.w_fresh eq_refl eq_refl eq_refl))).
Defined.

Lemma loaded_service_holds_model_witness :
  consistent (self (snd (load_model E_no_memory "large" Demo.w_fresh))) /\
  consistent (self (snd (transcribe_audio E_no_memory Demo.clip None
                           Demo.w_fresh))).
Proof.
  apply (proj2 (loaded_service_holds_model E_no_memory Demo.clip None "large"
                  Demo.w_fresh)).
  intros H. discriminate H.
Defined.

Lemma transcribe_audio_always_returns_witness :
  exists r,
    fst (transcribe_audio Demo.E_generate_fails Demo.clip None Demo.w_base) =
      Ok (Return r).
Proof.
  apply (proj2 (transcribe_audio_always_returns Demo.E_generate_fails
                  Demo.clip None Demo.w_base)).
  constructor; cbn; intros;
    match goal with
    | |- quiet ?o =>
        let e := fresh "e" in
        let H := fresh "H" in
        intros e H; first [discriminate H | inversion H; reflexivity]
    end.
Defined.

Lemma success_info_witness :
  [ ("language", VStr "auto-detected");
    ("model", VStr "openai/whisper");
    ("device", VStr "cpu") ] =
  [ ("language", VStr (language_or None "auto-detected"));
    ("model", VStr "openai/whisper");
    ("device",
     VStr (device (self (snd (transcribe_audio Demo.E_ok Demo.clip None
                                Demo.w_base))))) ].
Proof.
  apply (success_info Demo.E_ok Demo.clip None Demo.w_base
           (snd (transcribe_audio Demo.E_ok Demo.clip None Demo.w_base))
           "a red sneaker on a table").
  - reflexivity.
  - discriminate.
Defined.

Lemma file_success_ends_methods_witness :
  multi_method Demo.E_ok Demo.tmp0 (Some [3; 7]%Z) (Some "en") Demo.w_base =
    (Ok (VDict [("text", VStr " a red sneaker ")]),
     with_events Demo.w_base
       [ St Info "Attempting transcription with preprocessed file...";
         TranscribeFile Demo.tmp0 (language_kwarg (Some "en")) false;
         St Success "File-based transcription successful!" ]).
Proof.
  apply (file_success_ends_methods Demo.E_ok Demo.tmp0 (Some [3; 7]%Z)
           (Some "en") Demo.w_base Demo.base_model); reflexivity.
Defined.

Lemma array_success_skips_cpu_witness :
  multi_method Demo.E_file_fails Demo.tmp0 (Some [3; 7]%Z) None Demo.w_base =
    (Ok (VDict [("text", VStr " a red sneaker ")]),
     with_events Demo.w_base
       (until_array Demo.tmp0 None
          (Exception "RuntimeError" "cannot read the file") ++
        [ TranscribeArray (language_kwarg None);
          St Success "Array-based transcription successful!" ])%list).
Proof.
  apply (proj1 (array_success_skips_cpu Demo.E_file_fails Demo.tmp0 [3; 7]%Z
                  None Demo.w_base Demo.base_model
                  (Exception "RuntimeError" "cannot read the file")
                  (VDict [("text", VStr " a red sneaker ")])
                  eq_refl eq_refl eq_refl eq_refl) eq_refl).
Defined.

Lemma cpu_attempt_moves_model_only_witness :
  model (self (snd (multi_method E_cuda_file_fails Demo.tmp0 (Some [3; 7]%Z)
                      None w_cuda))) =
    Some {| model_name := "openai/whisper-base"; model_device := "cpu" |} /\
  device (self (snd (multi_method E_cuda_file_fails Demo.tmp0 (Some [3; 7]%Z)
                       None w_cuda))) = "cuda:0".
Proof.
  apply (proj1 (cpu_attempt_moves_model_only E_cuda_file_fails Demo.tmp0
                  (Some [3; 7]%Z) None w_cuda
                  {| model_name := "openai/whisper-base";
                     model_device := "cuda:0" |}
                  (Exception "RuntimeError" "cannot read the file")
                  eq_refl eq_refl eq_refl eq_refl
                  (ex_intro _ tt eq_refl)) eq_refl).
Defined.

End ServiceProps.

(** ** Further properties: [SpeechToTextService.transcribe] *)
Module SpeechToTextProps.
Import Py Eff SpeechToTextService Notions SpeechToTextNotions SpeechToTextFacts.

Local Arguments String.append : simpl never.

(** X15. A path that is not on disk is refused before anything is opened,
    transcribed or removed. *)
Theorem missing_file_raises (E : env) (audio_path : string) (w : world) :
  str_in_list audio_path (fs w) = false ->
  transcribe E audio_path w =
    (Raise (Exception "FileNotFoundError"
              ("Audio file not found at path: " ++ audio_path)),
     {| fs := fs w;
        trace := (trace w ++
                  [Print ("[DEBUG] Checking if audio file exists: " ++
                          audio_path)])%list |}).
Proof.
  intros H. unfold transcribe.
  unfold bind at 1, print at 1, log at 1, modify.
  unfold bind at 1, exists_ at 1, gets. cbn [fs]. rewrite H. reflexivity.
Qed.

Lemma missing_file_gone (E : env) (audio_path : string) (w : world) :
  str_in_list audio_path (fs w) = false ->
  fst (transcribe E audio_path w) =
    Raise (Exception "FileNotFoundError"
             ("Audio file not found at path: " ++ audio_path)).
Proof.
  intros H. unfold transcribe.
  unfold bind at 1, print at 1, log at 1, modify.
  unfold bind at 1, exists_ at 1, gets. cbn [fs]. rewrite H. reflexivity.
Qed.

Lemma guarded_body_outcome (E : env) (audio_path : string) (w0 : world) :
  fst (try_except (body E audio_path) wrap w0) = guarded_outcome E audio_path.
Proof.
  unfold guarded_outcome, wrapped, try_except, body, wrap, bind, log, modify,
    lift, print, ret, raise.
  destruct (open_read E audio_path) as [u|e]; cbn;
    [|destruct (is_Exception e); reflexivity].
  destruct (model_transcribe E audio_path) as [result|e]; cbn;
    [|destruct (is_Exception e); reflexivity].
  unfold get_text.
  destruct result as [| | | | |d]; cbn; try reflexivity.
  unfold len_or_0.
  destruct (truthy (get_default "text" VNone d)); [|reflexivity].
  destruct (get_default "text" VNone d); reflexivity.
Qed.

Lemma wrapped_Exception (e e' : exn) :
  wrapped e = Raise e' ->
  is_Exception e' = true ->
  exists msg,
    e' = Exception "Exception" ("Error transcribing audio: " ++ msg).
Proof.
  unfold wrapped. destruct (is_Exception e) eqn:He; intros H He'.
  - inversion H. eexists. reflexivity.
  - inversion H; subst. congruence.
Qed.

(** What a call on a file that is there comes to. *)
Lemma transcribe_outcome (E : env) (audio_path : string) (w : world) :
  str_in_list audio_path (fs w) = true ->
  fst (transcribe E audio_path w) =
    match os_remove E audio_path with
    | Ok _ => guarded_outcome E audio_path
    | Raise e =>
        if is_Exception e then guarded_outcome E audio_path else Raise e
    end.
Proof.
  intros Hin. destruct (transcribe_on_file E audio_path w Hin) as [_ Htr].
  rewrite Htr.
  destruct (os_remove E audio_path) as [u|e];
    [|destruct (is_Exception e)]; cbn [fst];
    try apply guarded_body_outcome; reflexivity.
Qed.

(** X16. On a file that is there, an [Exception] that leaves [transcribe]
    is always [Exception("Error transcribing audio: ...")], whatever failed
    (opening the file, the model, a result without [get], a text without a
    length; a removal that fails changes nothing to it); a value that is
    returned is the [text] entry of what the model answered, [None] when
    the entry is missing; and an exception of the model from outside
    [Exception] is not wrapped: it leaves as it is. *)
Theorem failures_are_wrapped (E : env) (audio_path : string) (w : world) :
  str_in_list audio_path (fs w) = true ->
  (forall e,
     fst (transcribe E audio_path w) = Raise e ->
     is_Exception e = true ->
     exists msg,
       e = Exception "Exception" ("Error transcribing audio: " ++ msg)) /\
  (forall text,
     fst (transcribe E audio_path w) = Ok text ->
     exists d,
       model_transcribe E audio_path = Ok (VDict d) /\
       text = get_default "text" VNone d) /\
  (forall u cls msg,
     open_read E audio_path = Ok u ->
     model_transcribe E audio_path = Raise (BaseException cls msg) ->
     quiet (os_remove E audio_path) ->
     fst (transcribe E audio_path w) = Raise (BaseException cls msg)).
Proof.
  intros Hin. rewrite (transcribe_outcome E audio_path w Hin).
  split; [|split].
  - intros e H He.
    assert (Hg : guarded_outcome E audio_path = Raise e).
    { destruct (os_remove E audio_path) as [u|e1]; [exact H|].
      destruct (is_Exception e1) eqn:He1; [exact H|].
      inversion H; subst. congruence. }
    clear H. unfold guarded_outcome in Hg.
    destruct (open_read E audio_path) as [u|e0];
      [|exact (wrapped_Exception _ _ Hg He)].
    destruct (model_transcribe E audio_path) as [result|e0];
      [|exact (wrapped_Exception _ _ Hg He)].
    destruct (get_text result) as [text|e0];
      [|exact (wrapped_Exception _ _ Hg He)].
    destruct (len_or_0 text) as [n|e0];
      [discriminate Hg|exact (wrapped_Exception _ _ Hg He)].
  - intros text H.
    assert (Hg : guarded_outcome E audio_path = Ok text).
    { destruct (os_remove E audio_path) as [u|e1]; [exact H|].
      destruct (is_Exception e1); [exact H|discriminate H]. }
    clear H. unfold guarded_outcome, wrapped in Hg.
    destruct (open_read E audio_path) as [u|e0];
      [|destruct (is_Exception e0); discriminate Hg].
    destruct (model_transcribe E audio_path) as [result|e0];
      [|destruct (is_Exception e0); discriminate Hg].
    destruct result as [| | | | |d]; cbn in Hg; try discriminate Hg.
    destruct (len_or_0 (get_default "text" VNone d)) as [n|e0];
      [|destruct (is_Exception e0); discriminate Hg].
    inversion Hg. exists d. split; reflexivity.
  - intros u cls msg Ho Hm Hq. unfold guarded_outcome. rewrite Ho, Hm. cbn.
    destruct (os_remove E audio_path) as [u1|e1]; [reflexivity|].
    rewrite (Hq e1 eq_refl). reflexivity.
Qed.

(** X17. [transcribe] consumes its file: after a call on a file that is there,
    with [os.remove] working, a second call on the same path raises
    [FileNotFoundError]. *)
Theorem second_call_finds_no_file (E : env) (audio_path : string) (w : world) :
  str_in_list audio_path (fs w) = true ->
  (exists u, os_remove E audio_path = Ok u) ->
  fst (transcribe E audio_path (snd (transcribe E audio_path w))) =
    Raise (Exception "FileNotFoundError"
             ("Audio file not found at path: " ++ audio_path)).
Proof.
  intros Hin (u & Hu).
  rewrite missing_file_gone; [reflexivity|].
  rewrite (transcribe_removes E audio_path w Hin), Hu.
  apply str_in_list_filter.
Qed.

Lemma missing_file_raises_witness :
  transcribe s2t_ok "/tmp/b.wav" one_file =
    (Raise (Exception "FileNotFoundError"
              "Audio file not found at path: /tmp/b.wav"),
     {| fs := ["/tmp/a.wav"];
        trace := [Print "[DEBUG] Checking if audio file exists: /tmp/b.wav"] |}).
Proof.
  apply (missing_file_raises s2t_ok "/tmp/b.wav" one_file). reflexivity.
Defined.

Lemma failures_are_wrapped_witness :
  (forall e,
     fst (transcribe s2t_fails "/tmp/a.wav" one_file) = Raise e ->
     is_Exception e = true ->
     exists msg,
       e = Exception "Exception" ("Error transcribing audio: " ++ msg)) /\
  (forall text,
     fst (transcribe s2t_ok "/tmp/a.wav" one_file) = Ok text ->
     exists d,
       model_transcribe s2t_ok "/tmp/a.wav" = Ok (VDict d) /\
       text = get_default "text" VNone d) /\
  fst (transcribe s2t_interrupted "/tmp/a.wav" one_file) =
    Raise (BaseException "KeyboardInterrupt" "").
Proof.
  split; [|split].
  - apply (proj1 (failures_are_wrapped s2t_fails "/tmp/a.wav" one_file
                    eq_refl)).
  - apply (proj1 (proj2 (failures_are_wrapped s2t_ok "/tmp/a.wav" one_file
                           eq_refl))).
  - apply (proj2 (proj2 (failures_are_wrapped s2t_interrupted "/tmp/a.wav"
                           one_file eq_refl)) tt);
      [reflexivity|reflexivity|].
    intros e H. discriminate H.
Defined.

Lemma second_call_finds_no_file_witness :
  fst (transcribe s2t_ok "/tmp/a.wav"
         (snd (transcribe s2t_ok "/tmp/a.wav" one_file))) =
    Raise (Exception "FileNotFoundError"
             "Audio file not found at path: /tmp/a.wav").
Proof.
  apply (second_call_finds_no_file s2t_ok "/tmp/a.wav" one_file).
  - reflexivity.
  - exists tt. reflexivity.
Defined.

End SpeechToTextProps.

(** ** Further properties: background removal *)
Module BackgroundProps.
Import Py Eff BackgroundService Notions BackgroundNotions BackgroundFacts.

Local Arguments String.append : simpl never.

Lemma posts_app (a b : world) : posts (a ++ b)%list = posts a + posts b.
Proof. unfold posts. rewrite filter_app, length_app. reflexivity. Qed.

Lemma sends_weaken {A} (n n' : nat) (m : M world A) :
  n <= n' -> sends n m -> sends n' m.
Proof.
  intros Hle Hm w. destruct (Hm w) as (more & H1 & H2).
  exists more. split; [exact H1|lia].
Qed.

Lemma sends_ret {A} (a : A) : sends 0 (ret a).
Proof. intros w. exists []. split; [cbn; now rewrite app_nil_r|reflexivity]. Qed.

Lemma sends_raise {A} (e : exn) : sends 0 (@raise world A e).
Proof. intros w. exists []. split; [cbn; now rewrite app_nil_r|reflexivity]. Qed.

Lemma sends_lift {A} (o : outcome A) : sends 0 (lift o).
Proof. intros w. exists []. split; [cbn; now rewrite app_nil_r|reflexivity]. Qed.

Lemma sends_print text v : sends 0 (log (Print text v)).
Proof. intros w. exists [Print text v]. split; reflexivity. Qed.

Lemma sends_bind {A B} (n1 n2 : nat) (m : M world A) (k : A -> M world B) :
  sends n1 m -> (forall a, sends n2 (k a)) -> sends (n1 + n2) (bind m k).
Proof.
  intros Hm Hk w. unfold bind. destruct (Hm w) as (m1 & H1 & P1).
  destruct (m w) as [[a|e] w1]; cbn in H1; subst w1.
  - destruct (Hk a (w ++ m1)%list) as (m2 & H2 & P2). rewrite H2.
    exists (m1 ++ m2)%list. split; [now rewrite app_assoc|].
    rewrite posts_app. lia.
  - exists m1. split; [reflexivity|lia].
Qed.

Lemma sends_try_except {A} (n1 n2 : nat) (m : M world A)
    (h : exn -> M world A) :
  sends n1 m -> (forall e, sends n2 (h e)) -> sends (n1 + n2) (try_except m h).
Proof.
  intros Hm Hh w. unfold try_except. destruct (Hm w) as (m1 & H1 & P1).
  destruct (m w) as [[a|e] w1]; cbn in H1; subst w1.
  - exists m1. split; [reflexivity|lia].
  - destruct (is_Exception e); [|exists m1; split; [reflexivity|lia]].
    destruct (Hh e (w ++ m1)%list) as (m2 & H2 & P2). rewrite H2.
    exists (m1 ++ m2)%list. split; [now rewrite app_assoc|].
    rewrite posts_app. lia.
Qed.

Lemma sends_post (E : env) url headers data : sends 1 (post E url headers data).
Proof.
  intros w. unfold post, bind, log, modify, lift. cbn.
  exists [Post url headers data]. split; [reflexivity|].
  unfold posts. cbn. lia.
Qed.

Lemma sends_raise_for_status url r : sends 0 (raise_for_status url r).
Proof.
  unfold raise_for_status.
  destruct (_ && _); [apply sends_raise|].
  destruct (_ && _); [apply sends_raise|apply sends_ret].
Qed.

Lemma sends_normalise_result f result :
  (forall v, sends 0 (f v)) -> sends 0 (normalise_result f result).
Proof.
  intros Hf. unfold normalise_result.
  destruct (has_key "result_url" result); [apply sends_ret|].
  assert (Hrest : sends 0
    match get "url" result with
    | Some u => ret [("result_url", u)]
    | None => bind (f (VDict result)) (fun _ => ret result)
    end).
  { destruct (get "url" result); [apply sends_ret|].
    apply (sends_bind 0 0); [apply Hf|intro; apply sends_ret]. }
  destruct (get "urls" result) as [[| | | |[|u l]|]|]; try exact Hrest.
  apply sends_ret.
Qed.

Lemma sends_handle_response url r : sends 0 (handle_response url r).
Proof.
  unfold handle_response.
  apply (sends_bind 0 0); [apply sends_raise_for_status|intro].
  apply (sends_bind 0 0); [apply sends_print|intro].
  apply (sends_bind 0 0); [apply sends_print|intro].
  apply (sends_bind 0 0); [apply sends_lift|intro].
  apply sends_normalise_result. intro. apply sends_print.
Qed.

Lemma sends_fallback (E : env) api_key image_data image_url cm :
  sends 1 (remove_background_fallback E api_key image_data image_url cm).
Proof.
  unfold remove_background_fallback. cbv zeta.
  apply (sends_try_except 1 0); [|intro; apply sends_raise].
  apply (sends_bind 0 1); [apply sends_print|intro].
  apply (sends_bind 1 0); [apply sends_post|intro].
  apply (sends_bind 0 0); [apply sends_raise_for_status|intro].
  apply (sends_bind 0 0); [apply sends_lift|intro].
  apply sends_normalise_result. intro. apply sends_ret.
Qed.

Lemma sends_on_error (E : env) api_key image_data image_url cm e :
  sends 1 (on_error E api_key image_data image_url cm e).
Proof.
  unfold on_error. destruct e as [cls msg|status msg body|cls msg].
  - apply (sends_weaken 0 1); [lia|apply sends_raise].
  - destruct (status =? 404)%Z; [apply sends_fallback|].
    apply (sends_weaken 0 1); [lia|apply sends_raise].
  - apply (sends_weaken 0 1); [lia|apply sends_raise].
Qed.

Lemma sends_request_data (E : env) image_data image_url cm :
  sends 0 (request_data E image_data image_url cm).
Proof.
  unfold request_data. cbv zeta.
  destruct (opt_truthy image_url); [apply sends_ret|].
  destruct (opt_truthy image_data); [apply sends_ret|apply sends_raise].
Qed.

(** X23. One call of [remove_background] sends at most two requests: the one
    to the removal endpoint and, after a 404, the one to the alternate
    endpoint; a failure of the alternate endpoint is not retried. *)
Theorem at_most_two_requests (E : env) (api_key : string)
    (image_data image_url : option string) (content_moderation : bool)
    (w : world) :
  posts (snd (remove_background E api_key image_data image_url
                content_moderation w)) <= posts w + 2.
Proof.
  assert (H : sends 2
    (remove_background E api_key image_data image_url content_moderation)).
  { unfold remove_background. cbv zeta.
    apply (sends_bind 0 2); [apply sends_request_data|intro data].
    apply (sends_try_except 1 1); [|intro; apply sends_on_error].
    apply (sends_bind 0 1); [apply sends_print|intro].
    apply (sends_bind 0 1); [apply sends_print|intro].
    apply (sends_bind 0 1); [apply sends_print|intro].
    apply (sends_bind 1 0); [apply sends_post|intro].
    apply sends_handle_response. }
  destruct (H w) as (more & Hs & Hp). rewrite Hs, posts_app. lia.
Qed.


Lemma request_data_cases (E : env) (image_data image_url : option string)
    (cm : bool) (w w' : world) (data : dict) :
  request_data E image_data image_url cm w = (Ok data, w') ->
  w' = w /\
  data =
    (if opt_truthy image_url then
       [("content_moderation", VBool cm);
        ("image_url", VStr (match image_url with Some u => u | None => "" end))]
     else
       [("content_moderation", VBool cm);
        ("file", VStr (b64encode E
                         (match image_data with Some d => d | None => "" end)))]) /\
  opt_truthy image_url || opt_truthy image_data = true.
Proof.
  unfold request_data. cbv zeta.
  destruct (opt_truthy image_url); cbn.
  - intros H. inversion H; subst. auto.
  - destruct (opt_truthy image_data); cbn; [|discriminate].
    intros H. inversion H; subst. auto.
Qed.

Ltac z_bools :=
  repeat match goal with
  | H : (_ <=? _)%Z = true |- _ => apply Z.leb_le in H
  | H : (_ <=? _)%Z = false |- _ => apply Z.leb_gt in H
  | H : (_ <? _)%Z = true |- _ => apply Z.ltb_lt in H
  | H : (_ <? _)%Z = false |- _ => apply Z.ltb_ge in H
  end.

Lemma raise_for_status_ok (url : string) (r : response) (w : world) :
  raises_for_status (status_code r) = false ->
  raise_for_status url r w = (Ok tt, w).
Proof.
  unfold raises_for_status, raise_for_status.
  destruct (400 <=? status_code r)%Z eqn:A, (status_code r <? 500)%Z eqn:B,
    (500 <=? status_code r)%Z eqn:C, (status_code r <? 600)%Z eqn:D;
    cbn; intros H; try reflexivity; try discriminate; exfalso; z_bools; lia.
Qed.

Lemma raise_for_status_raises (url : string) (r : response) (w : world) :
  raises_for_status (status_code r) = true ->
  exists msg,
    raise_for_status url r w = (Raise (HTTPError (status_code r) msg (text r)), w).
Proof.
  unfold raises_for_status, raise_for_status.
  destruct (400 <=? status_code r)%Z eqn:A, (status_code r <? 500)%Z eqn:B,
    (500 <=? status_code r)%Z eqn:C, (status_code r <? 600)%Z eqn:D;
    cbn; intros H; try discriminate; try (eexists; reflexivity);
    exfalso; z_bools; lia.
Qed.

(** The value [normalise_result] hands back. *)
Lemma normalise_result_value f (body : dict) (w : world) :
  (forall v w0, fst (f v w0) = Ok tt) ->
  fst (normalise_result f body w) = Ok (normalised body).
Proof.
  intros Hf. unfold normalise_result, normalised.
  destruct (has_key "result_url" body); [reflexivity|].
  assert (Hrest :
    fst (match get "url" body with
         | Some u => ret [("result_url", u)]
         | None => bind (f (VDict body)) (fun _ => ret body)
         end w) =
    Ok match get "url" body with
       | Some u => [("result_url", u)]
       | None => body
       end).
  { destruct (get "url" body); [reflexivity|].
    unfold bind. specialize (Hf (VDict body) w).
    destruct (f (VDict body) w) as [[[]|e] w1]; cbn in Hf; [reflexivity|discriminate]. }
  destruct (get "urls" body) as [[| | | |[|u l]|]|]; try exact Hrest.
  reflexivity.
Qed.

Lemma normalised_has_result_url (body : dict) :
  names_result body = true -> has_key "result_url" (normalised body) = true.
Proof.
  unfold names_result, normalised, has_key.
  destruct (get "result_url" body) eqn:H1; cbn; [rewrite H1; reflexivity|].
  destruct (get "urls" body) as [[| | | |[|u l]|]|]; cbn;
    try reflexivity;
    destruct (get "url" body); cbn; intros H; try reflexivity; discriminate.
Qed.

Lemma silent_ret {A} (a : A) : silent (ret a).
Proof. intro w. reflexivity. Qed.

Lemma silent_raise {A} (e : exn) : silent (@raise world A e).
Proof. intro w. reflexivity. Qed.

Lemma silent_lift {A} (o : outcome A) : silent (lift o).
Proof. intro w. reflexivity. Qed.

Lemma silent_bind {A B} (m : M world A) (k : A -> M world B) :
  silent m -> (forall a, silent (k a)) -> silent (bind m k).
Proof.
  intros Hm Hk w. unfold bind. specialize (Hm w).
  destruct (m w) as [[a|e] w1]; cbn in Hm; subst w1; [apply Hk|reflexivity].
Qed.

Lemma silent_raise_for_status url r : silent (raise_for_status url r).
Proof.
  unfold raise_for_status.
  destruct (_ && _); [apply silent_raise|].
  destruct (_ && _); [apply silent_raise|apply silent_ret].
Qed.

Lemma silent_normalise_result f result :
  (forall v, silent (f v)) -> silent (normalise_result f result).
Proof.
  intros Hf. unfold normalise_result.
  destruct (has_key "result_url" result); [apply silent_ret|].
  assert (Hrest : silent
    match get "url" result with
    | Some u => ret [("result_url", u)]
    | None => bind (f (VDict result)) (fun _ => ret result)
    end).
  { destruct (get "url" result); [apply silent_ret|].
    apply silent_bind; [apply Hf|intro; apply silent_ret]. }
  destruct (get "urls" result) as [[| | | |[|u l]|]|]; try exact Hrest.
  apply silent_ret.
Qed.

(** What is left of the alternate request once it has been answered. *)
Lemma fallback_unfolded (E : env) (api_key : string)
    (image_data image_url : option string) (cm : bool) (w : world) :
  let data := fallback_data E image_data image_url cm in
  let w2 := (w ++ [ Print "Trying fallback endpoint: " (VStr fallback_endpoint);
                    Post fallback_endpoint (headers_of api_key) data ])%list in
  let wrap := fun e : exn =>
    @raise world dict
      (Exception "Exception"
         ("Background removal fallback failed: " ++ exn_str e)) in
  remove_background_fallback E api_key image_data image_url cm w =
    match requests_post E fallback_endpoint (headers_of api_key) data with
    | Ok r2 =>
        try_except
          (bind (raise_for_status fallback_endpoint r2)
             (fun _ => bind (lift (json r2))
                (fun result => normalise_result (fun _ => ret tt) result)))
          wrap w2
    | Raise e0 => if is_Exception e0 then wrap e0 w2 else (Raise e0, w2)
    end.
Proof.
  intros data w2 wrap.
  change (remove_background_fallback E api_key image_data image_url cm)
    with (try_except
            (bind (log (Print "Trying fallback endpoint: " (VStr fallback_endpoint)))
               (fun _ =>
                bind (post E fallback_endpoint (headers_of api_key) data)
                  (fun response =>
                   bind (raise_for_status fallback_endpoint response)
                     (fun _ =>
                      bind (lift (json response))
                        (fun result =>
                         normalise_result (fun _ => ret tt) result)))))
            wrap).
  unfold try_except. unfold bind at 1, log at 1, modify.
  unfold bind at 1, post at 1. unfold bind at 1, log at 1, modify.
  unfold lift at 1. cbn [fst snd].
  replace ((w ++ [Print "Trying fallback endpoint: " (VStr fallback_endpoint)]) ++
           [Post fallback_endpoint (headers_of api_key) data])%list with w2
    by (unfold w2; rewrite <- app_assoc; reflexivity).
  destruct (requests_post E fallback_endpoint (headers_of api_key) data);
    reflexivity.
Qed.

(** What the alternate endpoint is asked, and what comes back. *)
Lemma fallback_run (E : env) (api_key : string)
    (image_data image_url : option string) (cm : bool) (w : world) :
  let data := fallback_data E image_data image_url cm in
  snd (remove_background_fallback E api_key image_data image_url cm w) =
    (w ++ [ Print "Trying fallback endpoint: " (VStr fallback_endpoint);
            Post fallback_endpoint (headers_of api_key) data ])%list /\
  (forall e,
     fst (remove_background_fallback E api_key image_data image_url cm w)
       = Raise e ->
     is_Exception e = true ->
     exists msg,
       e = Exception "Exception"
             ("Background removal fallback failed: " ++ msg)) /\
  (forall r2 body,
     requests_post E fallback_endpoint (headers_of api_key) data = Ok r2 ->
     raises_for_status (status_code r2) = false ->
     json r2 = Ok body ->
     fst (remove_background_fallback E api_key image_data image_url cm w)
       = Ok (normalised body)).
Proof.
  intros data.
  pose proof (fallback_unfolded E api_key image_data image_url cm w) as Hu.
  cbv zeta in Hu. fold data in Hu. rewrite Hu. clear Hu.
  set (w2 := (w ++ [ Print "Trying fallback endpoint: " (VStr fallback_endpoint);
                     Post fallback_endpoint (headers_of api_key) data ])%list).
  destruct (requests_post E fallback_endpoint (headers_of api_key) data)
    as [r2|e0].
  - set (rest := bind (raise_for_status fallback_endpoint r2)
                   (fun _ => bind (lift (json r2))
                      (fun result => normalise_result (fun _ => ret tt) result))).
    assert (Hsil : silent rest).
    { apply silent_bind; [apply silent_raise_for_status|intro].
      apply silent_bind; [apply silent_lift|intro].
      apply silent_normalise_result. intro. apply silent_ret. }
    specialize (Hsil w2). unfold try_except.
    split; [|split].
    + destruct (rest w2) as [[res|e] w3]; cbn in Hsil; subst w3;
        [reflexivity|destruct (is_Exception e); reflexivity].
    + intros e. destruct (rest w2) as [[res|e1] w3]; cbn.
      * intros H. discriminate H.
      * destruct (is_Exception e1) eqn:He1; cbn; intros H He.
        -- inversion H. eexists. reflexivity.
        -- inversion H; subst. congruence.
    + intros r2' body Hr Hs Hj. inversion Hr; subst r2'.
      unfold rest. unfold bind at 1. rewrite (raise_for_status_ok _ r2 _ Hs).
      unfold bind at 1, lift at 1. rewrite Hj.
      pose proof (normalise_result_value (fun _ => ret tt) body w2) as Hn.
      destruct (normalise_result _ body w2) as [[res|e] w1]; cbn in *.
      * apply Hn. intros v w0. reflexivity.
      * exfalso. assert (H : @Raise dict e = Ok (normalised body))
          by (apply Hn; intros v w0; reflexivity). discriminate.
  - split; [|split].
    + destruct (is_Exception e0); reflexivity.
    + intros e. destruct (is_Exception e0) eqn:He0; cbn; intros H He.
      * inversion H. eexists. reflexivity.
      * inversion H; subst. congruence.
    + intros r2 body Hr. discriminate.
Qed.

Section Answers.
Variables (E : env) (api_key : string) (image_data image_url : option string)
  (content_moderation : bool) (w : world) (data : dict) (r : response).

Hypothesis Hdata :
  request_data E image_data image_url content_moderation w = (Ok data, w).
Hypothesis Hpost :
  requests_post E endpoint (headers_of api_key) data = Ok r.

Lemma after_post :
  remove_background E api_key image_data image_url content_moderation w =
  try_except (handle_response endpoint r)
    (on_error E api_key image_data image_url content_moderation)
    (w ++ announced api_key data)%list.
Proof.
  unfold remove_background. cbv zeta. unfold bind at 1. rewrite Hdata.
  unfold try_except, bind, post, log, modify, lift. cbn.
  repeat rewrite <- app_assoc. cbn [app]. rewrite Hpost.
  unfold announced. reflexivity.
Qed.

Lemma handle_response_posts_nothing (w0 : world) :
  posts (snd (handle_response endpoint r w0)) = posts w0.
Proof.
  destruct (sends_handle_response endpoint r w0) as (more & Hs & Hp).
  rewrite Hs, posts_app. lia.
Qed.

Lemma posts_announced : posts (w ++ announced api_key data)%list = posts w + 1.
Proof. rewrite posts_app. reflexivity. Qed.

(** X20. An answer that is not an HTTP error and carries a JSON object is
    handed back in the [result_url] shape: the body itself when it has a
    [result_url]; else the first of a non-empty [urls] list; else its [url];
    and unchanged when it names no result. One request was sent. *)
Theorem success_is_normalised (body : dict) :
  raises_for_status (status_code r) = false ->
  json r = Ok body ->
  fst (remove_background E api_key image_data image_url content_moderation w)
    = Ok (normalised body) /\
  (names_result body = true ->
   has_key "result_url" (normalised body) = true) /\
  posts (snd (remove_background E api_key image_data image_url
                content_moderation w)) = posts w + 1.
Proof.
  intros Hs Hj. rewrite after_post. unfold try_except.
  split; [|split].
  - unfold handle_response. unfold bind at 1.
    rewrite (raise_for_status_ok endpoint r _ Hs).
    unfold bind at 1, log at 1, modify. unfold bind at 1, log at 1, modify.
    unfold bind at 1, lift at 1. rewrite Hj.
    match goal with
    | |- context [normalise_result ?f body ?w0] =>
        pose proof (normalise_result_value f body w0) as Hn
    end.
    destruct (normalise_result _ body _) as [[res|e] w1]; cbn in *.
    + apply Hn. intros v w0. reflexivity.
    + exfalso. assert (H : @Raise dict e = Ok (normalised body))
        by (apply Hn; intros v w0; reflexivity). discriminate.
  - apply normalised_has_result_url.
  - pose proof (handle_response_posts_nothing (w ++ announced api_key data)%list)
      as Hp.
    assert (Hok : exists res w1,
      handle_response endpoint r (w ++ announced api_key data)%list = (Ok res, w1)).
    { unfold handle_response. unfold bind at 1.
      rewrite (raise_for_status_ok endpoint r _ Hs).
      unfold bind at 1, log at 1, modify. unfold bind at 1, log at 1, modify.
      unfold bind at 1, lift at 1. rewrite Hj.
      match goal with
      | |- context [normalise_result ?f body ?w0] =>
          pose proof (normalise_result_value f body w0) as Hn
      end.
      destruct (normalise_result _ body _) as [[res|e] w1]; cbn in *.
      - eexists; eexists; reflexivity.
      - exfalso. assert (H : @Raise dict e = Ok (normalised body))
          by (apply Hn; intros v w0; reflexivity). discriminate. }
    destruct Hok as (res & w1 & Hok). rewrite Hok in *. cbn in *.
    rewrite Hp. apply posts_announced.
Qed.

(** X21. An HTTP error other than 404 is not retried: the call raises
    [Exception("Background removal failed: <error> - ")] after its one
    request; the body text of the answer is not part of the message. *)
Theorem http_error_not_retried :
  raises_for_status (status_code r) = true ->
  status_code r <> 404%Z ->
  exists msg,
    remove_background E api_key image_data image_url content_moderation w =
      (Raise (Exception "Exception"
                ("Background removal failed: " ++ msg ++ " - " ++ "")),
       (w ++ announced api_key data)%list).
Proof.
  intros Hs Hne. rewrite after_post. unfold try_except, handle_response.
  unfold bind at 1.
  destruct (raise_for_status_raises endpoint r (w ++ announced api_key data)%list Hs)
    as (msg & Hr).
  rewrite Hr. exists msg. unfold on_error.
  apply Z.eqb_neq in Hne. rewrite Hne.
  unfold response_ok. unfold raises_for_status in Hs. rewrite Hs. reflexivity.
Qed.

(** X22. A 404 from the removal endpoint sends the same request to the
    alternate endpoint, once; what that endpoint answers is normalised the
    same way, and an [Exception] that leaves the call is always
    [Exception("Background removal fallback failed: ...")] (an exception
    from outside [Exception] is not wrapped). *)
Theorem not_found_falls_back :
  status_code r = 404%Z ->
  snd (remove_background E api_key image_data image_url content_moderation w) =
    ((w ++ announced api_key data) ++
     [ Print "Trying fallback endpoint: " (VStr fallback_endpoint);
       Post fallback_endpoint (headers_of api_key) data ])%list /\
  (forall e,
     fst (remove_background E api_key image_data image_url content_moderation w)
       = Raise e ->
     is_Exception e = true ->
     exists msg,
       e = Exception "Exception"
             ("Background removal fallback failed: " ++ msg)) /\
  (forall r2 body,
     requests_post E fallback_endpoint (headers_of api_key) data = Ok r2 ->
     raises_for_status (status_code r2) = false ->
     json r2 = Ok body ->
     fst (remove_background E api_key image_data image_url content_moderation w)
       = Ok (normalised body)).
Proof.
  intros H404.
  assert (Hs : raises_for_status (status_code r) = true)
    by (rewrite H404; reflexivity).
  assert (Hfd : fallback_data E image_data image_url content_moderation = data).
  { destruct (request_data_cases E image_data image_url content_moderation
                w w data Hdata) as (_ & Hd & Ht).
    unfold fallback_data. rewrite Hd.
    destruct (opt_truthy image_url); [reflexivity|].
    cbn in Ht. rewrite Ht. reflexivity. }
  assert (Heq :
    remove_background E api_key image_data image_url content_moderation w =
    remove_background_fallback E api_key image_data image_url content_moderation
      (w ++ announced api_key data)%list).
  { rewrite after_post. unfold try_except, handle_response. unfold bind at 1.
    destruct (raise_for_status_raises endpoint r
                (w ++ announced api_key data)%list Hs) as (msg & Hr).
    rewrite Hr. unfold on_error. rewrite H404. reflexivity. }
  rewrite Heq.
  pose proof (fallback_run E api_key image_data image_url content_moderation
                (w ++ announced api_key data)%list) as Hf.
  cbv zeta in Hf. rewrite Hfd in Hf. exact Hf.
Qed.

End Answers.

(** X19. When a URL is given the image bytes are not used: the request holds
    [content_moderation] and [image_url] only. *)
Theorem url_takes_precedence (E : env) (api_key : string)
    (image_data : option string) (u : string) (content_moderation : bool)
    (w : world) :
  str_truthy u = true ->
  exists more,
    snd (remove_background E api_key image_data (Some u) content_moderation w) =
      ((w ++ announced api_key
               [ ("content_moderation", VBool content_moderation);
                 ("image_url", VStr u) ]) ++ more)%list.
Proof.
  intros Hu.
  destruct (request_sent E api_key image_data (Some u) content_moderation w)
    as (data & more & Hd & Hs); [cbn; rewrite Hu; reflexivity|].
  destruct (request_data_cases E image_data (Some u) content_moderation
              w w data Hd) as (_ & Hdata & _).
  cbn in Hdata. rewrite Hu in Hdata. subst data.
  exists more. exact Hs.
Qed.

(** X18. An empty URL and empty image bytes count as missing: the call stops
    at the guard with a [ValueError] and nothing is printed or sent. *)
Theorem empty_inputs_rejected (E : env) (api_key : string)
    (image_data image_url : option string) (content_moderation : bool)
    (w : world) :
  image_data = None \/ image_data = Some "" ->
  image_url = None \/ image_url = Some "" ->
  remove_background E api_key image_data image_url content_moderation w =
    (Raise (Exception "ValueError"
              "Either image_data or image_url must be provided"), w).
Proof.
  intros [->| ->] [->| ->]; apply guard_raises; reflexivity.
Qed.

(** X24. Every call that gets past the guard prints its request headers, and
    with them the API token. *)
Theorem api_token_is_printed (E : env) (api_key : string)
    (image_data image_url : option string) (content_moderation : bool)
    (w : world) :
  opt_truthy image_url || opt_truthy image_data = true ->
  exists headers,
    In (Print "Headers: " (VDict headers))
       (snd (remove_background E api_key image_data image_url
               content_moderation w)) /\
    get "api_token" headers = Some (VStr api_key).
Proof.
  intros H.
  destruct (request_sent E api_key image_data image_url content_moderation w H)
    as (data & more & _ & Hs).
  exists (headers_of api_key). split; [|reflexivity].
  rewrite Hs. apply in_or_app. left. apply in_or_app. right.
  right. left. reflexivity.
Qed.

Lemma success_is_normalised_witness :
  fst (remove_background http_moved "key" None (Some "http://x/cat.png") false [])
    = Ok [("result_url", VStr "http://cdn/a.png")] /\
  fst (remove_background Demo.http_ok "key" (Some "bytes") None true [])
    = Ok [("result_url", VStr "http://cdn/out.png")] /\
  posts (snd (remove_background Demo.http_ok "key" (Some "bytes") None true []))
    = 1.
Proof.
  split.
  - reflexivity.
  - refine (let H := success_is_normalised Demo.http_ok "key" (Some "bytes") None
              true [] [("content_moderation", VBool true); ("file", VStr "bytes")]
              {| status_code := 200; reason := "OK"; text := "{}";
                 json := Ok [("result_url", VStr "http://cdn/out.png")] |}
              _ _ [("result_url", VStr "http://cdn/out.png")] _ _ in
            conj (proj1 H) (proj2 (proj2 H))); reflexivity.
Defined.

Lemma http_error_not_retried_witness :
  exists msg,
    remove_background http_broken "key" None (Some "http://x/cat.png") false [] =
      (Raise (Exception "Exception"
                ("Background removal failed: " ++ msg ++ " - " ++ "")),
       ([] ++ announced "key"
                [ ("content_moderation", VBool false);
                  ("image_url", VStr "http://x/cat.png") ])%list).
Proof.
  apply (http_error_not_retried http_broken "key" None (Some "http://x/cat.png")
           false [] [("content_moderation", VBool false);
                     ("image_url", VStr "http://x/cat.png")]
           {| status_code := 500; reason := "Internal Server Error";
              text := "stack trace"; json := Ok [] |});
    try reflexivity.
  discriminate.
Defined.

Lemma not_found_falls_back_witness :
  snd (remove_background http_moved "key" None (Some "http://x/cat.png") false []) =
    (([] ++ announced "key"
              [ ("content_moderation", VBool false);
                ("image_url", VStr "http://x/cat.png") ]) ++
     [ Print "Trying fallback endpoint: " (VStr fallback_endpoint);
       Post fallback_endpoint (headers_of "key")
         [ ("content_moderation", VBool false);
           ("image_url", VStr "http://x/cat.png") ] ])%list.
Proof.
  refine (proj1 (not_found_falls_back http_moved "key" None
            (Some "http://x/cat.png") false []
            [("content_moderation", VBool false);
             ("image_url", VStr "http://x/cat.png")]
            {| status_code := 404; reason := "Not Found";
               text := "no such route"; json := Ok [] |} _ _ _));
    reflexivity.
Defined.

Lemma url_takes_precedence_witness :
  exists more,
    snd (remove_background Demo.http_ok "key" (Some "bytes")
           (Some "http://x/cat.png") false []) =
      (([] ++ announced "key"
                [ ("content_moderation", VBool false);
                  ("image_url", VStr "http://x/cat.png") ]) ++ more)%list.
Proof.
  apply (url_takes_precedence Demo.http_ok "key" (Some "bytes")
           "http://x/cat.png" false []).
  reflexivity.
Defined.

Lemma empty_inputs_rejected_witness :
  remove_background Demo.http_ok "key" (Some "") (Some "") false [] =
    (Raise (Exception "ValueError"
              "Either image_data or image_url must be provided"), []).
Proof.
  apply (empty_inputs_rejected Demo.http_ok "key" (Some "") (Some "") false []);
    right; reflexivity.
Defined.

Lemma api_token_is_printed_witness :
  exists headers,
    In (Print "Headers: " (VDict headers))
       (snd (remove_background Demo.http_ok "secret" (Some "bytes") None
               false [])) /\
    get "api_token" headers = Some (VStr "secret").
Proof.
  apply (api_token_is_printed Demo.http_ok "secret" (Some "bytes") None false []).
  reflexivity.
Defined.

End BackgroundProps.

(** ** Further properties: the page handlers *)
Module PageProps.
Import Py Eff Component Results Notions PageNotions.

Local Arguments String.append : simpl never.

(** X26. Without an API key the generate button makes no call to the image
    API; it reports the missing key and then, from the same click, a second
    error, the [UnboundLocalError] of [image_url], which was never assigned;
    the session is left as it was. *)
Theorem missing_api_key_reported_twice
    (generate_hd_image : string -> string -> outcome pyval)
    (getenv_BRIA_API_KEY : option string) (time_time : Z) (cw : world) :
  let shown :=
    [ V.St V.Spinner "Generating image from your voice description...";
      V.St V.Error
        "❌ API key not found. Please check your .env file or session state.";
      V.St V.Error
        ("❌ Error generating image: " ++ exn_str (unbound_local "image_url")) ]
  in
  str_truthy (current_enhanced_prompt (state cw)) = true ->
  match opt_str_or (api_key (state cw)) getenv_BRIA_API_KEY with
  | Some key => str_truthy key = false
  | None => True
  end ->
  on_generate generate_hd_image getenv_BRIA_API_KEY time_time true cw =
    (Ok tt, {| app := with_events (app cw) shown; state := state cw |}) /\
  (forall prompt key, ~ In (V.GenerateHdImage prompt key) shown) /\
  exn_str (unbound_local "image_url") =
    "cannot access local variable 'image_url' where it is not associated with a value".
Proof.
  intros shown Hp Hk. unfold current_enhanced_prompt in Hp.
  destruct cw as [a s]. cbn [state app] in *.
  split; [|split; [|reflexivity]].
  - unfold on_generate, bind at 1, gets. cbn [state app]. rewrite Hp.
    unfold try_except, bind, st, in_app, V.st, V.log, modify, lift, raise.
    cbn [state app].
    destruct (opt_str_or (api_key s) getenv_BRIA_API_KEY) as [key|].
    + rewrite Hk. cbn. unfold with_events, V.set_trace. cbn.
      repeat rewrite <- app_assoc. reflexivity.
    + cbn. unfold with_events, V.set_trace. cbn.
      repeat rewrite <- app_assoc. reflexivity.
  - intros prompt key [H|[H|[H|[]]]]; discriminate H.
Qed.

(** X27. An [Exception] of the image API does not leave the generate button:
    after the one call it is shown as one error, and no image is recorded.
    What the API raises from outside [Exception] leaves the handler, with
    nothing shown for it; the session is as before in both cases. *)
Theorem generation_failure_caught
    (generate_hd_image : string -> string -> outcome pyval)
    (getenv_BRIA_API_KEY : option string) (time_time : Z) (cw : world)
    (key : string) (e : exn) :
  let prompt := current_enhanced_prompt (state cw) in
  str_truthy prompt = true ->
  opt_str_or (api_key (state cw)) getenv_BRIA_API_KEY = Some key ->
  str_truthy key = true ->
  generate_hd_image prompt key = Raise e ->
  (is_Exception e = true ->
   on_generate generate_hd_image getenv_BRIA_API_KEY time_time true cw =
     (Ok tt,
      {| app := with_events (app cw)
           [ V.St V.Spinner "Generating image from your voice description...";
             V.GenerateHdImage prompt key;
             V.St V.Error ("❌ Error generating image: " ++ exn_str e) ];
         state := state cw |})) /\
  (is_Exception e = false ->
   on_generate generate_hd_image getenv_BRIA_API_KEY time_time true cw =
     (Raise e,
      {| app := with_events (app cw)
           [ V.St V.Spinner "Generating image from your voice description...";
             V.GenerateHdImage prompt key ];
         state := state cw |})).
Proof.
  intros prompt Hp Hk Hkt Hg. unfold prompt in *. clear prompt.
  unfold current_enhanced_prompt in *. destruct cw as [a s].
  cbn [state app] in *.
  split; intros He.
  - unfold on_generate, bind at 1, gets. cbn [state app]. rewrite Hp.
    unfold try_except, bind, st, in_app, V.st, V.log, modify, lift, raise.
    cbn [state app]. rewrite Hk, Hkt, Hg. cbn. rewrite He.
    unfold with_events, V.set_trace. cbn.
    repeat rewrite <- app_assoc. reflexivity.
  - unfold on_generate, bind at 1, gets. cbn [state app]. rewrite Hp.
    unfold try_except, bind, st, in_app, V.st, V.log, modify, lift, raise.
    cbn [state app]. rewrite Hk, Hkt, Hg. cbn. rewrite He.
    unfold with_events, V.set_trace. cbn.
    repeat rewrite <- app_assoc. reflexivity.
Qed.

Lemma voice_generated_snoc (l vs : list pyval) (img : pyval) :
  voice_generated l = Ok vs ->
  from_voice img = Ok true ->
  voice_generated (l ++ [img])%list = Ok (vs ++ [img])%list.
Proof.
  intros Hl Hi. revert vs Hl. induction l as [|x l IH]; intros vs Hl.
  - cbn in Hl. inversion Hl. cbn. rewrite Hi. reflexivity.
  - cbn in Hl. cbn. destruct (from_voice x) as [keep|e]; [|discriminate Hl].
    destruct (voice_generated l) as [vl|e]; [|discriminate Hl].
    inversion Hl. rewrite (IH vl eq_refl).
    destruct keep; reflexivity.
Qed.

(** X28. An image the generate button records is kept after the ones already
    there and is found by the listing of the voice images: it is the last of
    them, with the URL that was extracted and the prompt that was used. *)
Theorem generated_image_is_listed
    (generate_hd_image : string -> string -> outcome pyval)
    (getenv_BRIA_API_KEY : option string) (time_time : Z) (cw : world)
    (key : string) (result v : pyval) (vs : list pyval) :
  let prompt := current_enhanced_prompt (state cw) in
  let old := match generated_images (state cw) with
             | Some l => l
             | None => []
             end in
  str_truthy prompt = true ->
  opt_str_or (api_key (state cw)) getenv_BRIA_API_KEY = Some key ->
  str_truthy key = true ->
  generate_hd_image prompt key = Ok result ->
  extract_image_url result = Ok v ->
  truthy v = true ->
  voice_generated old = Ok vs ->
  let cw' := snd (on_generate generate_hd_image getenv_BRIA_API_KEY time_time
                    true cw) in
  generated_images (state cw') =
    Some (old ++ [image_record v prompt time_time])%list /\
  voice_generated (old ++ [image_record v prompt time_time])%list =
    Ok (vs ++ [image_record v prompt time_time])%list.
Proof.
  intros prompt old Hp Hk Hkt Hg He Hv Hvs cw'.
  split.
  - unfold cw'.
    rewrite (ExtractionFacts.generation_report generate_hd_image
               getenv_BRIA_API_KEY time_time cw key result v Hp Hk Hkt Hg He).
    rewrite Hv. reflexivity.
  - apply voice_generated_snoc; [exact Hvs|reflexivity].
Qed.

(** X29. The clear button forgets the transcription: afterwards there is none
    to show and no prompt to generate from, while the recorded images and
    the API key stay, and a key that was absent stays absent. *)
Theorem clear_forgets_transcription (cw : world) :
  let cw' := snd (on_clear true cw) in
  fst (on_clear true cw) = Raise (BaseException "RerunException" "") /\
  has_transcription (state cw') = false /\
  current_enhanced_prompt (state cw') = "" /\
  generated_images (state cw') = generated_images (state cw) /\
  api_key (state cw') = api_key (state cw) /\
  (original_prompt (state cw) = None -> original_prompt (state cw') = None).
Proof.
  destruct cw as [a s]. cbn.
  unfold has_transcription, current_enhanced_prompt, str_or. cbn.
  repeat split.
  - destruct (original_prompt s); reflexivity.
  - destruct (enhanced_prompt s); reflexivity.
  - intros ->. reflexivity.
Qed.

Lemma st_keeps_state (l : V.level) (text : string) (cw : world) :
  st l text cw =
    (Ok tt, {| app := with_events (app cw) [V.St l text]; state := state cw |}).
Proof. reflexivity. Qed.

(** X25. The transcribe handler changes the session in one case only: the
    button is pressed, the upload is valid, the model is there and the
    transcription returns a text that is not empty. It then stores that text,
    its enhancement and the information returned with it, under the voice
    keys and the shared keys alike, shows them and asks for a rerun. In
    every other case (invalid upload, model not loaded, empty transcription,
    button not pressed) the session is as before. *)
Theorem transcription_updates_session {sample : Type} (E : V.env sample)
    (audio : V.upload) (clicked : bool) (model_size : string)
    (selected_language : option string) (cw : world) :
  let r := on_transcribe sample E (Some audio) clicked model_size
             selected_language cw in
  (forall t info w3,
     clicked = true ->
     transcribed E audio model_size selected_language cw t info w3 ->
     r = (Raise (BaseException "RerunException" ""),
          {| app := with_events w3 (transcription_report info);
             state := after_transcription (state cw) t info |})) /\
  ((exists t info w3,
      clicked = true /\
      transcribed E audio model_size selected_language cw t info w3) \/
   state (snd r) = state cw).
Proof.
  destruct cw as [a s]. cbv zeta. unfold transcribed. cbn [app state].
  split.
  - intros t info w3 -> (w1 & w2 & Hv & Hl & Ht & Htt).
    unfold on_transcribe.
    unfold bind at 1, in_app at 1. cbn [app state]. rewrite Hv.
    unfold bind at 1, in_app at 1. cbn [app state]. rewrite Hl.
    unfold bind at 1, in_app at 1. cbn [app state]. rewrite Ht.
    unfold bind at 1, ret at 1. rewrite Htt.
    unfold bind, ret, set_state, st, in_app, V.st, V.log, rerun, raise, modify.
    cbn [app state fst snd].
    unfold transcription_report, with_events, V.set_trace, after_transcription.
    cbn [V.trace V.fs V.next_tmp V.self app state].
    repeat rewrite <- app_assoc. reflexivity.
  - destruct (on_transcribe sample E (Some audio) clicked model_size
                selected_language {| app := a; state := s |}) as [o cw'] eqn:Hr.
    cbn [fst snd state]. unfold on_transcribe in Hr.
    destruct clicked; [|inversion Hr; right; reflexivity].
    unfold bind at 1, in_app at 1 in Hr. cbn [app state] in Hr.
    destruct (V.validate_audio_file (Some audio) a) as [[valid|e] a1];
      [|inversion Hr; right; reflexivity].
    destruct valid; [|inversion Hr; right; reflexivity].
    unfold bind at 1, in_app at 1 in Hr. cbn [app state] in Hr.
    destruct (V.load_model E model_size a1) as [[ok|e] a2] eqn:Hl;
      [|inversion Hr; right; reflexivity].
    destruct ok; [|inversion Hr; right; reflexivity].
    unfold bind at 1, in_app at 1 in Hr. cbn [app state] in Hr.
    destruct (V.transcribe_audio E audio selected_language a2)
      as [[c|e] a3] eqn:Ht; [|inversion Hr; right; reflexivity].
    destruct c as [|[t info]]; [inversion Hr; right; reflexivity|].
    unfold bind at 1, ret at 1 in Hr.
    destruct (str_truthy t) eqn:Htt; [|inversion Hr; right; reflexivity].
    left. exists t, info, a3. split; [reflexivity|].
    exists a1, a2. auto.
Qed.

Lemma transcription_updates_session_witness :
  on_transcribe _ Demo.E_ok (Some Demo.clip) true "base" None Demo.page_ready =
    (Raise (BaseException "RerunException" ""),
     {| app := with_events
                 (snd (V.transcribe_audio Demo.E_ok Demo.clip None Demo.w_base))
                 [ V.St V.Success "✅ Audio transcribed successfully!";
                   V.St V.Info "**Language detected:** auto-detected";
                   V.St V.Info "**Model:** openai/whisper";
                   V.St V.Info "**Device:** cpu" ];
        state := after_transcription Demo.session_ready
                   "a red sneaker on a table"
                   [ ("language", VStr "auto-detected");
                     ("model", VStr "openai/whisper");
                     ("device", VStr "cpu") ] |}).
Proof.
  apply (proj1 (transcription_updates_session Demo.E_ok Demo.clip true "base"
                  None Demo.page_ready)
           "a red sneaker on a table"
           [ ("language", VStr "auto-detected");
             ("model", VStr "openai/whisper");
             ("device", VStr "cpu") ]
           (snd (V.transcribe_audio Demo.E_ok Demo.clip None Demo.w_base))
           eq_refl).
  exists Demo.w_base, Demo.w_base. repeat split; reflexivity.
Defined.

Lemma missing_api_key_reported_twice_witness :
  on_generate (fun _ _ => Ok VNone) None 0 true page_no_key =
    (Ok tt,
     {| app := with_events Demo.w_base
          [ V.St V.Spinner "Generating image from your voice description...";
            V.St V.Error
              "❌ API key not found. Please check your .env file or session state.";
            V.St V.Error
              "❌ Error generating image: cannot access local variable 'image_url' where it is not associated with a value" ];
        state := session_no_key |}).
Proof.
  apply (proj1 (missing_api_key_reported_twice (fun _ _ => Ok VNone) None 0%Z
                  page_no_key eq_refl I)).
Defined.

Lemma generation_failure_caught_witness :
  on_generate (fun _ _ => Raise (Exception "ConnectionError" "no route"))
    None 0 true Demo.page_ready =
    (Ok tt,
     {| app := with_events Demo.w_base
          [ V.St V.Spinner "Generating image from your voice description...";
            V.GenerateHdImage "A red sneaker." "key";
            V.St V.Error "❌ Error generating image: no route" ];
        state := Demo.session_ready |}) /\
  on_generate (fun _ _ => Raise (BaseException "KeyboardInterrupt" ""))
    None 0 true Demo.page_ready =
    (Raise (BaseException "KeyboardInterrupt" ""),
     {| app := with_events Demo.w_base
          [ V.St V.Spinner "Generating image from your voice description...";
            V.GenerateHdImage "A red sneaker." "key" ];
        state := Demo.session_ready |}).
Proof.
  split.
  - apply (proj1 (generation_failure_caught
             (fun _ _ => Raise (Exception "ConnectionError" "no route"))
             None 0%Z Demo.page_ready "key"
             (Exception "ConnectionError" "no route")
             eq_refl eq_refl eq_refl eq_refl) eq_refl).
  - apply (proj2 (generation_failure_caught
             (fun _ _ => Raise (BaseException "KeyboardInterrupt" ""))
             None 0%Z Demo.page_ready "key"
             (BaseException "KeyboardInterrupt" "")
             eq_refl eq_refl eq_refl eq_refl) eq_refl).
Defined.

Lemma generated_image_is_listed_witness :
  generated_images
    (state (snd (on_generate (fun _ _ => Ok (VDict [("url", VStr "http://new")]))
                   (Some "key") 7 true page_no_key))) =
    Some [ VDict [("url", VStr "http://old"); ("source", VStr "text")];
           image_record (VStr "http://new") "A red sneaker." 7 ] /\
  voice_generated
    [ VDict [("url", VStr "http://old"); ("source", VStr "text")];
      image_record (VStr "http://new") "A red sneaker." 7 ] =
    Ok [ image_record (VStr "http://new") "A red sneaker." 7 ].
Proof.
  apply (generated_image_is_listed
           (fun _ _ => Ok (VDict [("url", VStr "http://new")]))
           (Some "key") 7%Z page_no_key "key"
           (VDict [("url", VStr "http://new")]) (VStr "http://new") []);
    reflexivity.
Defined.

Lemma clear_forgets_transcription_witness :
  original_prompt (state (snd (on_clear true Demo.page_ready))) = None.
Proof.
  apply (proj2 (proj2 (proj2 (proj2 (proj2
           (clear_forgets_transcription Demo.page_ready)))))).
  reflexivity.
Defined.

End PageProps.

(** ** Runs on concrete inputs *)
Module Runs.
Import Py Eff VoiceToImageService Notions.

Example splitext_upper : splitext "clip.final.WAV" = ("clip.final", ".WAV").
Proof. reflexivity. Qed.

Example splitext_hidden : splitext "dir/.bashrc" = ("dir/.bashrc", "").
Proof. reflexivity. Qed.

Example strip_spaces : strip "  a red  shoe " = "a red  shoe".
Proof. reflexivity. Qed.

Example capitalize_lowers_the_rest :
  Prompt.enhance_voice_prompt "my iPhone in a COMMERCIAL" =
    "My iphone in a commercial.".
Proof. reflexivity. Qed.

Example upper_case_extension_accepted :
  validate_audio_file (Some Demo.clip) Demo.w_fresh = (Ok true, Demo.w_fresh).
Proof. reflexivity. Qed.

Example transcribe_clip :
  transcribe_audio Demo.E_ok Demo.clip None Demo.w_base =
    (Ok (Return ("a red sneaker on a table",
                 [ ("language", VStr "auto-detected");
                   ("model", VStr "openai/whisper");
                   ("device", VStr "cpu") ])),
     {| fs := []; next_tmp := 1;
        trace := [ TmpCreate {| tmp_id := 0; tmp_suffix := ".WAV" |};
                   TmpWrite {| tmp_id := 0; tmp_suffix := ".WAV" |} 2048;
                   SfRead {| tmp_id := 0; tmp_suffix := ".WAV" |};
                   LibrosaResample 44100 16000;
                   ProcessorCall 16000;
                   Generate None;
                   BatchDecode;
                   Unlink {| tmp_id := 0; tmp_suffix := ".WAV" |} ];
        self := Demo.whisper_base |}).
Proof. reflexivity. Qed.

Example multi_method_falls_back_to_array :
  multi_method Demo.E_file_fails Demo.tmp0 (Some [3; 7]%Z) None Demo.w_base =
    (Ok (VDict [("text", VStr " a red sneaker ")]),
     with_events Demo.w_base
       (until_array Demo.tmp0 None
          (Exception "RuntimeError" "cannot read the file") ++
        [ TranscribeArray None;
          St Success "Array-based transcription successful!" ])%list).
Proof. reflexivity. Qed.

End Runs.
